(** * AnyRouter check-in script: a shallow embedding of [checkin.py]

    The development follows the source file top to bottom.  Pure helper
    functions of the script become Rocq functions; the parts of the
    script that talk to the outside (environment, hash file, browser,
    HTTP client, notifier) run in a small state-and-exception monad over
    an explicit record of collaborator answers.

    Conventions.
    - A Python [str] is represented by its UTF-8 encoding, a [string].
      Character-level operations ([len], slicing, [strip]) work on the
      UTF-8 characters of the string, not on its bytes.
    - A Python [float] is an IEEE binary64 number, a [spec_float] of the
      standard library with precision 53 and exponent bound 1024.
    - Values decoded from JSON are the inductive type [value].
    - [print] calls are diagnostics on standard output; they are not part
      of the modelled state. *)

From Stdlib Require Import ZArith List String Ascii Bool Lia.
From Stdlib Require Import Permutation Sorted DecimalString.
From Stdlib Require DecimalZ.
From Stdlib Require Import Floats.SpecFloat.
Import ListNotations.

Set Warnings "-register-all".

Local Open Scope string_scope.
Local Open Scope list_scope.

(* ================================================================== *)
(** * Python strings *)
(* ================================================================== *)

Module PyStr.

Definition byte (n : nat) : ascii := ascii_of_nat n.

Fixpoint bytes (l : list nat) : string :=
  match l with
  | [] => EmptyString
  | n :: r => String (byte n) (bytes r)
  end.

Definition LF : string := bytes [10].
Definition DQUOTE : ascii := byte 34.

(** A continuation byte of UTF-8 has the bit pattern [10xxxxxx]. *)
Definition is_continuation (c : ascii) : bool :=
  let n := nat_of_ascii c in (128 <=? n)%nat && (n <? 192)%nat.

Definition starts_with_continuation (s : string) : bool :=
  match s with
  | String c _ => is_continuation c
  | EmptyString => false
  end.

(** The characters of a string: every byte that is not a continuation
    byte starts a new character. *)
Fixpoint chars (s : string) : list string :=
  match s with
  | EmptyString => []
  | String c r =>
      match chars r with
      | h :: t =>
          if starts_with_continuation r then String c h :: t
          else String c EmptyString :: h :: t
      | [] => [String c EmptyString]
      end
  end.

Definition join (l : list string) : string := String.concat "" l.

(** [len(s)] *)
Definition len (s : string) : nat := List.length (chars s).

(** [s[:n]] for [n >= 0] *)
Definition slice_to (n : nat) (s : string) : string := join (firstn n (chars s)).

(** The characters for which [str.isspace] holds: U+0009..U+000D,
    U+001C..U+0020, U+0085, U+00A0, U+1680, U+2000..U+200A, U+2028,
    U+2029, U+202F, U+205F, U+3000. *)
Definition whitespace : list string :=
  map (fun n => bytes [n]) [9; 10; 11; 12; 13; 28; 29; 30; 31; 32]%nat
  ++ [bytes [194; 133]; bytes [194; 160]; bytes [225; 154; 128]]
  ++ map (fun n => bytes [226; 128; n]) (seq 128 11)
  ++ [bytes [226; 128; 168]; bytes [226; 128; 169]; bytes [226; 128; 175];
      bytes [226; 129; 159]; bytes [227; 128; 128]].

Definition isspace (ch : string) : bool := existsb (String.eqb ch) whitespace.

Fixpoint drop_while {A} (p : A -> bool) (l : list A) : list A :=
  match l with
  | x :: r => if p x then drop_while p r else l
  | [] => []
  end.

(** [s.strip()] *)
Definition strip (s : string) : string :=
  join (rev (drop_while isspace (rev (drop_while isspace (chars s))))).

(** [s.split(sep)] for a one-character separator *)
Fixpoint split (sep : ascii) (s : string) : list string :=
  match s with
  | EmptyString => [EmptyString]
  | String c r =>
      if Ascii.eqb c sep then EmptyString :: split sep r
      else match split sep r with
           | h :: t => String c h :: t
           | [] => [String c EmptyString]
           end
  end.

(** [s.split(sep, 1)] for a one-character separator *)
Fixpoint split1 (sep : ascii) (s : string) : list string :=
  match s with
  | EmptyString => [EmptyString]
  | String c r =>
      if Ascii.eqb c sep then [EmptyString; r]
      else match split1 sep r with
           | h :: t => String c h :: t
           | [] => [String c EmptyString]
           end
  end.

(** [sub in s] *)
Fixpoint contains (sub s : string) : bool :=
  String.prefix sub s
  || match s with
     | EmptyString => false
     | String _ r => contains sub r
     end.

Definition lower_ascii (c : ascii) : ascii :=
  let n := nat_of_ascii c in
  if (65 <=? n)%nat && (n <=? 90)%nat then ascii_of_nat (n + 32) else c.

(** [s.lower()] on the ASCII letters.  No character outside ASCII has a
    lower-case form that contains an ASCII letter of the word
    "success", so the test ['success' in s.lower()] is decided by this
    function exactly as by the full Unicode case mapping. *)
Fixpoint lower (s : string) : string :=
  match s with
  | EmptyString => EmptyString
  | String c r => String (lower_ascii c) (lower r)
  end.

(** [str(n)] for an integer *)
Definition of_Z (z : Z) : string := NilZero.string_of_int (Z.to_int z).

(** Comparison of two strings, [a <= b] (code point order, which UTF-8
    preserves). *)
Definition leb (a b : string) : bool := String.leb a b.

End PyStr.

(* ================================================================== *)
(** * Python floats *)
(* ================================================================== *)

Module PyFloat.

Local Open Scope Z_scope.

Definition float := spec_float.

Definition prec : Z := 53.
Definition emax : Z := 1024.

Definition div (x y : float) : float := SFdiv prec emax x y.

(** The integer [z] as an unrounded mantissa with exponent 0. *)
Definition raw_of_Z (z : Z) : float :=
  match z with
  | Z0 => S754_zero false
  | Zpos p => S754_finite false p 0
  | Zneg p => S754_finite true p 0
  end.

(** The binary64 number nearest to [n / d] (ties to even), [d > 0]. *)
Definition of_ratio (n d : Z) : float := div (raw_of_Z n) (raw_of_Z d).

(** [float(z)] when it does not overflow *)
Definition of_Z (z : Z) : float := binary_normalize prec emax z 0 false.

Definition is_finite (x : float) : bool :=
  match x with
  | S754_zero _ | S754_finite _ _ _ => true
  | _ => false
  end.

Definition is_zero (x : float) : bool :=
  match x with
  | S754_zero _ => true
  | _ => false
  end.

(** [x == z] for a float [x] and an integer [z] of small magnitude *)
Definition eqb_Z (x : float) (z : Z) : bool := SFeqb x (of_Z z).

(** Rounding of the rational [n / d] ([d > 0]) to the nearest integer,
    ties to the even one. *)
Definition round_half_even (n d : Z) : Z :=
  let q := n / d in
  let r := n mod d in
  match 2 * r ?= d with
  | Lt => q
  | Gt => q + 1
  | Eq => if Z.even q then q else q + 1
  end.

(** [round(x, ndigits)] for [0 <= ndigits]: the decimal string of [x]
    correctly rounded to [ndigits] places, read back as a float. *)
Definition round (x : float) (ndigits : nat) : float :=
  match x with
  | S754_finite s m e =>
      let p := 10 ^ Z.of_nat ndigits in
      let r := if 0 <=? e then Zpos m * 2 ^ e * p
               else round_half_even (Zpos m * p) (2 ^ (- e)) in
      if r =? 0 then S754_zero s
      else div (raw_of_Z (if s then - r else r)) (raw_of_Z p)
  | _ => x
  end.

(** ** [repr] *)

(** The float nearest to [d * 10^p] for a digit string read as the
    positive integer [d]. *)
Definition of_decimal (d : Z) (p : Z) : float :=
  if 0 <=? p then of_Z (d * 10 ^ p) else of_ratio d (10 ^ (- p)).

(** [decpt m e]: the integer [k] with [10^(k-1) <= m * 2^e < 10^k]. *)
Fixpoint decpt_up (fuel : nat) (n d : Z) (k : Z) : Z :=
  match fuel with
  | O => k
  | S f => if n <? d * 10 ^ k then k else decpt_up f n d (k + 1)
  end.

Fixpoint decpt_down (fuel : nat) (n d : Z) (k : Z) : Z :=
  match fuel with
  | O => k
  | S f => if d <=? n * 10 ^ (1 - k) then k else decpt_down f n d (k - 1)
  end.

Definition decpt (m : positive) (e : Z) : Z :=
  let n := if 0 <=? e then Zpos m * 2 ^ e else Zpos m in
  let d := if 0 <=? e then 1 else 2 ^ (- e) in
  if d <=? n then decpt_up 400 n d 1 else decpt_down 400 n d 0.

Definition digits_of (z : Z) : string := PyStr.of_Z z.

(** The shortest digit string that reads back as [x = m * 2^e]; among
    the candidates of that length the one nearest to [x] (on a tie the
    one with an even last digit).  Returns the digits as an integer
    and the exponent of its last digit. *)
Fixpoint shortest (fuel : nat) (m : positive) (e : Z) (k : Z) (n : Z) : Z * Z :=
  let p := k - n in
  (* x / 10^p = num / den *)
  let num := (if 0 <=? e then Zpos m * 2 ^ e else Zpos m)
             * (if 0 <=? p then 1 else 10 ^ (- p)) in
  let den := (if 0 <=? e then 1 else 2 ^ (- e))
             * (if 0 <=? p then 10 ^ p else 1) in
  let lo := num / den in
  let hi := lo + 1 in
  let r := num mod den in
  let x := S754_finite false m e in
  let lo_ok := (0 <? lo) && SFeqb (of_decimal lo p) x in
  let hi_ok := SFeqb (of_decimal hi p) x in
  let pick_hi :=
    match 2 * r ?= den with
    | Lt => false
    | Gt => true
    | Eq => Z.odd lo
    end in
  match fuel with
  | O => (if pick_hi then hi else lo, p)
  | S f =>
      if lo_ok && hi_ok then (if pick_hi then hi else lo, p)
      else if lo_ok then (lo, p)
      else if hi_ok then (hi, p)
      else shortest f m e k (n + 1)
  end.

(** Removal of trailing zeros of a digit string [(d, p)]. *)
Fixpoint strip_zeros (fuel : nat) (d p : Z) : Z * Z :=
  match fuel with
  | O => (d, p)
  | S f => if (d mod 10 =? 0) && negb (d =? 0) then strip_zeros f (d / 10) (p + 1)
           else (d, p)
  end.

Definition zeros (n : Z) : string := PyStr.bytes (repeat 48%nat (Z.to_nat n)).

Definition exponent_text (x : Z) : string :=
  let a := Z.abs x in
  let sign : string := if x <? 0 then "-" else "+" in
  let pad : string := if a <? 10 then "0" else "" in
  (sign ++ pad ++ PyStr.of_Z a)%string.

(** The digits [ds] with the decimal point after [pt] of them, in the
    layout of [repr]: exponent form when [pt <= -4] or [pt > 16]. *)
Definition layout (ds : string) (pt : Z) : string :=
  let n := Z.of_nat (String.length ds) in
  let frac : string :=
    if 1 <? n then ("." ++ String.substring 1 (String.length ds - 1) ds)%string
    else "" in
  if (pt <=? -4) || (16 <? pt) then
    (String.substring 0 1 ds ++ frac ++ "e" ++ exponent_text (pt - 1))%string
  else if pt <=? 0 then ("0." ++ zeros (- pt) ++ ds)%string
  else if n <=? pt then (ds ++ zeros (pt - n) ++ ".0")%string
  else (String.substring 0 (Z.to_nat pt) ds ++ "."
        ++ String.substring (Z.to_nat pt) (String.length ds - Z.to_nat pt) ds)%string.

Definition repr_finite (m : positive) (e : Z) : string :=
  let k := decpt m e in
  let '(d, p) := shortest 17 m e k 1 in
  let '(d, p) := strip_zeros 400 d p in
  let ds := digits_of d in
  layout ds (p + Z.of_nat (String.length ds)).

(** [repr(x)], which is also [str(x)] and the text of [f'{x}'] *)
Definition repr (x : float) : string :=
  match x with
  | S754_zero s => if s then "-0.0" else "0.0"
  | S754_infinity s => if s then "-inf" else "inf"
  | S754_nan => "nan"
  | S754_finite s m e =>
      let sign : string := if s then "-" else "" in
      (sign ++ repr_finite m e)%string
  end.

End PyFloat.

(* ================================================================== *)
(** * SHA-256 ([hashlib.sha256]) *)
(* ================================================================== *)

Module SHA256.

Local Open Scope Z_scope.

Definition mask : Z := 4294967295.
Definition w32 (x : Z) : Z := Z.land x mask.
Definition add32 (x y : Z) : Z := w32 (x + y).
Definition rotr (n x : Z) : Z := Z.lor (Z.shiftr x n) (w32 (Z.shiftl x (32 - n))).
Definition not32 (x : Z) : Z := Z.lxor x mask.

Definition Ch (x y z : Z) : Z := Z.lxor (Z.land x y) (Z.land (not32 x) z).
Definition Maj (x y z : Z) : Z :=
  Z.lxor (Z.lxor (Z.land x y) (Z.land x z)) (Z.land y z).
Definition Sigma0 (x : Z) : Z := Z.lxor (Z.lxor (rotr 2 x) (rotr 13 x)) (rotr 22 x).
Definition Sigma1 (x : Z) : Z := Z.lxor (Z.lxor (rotr 6 x) (rotr 11 x)) (rotr 25 x).
Definition sigma0 (x : Z) : Z := Z.lxor (Z.lxor (rotr 7 x) (rotr 18 x)) (Z.shiftr x 3).
Definition sigma1 (x : Z) : Z := Z.lxor (Z.lxor (rotr 17 x) (rotr 19 x)) (Z.shiftr x 10).

(** The value of a hexadecimal digit. *)
Definition digit_value (c : ascii) : option Z :=
  let n := Z.of_nat (nat_of_ascii c) in
  if (48 <=? n) && (n <=? 57) then Some (n - 48)
  else if (97 <=? n) && (n <=? 102) then Some (n - 87)
  else None.

(** The words of a table written as hexadecimal numerals separated by
    blanks. *)
Fixpoint hex_words (s : string) (current : option Z) : list Z :=
  match s with
  | EmptyString => match current with Some x => [x] | None => [] end
  | String c r =>
      match digit_value c with
      | Some d => hex_words r (Some (16 * match current with Some x => x | None => 0 end + d))
      | None => match current with Some x => x :: hex_words r None | None => hex_words r None end
      end
  end.

(** The round constants, in the order of the standard. *)
Definition K : list Z :=
  Eval cbv in
    hex_words
      (String.concat " "
         ["428a2f98 71374491 b5c0fbcf e9b5dba5 3956c25b 59f111f1 923f82a4 ab1c5ed5";
          "d807aa98 12835b01 243185be 550c7dc3 72be5d74 80deb1fe 9bdc06a7 c19bf174";
          "e49b69c1 efbe4786 0fc19dc6 240ca1cc 2de92c6f 4a7484aa 5cb0a9dc 76f988da";
          "983e5152 a831c66d b00327c8 bf597fc7 c6e00bf3 d5a79147 06ca6351 14292967";
          "27b70a85 2e1b2138 4d2c6dfc 53380d13 650a7354 766a0abb 81c2c92e 92722c85";
          "a2bfe8a1 a81a664b c24b8b70 c76c51a3 d192e819 d6990624 f40e3585 106aa070";
          "19a4c116 1e376c08 2748774c 34b0bcb5 391c0cb3 4ed8aa4a 5b9cca4f 682e6ff3";
          "748f82ee 78a5636f 84c87814 8cc70208 90befffa a4506ceb bef9a3f7 c67178f2"])
      None.

Record words := Words { ha : Z; hb : Z; hc : Z; hd : Z; he : Z; hf : Z; hg : Z; hh : Z }.

Definition H0 : words :=
  Words 0x6a09e667 0xbb67ae85 0x3c6ef372 0xa54ff53a
        0x510e527f 0x9b05688c 0x1f83d9ab 0x5be0cd19.

(** The message with the padding bit, the zero bytes and the 64-bit
    length appended. *)
Fixpoint be_bytes (n : nat) (x : Z) : list Z :=
  match n with
  | O => []
  | S k => Z.land (Z.shiftr x (8 * Z.of_nat k)) 255 :: be_bytes k x
  end.

Definition pad (msg : list Z) : list Z :=
  let l := Z.of_nat (List.length msg) in
  let z := (55 - l) mod 64 in
  msg ++ [128] ++ repeat 0 (Z.to_nat z) ++ be_bytes 8 (8 * l).

Fixpoint be_words (fuel : nat) (bs : list Z) : list Z :=
  match fuel, bs with
  | S f, b0 :: b1 :: b2 :: b3 :: r =>
      (b0 * 16777216 + b1 * 65536 + b2 * 256 + b3) :: be_words f r
  | _, _ => []
  end.

(** The message schedule, most recent word first. *)
Fixpoint extend (n : nat) (rw : list Z) : list Z :=
  match n with
  | O => rw
  | S k =>
      let w := add32 (add32 (sigma1 (nth 1 rw 0)) (nth 6 rw 0))
                     (add32 (sigma0 (nth 14 rw 0)) (nth 15 rw 0)) in
      extend k (w :: rw)
  end.

Definition schedule (block : list Z) : list Z :=
  rev (extend 48 (rev (be_words 16 block))).

Definition round (s : words) (kw : Z * Z) : words :=
  let t1 := add32 (add32 (add32 (hh s) (Sigma1 (he s)))
                         (add32 (Ch (he s) (hf s) (hg s)) (fst kw))) (snd kw) in
  let t2 := add32 (Sigma0 (ha s)) (Maj (ha s) (hb s) (hc s)) in
  Words (add32 t1 t2) (ha s) (hb s) (hc s) (add32 (hd s) t1) (he s) (hf s) (hg s).

Definition compress (h : words) (block : list Z) : words :=
  let s := fold_left round (combine K (schedule block)) h in
  Words (add32 (ha h) (ha s)) (add32 (hb h) (hb s)) (add32 (hc h) (hc s))
        (add32 (hd h) (hd s)) (add32 (he h) (he s)) (add32 (hf h) (hf s))
        (add32 (hg h) (hg s)) (add32 (hh h) (hh s)).

Fixpoint blocks (fuel : nat) (h : words) (bs : list Z) : words :=
  match fuel, bs with
  | S f, _ :: _ => blocks f (compress h (firstn 64 bs)) (skipn 64 bs)
  | _, _ => h
  end.

Definition digest (msg : list Z) : words :=
  let p := pad msg in blocks (List.length p) H0 p.

Definition hex_digit (x : Z) : ascii :=
  if x <? 10 then ascii_of_nat (48 + Z.to_nat x) else ascii_of_nat (87 + Z.to_nat x).

Definition nibble (x : Z) (i : Z) : ascii := hex_digit (Z.land (Z.shiftr x (4 * i)) 15).

Definition hex8 (x : Z) (rest : string) : string :=
  String (nibble x 7) (String (nibble x 6) (String (nibble x 5) (String (nibble x 4)
  (String (nibble x 3) (String (nibble x 2) (String (nibble x 1) (String (nibble x 0)
  rest))))))).

Definition hex_of_words (s : words) : string :=
  hex8 (ha s) (hex8 (hb s) (hex8 (hc s) (hex8 (hd s)
  (hex8 (he s) (hex8 (hf s) (hex8 (hg s) (hex8 (hh s) EmptyString))))))).

Definition message_bytes (s : string) : list Z :=
  map (fun c => Z.of_nat (nat_of_ascii c)) (list_ascii_of_string s).

(** [hashlib.sha256(s.encode('utf-8')).hexdigest()] *)
Definition hexdigest (s : string) : string := hex_of_words (digest (message_bytes s)).

End SHA256.

(* ================================================================== *)
(** * Python values, dictionaries and exceptions *)
(* ================================================================== *)

Module Py.

(** A dictionary with [str] keys, in insertion order, without
    repeated keys. *)
Definition dict (V : Type) : Type := list (string * V).

Fixpoint dict_get {V} (k : string) (d : dict V) : option V :=
  match d with
  | [] => None
  | (k', v) :: r => if String.eqb k k' then Some v else dict_get k r
  end.

Definition dict_mem {V} (k : string) (d : dict V) : bool :=
  match dict_get k d with
  | Some _ => true
  | None => false
  end.

(** [d[k] = v]: an existing key keeps its place, a new one goes last. *)
Fixpoint dict_set {V} (k : string) (v : V) (d : dict V) : dict V :=
  match d with
  | [] => [(k, v)]
  | (k', v') :: r =>
      if String.eqb k k' then (k, v) :: r else (k', v') :: dict_set k v r
  end.

(** [{**a, **b}] *)
Definition dict_merge {V} (a b : dict V) : dict V :=
  fold_left (fun acc kv => dict_set (fst kv) (snd kv) acc) b a.

Definition keys {V} (d : dict V) : list string := map fst d.

(** The values the script handles: what [json.loads] produces, and
    what the script builds from it. *)
Inductive value :=
| VNone
| VBool (b : bool)
| VInt (z : Z)
| VFloat (x : spec_float)
| VStr (s : string)
| VList (l : list value)
| VDict (d : list (string * value)).

(** [bool(v)] *)
Definition truthy (v : value) : bool :=
  match v with
  | VNone => false
  | VBool b => b
  | VInt z => negb (z =? 0)%Z
  | VFloat x => negb (PyFloat.is_zero x)
  | VStr s => negb (String.eqb s "")
  | VList l => match l with [] => false | _ => true end
  | VDict d => match d with [] => false | _ => true end
  end.

(** [v == z] for an integer literal [z] of the script (0 or 1). *)
Definition eq_int (v : value) (z : Z) : bool :=
  match v with
  | VInt n => (n =? z)%Z
  | VBool b => ((if b then 1 else 0) =? z)%Z
  | VFloat x => PyFloat.eqb_Z x z
  | _ => false
  end.

Definition is_dict (v : value) : bool :=
  match v with VDict _ => true | _ => false end.

Definition is_str (v : value) : bool :=
  match v with VStr _ => true | _ => false end.

Definition is_list (v : value) : bool :=
  match v with VList _ => true | _ => false end.

(** [type(v).__name__] *)
Definition type_name (v : value) : string :=
  match v with
  | VNone => "NoneType"
  | VBool _ => "bool"
  | VInt _ => "int"
  | VFloat _ => "float"
  | VStr _ => "str"
  | VList _ => "list"
  | VDict _ => "dict"
  end.

(** What a statement can raise.  [Exception cls msg] is an instance of
    the class [cls], a subclass of [Exception], with [str(e) = msg];
    the other two derive from [BaseException] only, so that an
    [except Exception] clause lets them pass. *)
Inductive exn :=
| Exception (cls : string) (msg : string)
| KeyboardInterrupt
| SystemExit (code : Z).

Inductive res (A : Type) :=
| Ok (a : A)
| Raise (e : exn).
Arguments Ok {A} a.
Arguments Raise {A} e.

Definition is_Exception (e : exn) : bool :=
  match e with Exception _ _ => true | _ => false end.

(** [v.get(k)] and [v.get(k, default)]: only a dictionary has [get]. *)
Definition no_get (v : value) : exn :=
  Exception "AttributeError"
    ("'" ++ type_name v ++ "' object has no attribute 'get'").

Definition get (v : value) (k : string) (default : value) : res value :=
  match v with
  | VDict d => Ok (match dict_get k d with Some x => x | None => default end)
  | _ => Raise (no_get v)
  end.

End Py.

(* ================================================================== *)
(** * The [json] module: [loads], and [dumps] of a flat dictionary *)
(* ================================================================== *)

Module Json.

Import Py.
Local Open Scope Z_scope.

Definition code (c : ascii) : Z := Z.of_nat (nat_of_ascii c).
Definition chr (n : Z) : ascii := ascii_of_nat (Z.to_nat n).

(** ** UTF-8 *)

Definition utf8_encode (cp : Z) : string :=
  if cp <? 128 then String (chr cp) EmptyString
  else if cp <? 2048 then
    String (chr (192 + cp / 64)) (String (chr (128 + cp mod 64)) EmptyString)
  else if cp <? 65536 then
    String (chr (224 + cp / 4096))
      (String (chr (128 + (cp / 64) mod 64))
         (String (chr (128 + cp mod 64)) EmptyString))
  else
    String (chr (240 + cp / 262144))
      (String (chr (128 + (cp / 4096) mod 64))
         (String (chr (128 + (cp / 64) mod 64))
            (String (chr (128 + cp mod 64)) EmptyString))).

(** The code point of one UTF-8 character. *)
Definition utf8_decode (ch : string) : Z :=
  match ch with
  | EmptyString => 0
  | String c r =>
      let n := code c in
      let lead :=
        if n <? 128 then n
        else if n <? 224 then n mod 32
        else if n <? 240 then n mod 16
        else n mod 8 in
      fold_left (fun acc b => acc * 64 + code b mod 64) (list_ascii_of_string r) lead
  end.

(** ** Decoding *)

Definition is_ws (c : ascii) : bool :=
  let n := code c in (n =? 32) || (n =? 9) || (n =? 10) || (n =? 13).

Fixpoint skip_ws (s : string) : string :=
  match s with
  | String c r => if is_ws c then skip_ws r else s
  | EmptyString => s
  end.

Definition is_digit (c : ascii) : bool := (48 <=? code c) && (code c <=? 57).

Definition hex_val (c : ascii) : option Z :=
  let n := code c in
  if (48 <=? n) && (n <=? 57) then Some (n - 48)
  else if (97 <=? n) && (n <=? 102) then Some (n - 87)
  else if (65 <=? n) && (n <=? 70) then Some (n - 55)
  else None.

Definition hex4 (s : string) : option (Z * string) :=
  match s with
  | String a (String b (String c (String d r))) =>
      match hex_val a, hex_val b, hex_val c, hex_val d with
      | Some x, Some y, Some z, Some w => Some (((x * 16 + y) * 16 + z) * 16 + w, r)
      | _, _, _, _ => None
      end
  | _ => None
  end.

(** The character an escape letter stands for: quote, backslash,
    slash, and the letters b, f, n, r, t. *)
Definition simple_escape (c : ascii) : option ascii :=
  let n := code c in
  if n =? 34 then Some (chr 34)
  else if n =? 92 then Some (chr 92)
  else if n =? 47 then Some (chr 47)
  else if n =? 98 then Some (chr 8)
  else if n =? 102 then Some (chr 12)
  else if n =? 110 then Some (chr 10)
  else if n =? 114 then Some (chr 13)
  else if n =? 116 then Some (chr 9)
  else None.

Definition prepend (p : string) (r : option (string * string)) : option (string * string) :=
  match r with
  | Some (s, rest) => Some ((p ++ s)%string, rest)
  | None => None
  end.

(** The text of a string literal after its opening quote, and what
    follows the closing quote (strict mode: no raw control
    character). *)
Fixpoint scan_string (fuel : nat) (s : string) : option (string * string) :=
  match fuel, s with
  | S f, String c r =>
      let n := code c in
      if n =? 34 then Some (EmptyString, r)
      else if n =? 92 then
        match r with
        | EmptyString => None
        | String e r1 =>
            if code e =? 117 then
              match hex4 r1 with
              | None => None
              | Some (hi, r2) =>
                  if (55296 <=? hi) && (hi <=? 56319) then
                    match r2 with
                    | String b (String u r3) =>
                        if (code b =? 92) && (code u =? 117) then
                          match hex4 r3 with
                          | None => None
                          | Some (lo, r4) =>
                              if (56320 <=? lo) && (lo <=? 57343) then
                                prepend
                                  (utf8_encode (65536 + (hi - 55296) * 1024 + (lo - 56320)))
                                  (scan_string f r4)
                              else prepend (utf8_encode hi) (scan_string f r2)
                          end
                        else prepend (utf8_encode hi) (scan_string f r2)
                    | _ => prepend (utf8_encode hi) (scan_string f r2)
                    end
                  else prepend (utf8_encode hi) (scan_string f r2)
              end
            else
              match simple_escape e with
              | Some ch => prepend (String ch EmptyString) (scan_string f r1)
              | None => None
              end
        end
      else if n <? 32 then None
      else prepend (String c EmptyString) (scan_string f r)
  | _, _ => None
  end.

Fixpoint take_digits (s : string) : string * string :=
  match s with
  | String c r =>
      if is_digit c then let (d, rest) := take_digits r in (String c d, rest)
      else (EmptyString, s)
  | EmptyString => (EmptyString, EmptyString)
  end.

Definition digits_value (d : string) : Z :=
  fold_left (fun acc c => acc * 10 + (code c - 48)) (list_ascii_of_string d) 0.

(** The integer part of a number: [0], or a digit from 1 to 9 and any
    digits after it. *)
Definition take_int (s : string) : option (string * string) :=
  match s with
  | String c r =>
      if code c =? 48 then Some (String c EmptyString, r)
      else if is_digit c then Some (take_digits s)
      else None
  | EmptyString => None
  end.

Definition take_frac (s : string) : string * string :=
  match s with
  | String dot (String c _ as r) =>
      if (code dot =? 46) && is_digit c then take_digits r else (EmptyString, s)
  | _ => (EmptyString, s)
  end.

(** The exponent of a number, if any: its value and the rest. *)
Definition take_exp (s : string) : option Z * string :=
  match s with
  | String e r =>
      if (code e =? 101) || (code e =? 69) then
        let '(neg, r1) :=
          match r with
          | String sg r' =>
              if code sg =? 45 then (true, r')
              else if code sg =? 43 then (false, r')
              else (false, r)
          | EmptyString => (false, r)
          end in
        let (d, rest) := take_digits r1 in
        match d with
        | EmptyString => (None, s)
        | _ => (Some (if neg then - digits_value d else digits_value d), rest)
        end
      else (None, s)
  | EmptyString => (None, s)
  end.

Definition float_of_decimal (neg : bool) (d p : Z) : spec_float :=
  if d =? 0 then S754_zero neg
  else
    let x := PyFloat.of_decimal d p in
    if neg then SFopp x else x.

Definition scan_number (s : string) : option (value * string) :=
  let '(neg, s1) :=
    match s with
    | String c r => if code c =? 45 then (true, r) else (false, s)
    | EmptyString => (false, s)
    end in
  match take_int s1 with
  | None => None
  | Some (ip, s2) =>
      let (fp, s3) := take_frac s2 in
      let (ex, s4) := take_exp s3 in
      match fp, ex with
      | EmptyString, None =>
          Some (VInt (if neg then - digits_value ip else digits_value ip), s4)
      | _, _ =>
          let e := match ex with Some e => e | None => 0 end in
          Some (VFloat (float_of_decimal neg (digits_value (ip ++ fp))
                          (e - Z.of_nat (String.length fp))), s4)
      end
  end.

Definition literals : list (string * value) :=
  [("null", VNone); ("true", VBool true); ("false", VBool false);
   ("NaN", VFloat S754_nan); ("Infinity", VFloat (S754_infinity false));
   ("-Infinity", VFloat (S754_infinity true))].

Fixpoint scan_literal (l : list (string * value)) (s : string) : option (value * string) :=
  match l with
  | [] => None
  | (name, v) :: r =>
      if String.prefix name s
      then Some (v, String.substring (String.length name)
                      (String.length s - String.length name) s)
      else scan_literal r s
  end.

(** One JSON term at the start of [s], and the rest of [s]. *)
Fixpoint scan_once (fuel : nat) (s : string) : option (value * string) :=
  match fuel, s with
  | S f, String c r =>
      let n := code c in
      if n =? 34 then
        match scan_string (String.length r) r with
        | Some (t, rest) => Some (VStr t, rest)
        | None => None
        end
      else if n =? 123 then
        match skip_ws r with
        | String c' r' as s' =>
            if code c' =? 125 then Some (VDict [], r') else scan_members f s' []
        | EmptyString => None
        end
      else if n =? 91 then
        match skip_ws r with
        | String c' r' as s' =>
            if code c' =? 93 then Some (VList [], r') else scan_elems f s' []
        | EmptyString => None
        end
      else
        match scan_literal literals s with
        | Some x => Some x
        | None => scan_number s
        end
  | _, _ => None
  end

(** The members of an object from a key on, up to the closing brace. *)
with scan_members (fuel : nat) (s : string) (acc : dict value) : option (value * string) :=
  match fuel, s with
  | S f, String q r =>
      if code q =? 34 then
        match scan_string (String.length r) r with
        | None => None
        | Some (k, s1) =>
            match skip_ws s1 with
            | String colon s2 =>
                if code colon =? 58 then
                  match scan_once f (skip_ws s2) with
                  | None => None
                  | Some (v, s3) =>
                      let acc' := dict_set k v acc in
                      match skip_ws s3 with
                      | String c s4 =>
                          if code c =? 125 then Some (VDict acc', s4)
                          else if code c =? 44 then scan_members f (skip_ws s4) acc'
                          else None
                      | EmptyString => None
                      end
                  end
                else None
            | EmptyString => None
            end
        end
      else None
  | _, _ => None
  end

(** The elements of an array up to the closing bracket. *)
with scan_elems (fuel : nat) (s : string) (acc : list value) : option (value * string) :=
  match fuel with
  | S f =>
      match scan_once f s with
      | None => None
      | Some (v, s1) =>
          match skip_ws s1 with
          | String c s2 =>
              if code c =? 93 then Some (VList (acc ++ [v]), s2)
              else if code c =? 44 then scan_elems f (skip_ws s2) (acc ++ [v])
              else None
          | EmptyString => None
          end
      end
  | O => None
  end.

(** [json.loads(s)]: [None] stands for a raised [JSONDecodeError].
    Limits of the interpreter (recursion depth, length of integer
    literals) are not modelled. *)
Definition loads (s : string) : option value :=
  if String.prefix (PyStr.bytes [239; 187; 191]%nat) s then None
  else
    match scan_once (2 * String.length s + 2) (skip_ws s) with
    | Some (v, rest) =>
        match skip_ws rest with
        | EmptyString => Some v
        | _ => None
        end
    | None => None
    end.

(** ** Encoding *)

Definition hex4_text (n : Z) : string :=
  String (SHA256.nibble n 3) (String (SHA256.nibble n 2)
    (String (SHA256.nibble n 1) (String (SHA256.nibble n 0) EmptyString))).

Definition backslash (c : string) : string := String (chr 92) c.

(** The escape of one character, with [ensure_ascii]. *)
Definition escape_char (ch : string) : string :=
  let cp := utf8_decode ch in
  if cp =? 34 then backslash (String (chr 34) EmptyString)
  else if cp =? 92 then backslash (backslash EmptyString)
  else if cp =? 10 then backslash "n"
  else if cp =? 13 then backslash "r"
  else if cp =? 9 then backslash "t"
  else if cp =? 12 then backslash "f"
  else if cp =? 8 then backslash "b"
  else if (32 <=? cp) && (cp <=? 126) then ch
  else if cp <? 65536 then backslash ("u" ++ hex4_text cp)
  else
    let v := cp - 65536 in
    (backslash ("u" ++ hex4_text (55296 + v / 1024))
     ++ backslash ("u" ++ hex4_text (56320 + v mod 1024)))%string.

(** The JSON text of a string (a key or a string value). *)
Definition encode_str (s : string) : string :=
  (String (chr 34) EmptyString
   ++ PyStr.join (map escape_char (PyStr.chars s))
   ++ String (chr 34) EmptyString)%string.

(** The JSON text of a float ([allow_nan] is on by default). *)
Definition floatstr (x : spec_float) : string :=
  match x with
  | S754_nan => "NaN"
  | S754_infinity false => "Infinity"
  | S754_infinity true => "-Infinity"
  | _ => PyFloat.repr x
  end.

(** [sorted] on the items of a dictionary: by key. *)
Fixpoint insert_item {V} (x : string * V) (l : list (string * V)) : list (string * V) :=
  match l with
  | [] => [x]
  | y :: r => if PyStr.leb (fst x) (fst y) then x :: y :: r else y :: insert_item x r
  end.

Fixpoint sorted_items {V} (d : dict V) : list (string * V) :=
  match d with
  | [] => []
  | x :: r => insert_item x (sorted_items r)
  end.

Definition dumps_item (kv : string * spec_float) : string :=
  (encode_str (fst kv) ++ ":" ++ floatstr (snd kv))%string.

(** [json.dumps(d, sort_keys=True, separators=(',', ':'))] for a
    dictionary [d] from [str] to [float]. *)
Definition dumps_sorted (d : dict spec_float) : string :=
  ("{" ++ String.concat "," (map dumps_item (sorted_items d)) ++ "}")%string.

End Json.

(* ================================================================== *)
(** * The outside world and the monad of the script *)
(* ================================================================== *)

Module World.

Import Py.

(** ** Collaborators *)

(** What a call of a collaborator does: it returns, it raises an
    exception (an instance of a subclass of [Exception]), or the user
    interrupts the program while it waits. *)
Inductive answer (A : Type) :=
| Returns (a : A)
| Throws (cls : string) (msg : string)
| Interrupt.
Arguments Returns {A} a.
Arguments Throws {A} cls msg.
Arguments Interrupt {A}.

Definition to_res {A} (x : answer A) : res A :=
  match x with
  | Returns a => Ok a
  | Throws cls msg => Raise (Exception cls msg)
  | Interrupt => Raise KeyboardInterrupt
  end.

Definition interrupted {A} (x : answer A) : bool :=
  match x with Interrupt => true | _ => false end.

(** An HTTP request as the script issues it. *)
Record request := Request {
  url : string;
  headers : dict value;
  timeout : Z
}.

(** An [httpx.Response]: [json] is what [response.json()] does. *)
Record response := Response {
  status_code : Z;
  text : string;
  json : answer value
}.

(** The answers of one Playwright session, call by call. *)
Record browser := Browser {
  start : answer unit;             (* async_playwright(), TemporaryDirectory() *)
  launch : answer unit;            (* chromium.launch_persistent_context(...) *)
  new_page : answer unit;          (* context.new_page() *)
  goto : answer unit;              (* page.goto(...) *)
  wait_for_function : answer unit; (* page.wait_for_function(...) *)
  wait_for_timeout : answer unit;  (* page.wait_for_timeout(3000) *)
  cookies : answer (list value);   (* page.context.cookies() *)
  close : answer unit;             (* context.close() in the try block *)
  close_in_handler : answer unit;  (* context.close() in the except block *)
  stop : answer unit               (* leaving the two with blocks *)
}.

(** The answers the script gets while it processes one account. *)
Record session := Session {
  playwright : browser;
  client_new : answer unit;        (* httpx.Client(...) *)
  cookies_update : answer unit;    (* client.cookies.update(...) *)
  http_get : answer response;      (* client.get(...) *)
  http_post : answer response;     (* client.post(...) *)
  client_close : answer unit       (* client.close() *)
}.

(** The hash file: absent, present with a content, or present but
    not readable as text. *)
Inductive file_state :=
| NoFile
| File (content : string)
| Unreadable.

(** One entry of [account_results]. *)
Record account_result := AccountResult {
  name : value;
  success : bool;
  detail : string
}.

(** One entry of [balances_for_notification]. *)
Record balance_line := BalanceLine {
  line_name : value;
  line_quota : spec_float;
  line_used : spec_float
}.

(** What a notification is rendered from.  The Markdown layout of the
    message body and its time stamp are not modelled. *)
Record notification := Notification {
  sent_balances : list balance_line;
  sent_results : list account_result;
  sent_success_count : nat;
  sent_total_count : nat
}.

Record world := World {
  ANYROUTER_ACCOUNTS : option string;          (* os.getenv(...) *)
  sessions : nat -> session;                   (* by account index *)
  write_fault : option (string * file_state);  (* a failing write: its message, the file left behind *)
  push_message : answer unit                   (* notify.push_message(...) *)
}.

(** ** Effects *)

Inductive browser_call :=
| Start | Launch | NewPage | Goto (u : string) | WaitForFunction
| WaitForTimeout | Cookies | Close | Stop.

Inductive event :=
| EvBrowser (account_index : nat) (c : browser_call)
| EvClientNew (account_index : nat)
| EvCookiesUpdate (account_index : nat) (c : dict value)
| EvGet (account_index : nat) (r : request)
| EvPost (account_index : nat) (r : request)
| EvClientClose (account_index : nat)
| EvWriteFile (path : string) (content : string)
| EvNotify (title : string) (n : notification).

(** A computation of the script: what it returns or raises, and the
    calls of collaborators it made, in order. *)
Definition M (A : Type) : Type := (res A * list event)%type.

Definition ret {A} (a : A) : M A := (Ok a, []).

Definition raise {A} (e : exn) : M A := (Raise e, []).

Definition bind {A B} (m : M A) (k : A -> M B) : M B :=
  match m with
  | (Ok a, ev) => let (r, ev') := k a in (r, ev ++ ev')
  | (Raise e, ev) => (Raise e, ev)
  end.

Definition lift {A} (r : res A) : M A := (r, []).

(** A call of a collaborator: it is recorded, then it answers. *)
Definition call {A} (ev : event) (x : answer A) : M A := (to_res x, [ev]).

(** [try: body except Exception as e: handler(str(e))] *)
Definition try_except {A} (body : M A) (handler : string -> M A) : M A :=
  match body with
  | (Raise (Exception _ msg), ev) => let (r, ev') := handler msg in (r, ev ++ ev')
  | _ => body
  end.

(** [try: body except cls: handler] for one exception class *)
Definition try_except_class {A} (cls : string) (body : M A) (handler : M A) : M A :=
  match body with
  | (Raise (Exception c msg), ev) =>
      if String.eqb c cls then let (r, ev') := handler in (r, ev ++ ev') else body
  | _ => body
  end.

(** [try: body finally: fin], also the shape of a [with] block *)
Definition try_finally {A} (body : M A) (fin : M unit) : M A :=
  let (r, ev) := body in
  match fin with
  | (Ok _, ev') => (r, ev ++ ev')
  | (Raise e, ev') => (Raise e, ev ++ ev')
  end.

End World.

Declare Scope py_scope.
Delimit Scope py_scope with py.
Notation "x <- m ;; k" := (World.bind m (fun x => k))
  (at level 61, m at next level, right associativity) : py_scope.
Notation "m ;;; k" := (World.bind m (fun _ => k))
  (at level 61, right associativity) : py_scope.
Notation "' pat <- m ;; k" := (World.bind m (fun x => match x with pat => k end))
  (at level 61, pat pattern, m at next level, right associativity) : py_scope.

(* ================================================================== *)
(** * The script *)
(* ================================================================== *)

Module Checkin.

Import Py World.
Local Open Scope py_scope.

Definition BALANCE_HASH_FILE : string := "balance_hash.txt".

(** The two dictionaries [get_user_info] returns: a successful
    profile read, and a failed one. *)
Inductive user_info_t :=
| UserInfo (quota used_quota : spec_float) (display : string)
| UserInfoError (error : string).

(** An entry of [current_balances]. *)
Record balance := Balance {
  quota : spec_float;
  used : spec_float
}.

Definition format_balance_display (quota used : spec_float) : string :=
  ":money: Current balance" ++ PyStr.LF
  ++ "    • Remaining: $" ++ PyFloat.repr quota ++ PyStr.LF
  ++ "    • Used: $" ++ PyFloat.repr used.

(** ** [load_accounts] *)

(** The checks of the validation loop on one element. *)
Definition account_ok (account : value) : bool :=
  match account with
  | VDict d =>
      if negb (dict_mem "cookies" d) || negb (dict_mem "api_user" d) then false
      else
        match dict_get "name" d with
        | Some n => truthy n
        | None => true
        end
  | _ => false
  end.

Fixpoint accounts_ok (accounts_data : list value) : bool :=
  match accounts_data with
  | [] => true
  | account :: r => if account_ok account then accounts_ok r else false
  end.

Definition load_accounts (w : world) : option (list value) :=
  match ANYROUTER_ACCOUNTS w with
  | None => None
  | Some accounts_str =>
      if String.eqb accounts_str "" then None
      else
        match Json.loads accounts_str with
        | None => None
        | Some (VList accounts_data) =>
            if accounts_ok accounts_data then Some accounts_data else None
        | Some _ => None
        end
  end.

(** ** The balance hash *)

Definition load_balance_hash (file : file_state) : option string :=
  match file with
  | File content => Some (PyStr.strip content)
  | NoFile | Unreadable => None
  end.

(** The file after the call, and the call as an event; a failing
    write is reported on standard output only. *)
Definition save_balance_hash (w : world) (balance_hash : string) (file : file_state)
  : file_state * list event :=
  (match write_fault w with
   | None => File balance_hash
   | Some (_, left_behind) => left_behind
   end,
   [EvWriteFile BALANCE_HASH_FILE balance_hash]).

Definition generate_balance_hash (balances : option (dict balance)) : string :=
  let simple_balances : dict spec_float :=
    match balances with
    | Some ((_ :: _) as b) => map (fun kv => (fst kv, quota (snd kv))) b
    | _ => []
    end in
  let balance_json := Json.dumps_sorted simple_balances in
  PyStr.slice_to 16 (SHA256.hexdigest balance_json).

(** ** Accounts *)

Definition get_account_display_name (account_info : value) (account_index : nat)
  : res value :=
  get account_info "name" (VStr ("Account " ++ PyStr.of_Z (Z.of_nat account_index + 1))).

(** One turn of the loop of [parse_cookies]. *)
Definition parse_cookie_item (cookies_dict : res (dict value)) (cookie : string)
  : res (dict value) :=
  match cookies_dict with
  | Raise e => Raise e
  | Ok d =>
      if PyStr.contains "=" cookie then
        match PyStr.split1 "=" (PyStr.strip cookie) with
        | [key; v] => Ok (dict_set key (VStr v) d)
        | _ => Raise (Exception "ValueError"
                        "not enough values to unpack (expected 2, got 1)")
        end
      else Ok d
  end.

Definition parse_cookies (cookies_data : value) : res (dict value) :=
  match cookies_data with
  | VDict d => Ok d
  | VStr s => fold_left parse_cookie_item (PyStr.split ";" s) (Ok [])
  | _ => Ok []
  end.

(** ** [get_waf_cookies_with_playwright] *)

Definition required_cookies : list string := ["acw_tc"; "cdn_sec_tc"; "acw_sc__v2"].

Definition is_none (v : value) : bool :=
  match v with VNone => true | _ => false end.

(** The loop over the cookies of the browser context. *)
Fixpoint collect_waf (cookies : list value) (waf_cookies : dict value)
  : res (dict value) :=
  match cookies with
  | [] => Ok waf_cookies
  | cookie :: r =>
      match get cookie "name" VNone with
      | Raise e => Raise e
      | Ok cookie_name =>
          match get cookie "value" VNone with
          | Raise e => Raise e
          | Ok cookie_value =>
              match cookie_name with
              | VStr s =>
                  if existsb (String.eqb s) required_cookies
                     && negb (is_none cookie_value)
                  then collect_waf r (dict_set s cookie_value waf_cookies)
                  else collect_waf r waf_cookies
              | _ => collect_waf r waf_cookies
              end
          end
      end
  end.

Definition login_url : string := "https://anyrouter.top/login".

(** The try block of the function and its handler. *)
Definition harvest (b : browser) (i : nat) : M (option (dict value)) :=
  try_except
    (call (EvBrowser i (Goto login_url)) (goto b) ;;;
     try_except
       (call (EvBrowser i WaitForFunction) (wait_for_function b))
       (fun _ => call (EvBrowser i WaitForTimeout) (wait_for_timeout b)) ;;;
     cookies <- call (EvBrowser i Cookies) (cookies b) ;;
     waf_cookies <- lift (collect_waf cookies []) ;;
     let missing_cookies :=
       filter (fun c => negb (dict_mem c waf_cookies)) required_cookies in
     match missing_cookies with
     | _ :: _ =>
         call (EvBrowser i Close) (close b) ;;;
         ret None
     | [] =>
         call (EvBrowser i Close) (close b) ;;;
         ret (Some waf_cookies)
     end)
    (fun _ =>
       call (EvBrowser i Close) (close_in_handler b) ;;;
       ret None).

Definition get_waf_cookies_with_playwright (w : world) (i : nat)
  : M (option (dict value)) :=
  let b := playwright (sessions w i) in
  call (EvBrowser i Start) (start b) ;;;
  try_finally
    (call (EvBrowser i Launch) (launch b) ;;;
     call (EvBrowser i NewPage) (new_page b) ;;;
     harvest b i)
    (call (EvBrowser i Stop) (stop b)).

(** ** [get_user_info] *)

(** [v / d] for the integer literal [d] of the script. *)
Definition truediv (v : value) (d : Z) : res spec_float :=
  let int_div (z : Z) :=
    let x := PyFloat.of_ratio z d in
    if PyFloat.is_finite x then Ok x
    else Raise (Exception "OverflowError"
                  "integer division result too large for a float") in
  match v with
  | VInt z => int_div z
  | VBool b => int_div (if b then 1 else 0)%Z
  | VFloat x => Ok (PyFloat.div x (PyFloat.of_Z d))
  | _ => Raise (Exception "TypeError"
                  ("unsupported operand type(s) for /: '" ++ type_name v
                   ++ "' and 'int'"))
  end.

Definition user_url : string := "https://anyrouter.top/api/user/self".

(** [round(user_data.get(field, 0) / 500000, 2)] *)
Definition scaled (user_data : value) (field : string) : res spec_float :=
  match get user_data field (VInt 0) with
  | Raise e => Raise e
  | Ok raw =>
      match truediv raw 500000 with
      | Raise e => Raise e
      | Ok x => Ok (PyFloat.round x 2)
      end
  end.

Definition http_error (status : Z) : user_info_t :=
  UserInfoError ("Failed to get user info: HTTP " ++ PyStr.of_Z status).

Definition request_error (e : string) : user_info_t :=
  UserInfoError ("Failed to get user info: " ++ PyStr.slice_to 50 e ++ "...").

Definition get_user_info (w : world) (i : nat) (headers : dict value) : M user_info_t :=
  try_except
    (response <- call (EvGet i (Request user_url headers 30)) (http_get (sessions w i)) ;;
     if (status_code response =? 200)%Z then
       data <- lift (to_res (json response)) ;;
       ok <- lift (get data "success" VNone) ;;
       if truthy ok then
         user_data <- lift (get data "data" (VDict [])) ;;
         quota <- lift (scaled user_data "quota") ;;
         used_quota <- lift (scaled user_data "used_quota") ;;
         ret (UserInfo quota used_quota (format_balance_display quota used_quota))
       else ret (http_error (status_code response))
     else ret (http_error (status_code response)))
    (fun e => ret (request_error e)).

(** ** [check_in_account] *)

Definition user_agent : string :=
  "Mozilla/5.0 (Windows NT 10.0; Win64; x64) AppleWebKit/537.36 (KHTML, like Gecko) Chrome/138.0.0.0 Safari/537.36".

Definition request_headers (api_user : value) : dict value :=
  [("User-Agent", VStr user_agent);
   ("Accept", VStr "application/json, text/plain, */*");
   ("Accept-Language", VStr "zh-CN,zh;q=0.9,en;q=0.8");
   ("Accept-Encoding", VStr "gzip, deflate, br, zstd");
   ("Referer", VStr "https://anyrouter.top/console");
   ("Origin", VStr "https://anyrouter.top");
   ("Connection", VStr "keep-alive");
   ("Sec-Fetch-Dest", VStr "empty");
   ("Sec-Fetch-Mode", VStr "cors");
   ("Sec-Fetch-Site", VStr "same-origin");
   ("new-api-user", api_user)].

Definition checkin_headers (api_user : value) : dict value :=
  dict_merge (request_headers api_user)
    [("Content-Type", VStr "application/json");
     ("X-Requested-With", VStr "XMLHttpRequest")].

Definition sign_in_url : string := "https://anyrouter.top/api/user/sign_in".

(** [result.get('ret') == 1 or result.get('code') == 0 or
    result.get('success')], as a truth value. *)
Definition body_says_success (result : value) : res bool :=
  match get result "ret" VNone with
  | Raise e => Raise e
  | Ok r =>
      if eq_int r 1 then Ok true
      else
        match get result "code" VNone with
        | Raise e => Raise e
        | Ok c =>
            if eq_int c 0 then Ok true
            else
              match get result "success" VNone with
              | Raise e => Raise e
              | Ok s => Ok (truthy s)
              end
        end
  end.

(** What the function makes of the answer to the check-in request
    (the statement [if response.status_code == 200: ... else: ...]). *)
Definition read_checkin (response : response) (user_info : user_info_t)
  : M (bool * option user_info_t) :=
  if (status_code response =? 200)%Z then
    try_except_class "JSONDecodeError"
      (result <- lift (to_res (json response)) ;;
       ok <- lift (body_says_success result) ;;
       if ok then ret (true, Some user_info)
       else ret (false, Some user_info))
      (if PyStr.contains "success" (PyStr.lower (text response))
       then ret (true, Some user_info)
       else ret (false, Some user_info))
  else ret (false, Some user_info).

(** The try block of the function with its handler and its finally
    clause. *)
Definition session_calls (w : world) (i : nat) (api_user : value)
    (waf_cookies user_cookies : dict value) : M (bool * option user_info_t) :=
  try_finally
    (try_except
       (let all_cookies := dict_merge waf_cookies user_cookies in
        call (EvCookiesUpdate i all_cookies) (cookies_update (sessions w i)) ;;;
        let headers := request_headers api_user in
        user_info <- get_user_info w i headers ;;
        response <- call (EvPost i (Request sign_in_url (checkin_headers api_user) 30))
                      (http_post (sessions w i)) ;;
        read_checkin response user_info)
       (fun _ => ret (false, None)))
    (call (EvClientClose i) (client_close (sessions w i))).

Definition check_in_account (w : world) (account_info : value) (account_index : nat)
  : M (bool * option user_info_t) :=
  let i := account_index in
  account_name <- lift (get_account_display_name account_info account_index) ;;
  cookies_data <- lift (get account_info "cookies" (VDict [])) ;;
  api_user <- lift (get account_info "api_user" (VStr "")) ;;
  if negb (truthy api_user) then ret (false, None)
  else
    user_cookies <- lift (parse_cookies cookies_data) ;;
    match user_cookies with
    | [] => ret (false, None)
    | _ :: _ =>
        waf_cookies <- get_waf_cookies_with_playwright w i ;;
        match waf_cookies with
        | None | Some [] => ret (false, None)
        | Some ((_ :: _) as waf_cookies) =>
            call (EvClientNew i) (client_new (sessions w i)) ;;;
            session_calls w i api_user waf_cookies user_cookies
        end
    end.

(** ** [main] *)

(** The variables the loop over the accounts updates. *)
Record loop_state := LoopState {
  success_count : nat;
  account_results : list account_result;
  current_balances : dict balance;
  need_notify : bool
}.

Definition initial : loop_state := LoopState 0 [] [] false.

Definition account_key (i : nat) : string :=
  "account_" ++ PyStr.of_Z (Z.of_nat i + 1).

Definition detail_message (user_info : option user_info_t) : string :=
  match user_info with
  | Some (UserInfo current_quota current_used _) =>
      "剩余额度：`$" ++ PyFloat.repr current_quota
      ++ "` · 已使用：`$" ++ PyFloat.repr current_used ++ "`"
  | Some (UserInfoError error) => error
  | None => ""
  end.

Definition exception_detail (e : string) : string :=
  "异常：" ++ PyStr.slice_to 50 e ++ "...".

(** The body of the loop for the account at index [i]. *)
Definition process_account (w : world) (st : loop_state) (i : nat) (account : value)
  : M loop_state :=
  account_name <- lift (get_account_display_name account i) ;;
  try_except
    ('(success, user_info) <- check_in_account w account i ;;
     ret (LoopState
            (if success then S (success_count st) else success_count st)
            (account_results st
             ++ [AccountResult account_name success (detail_message user_info)])
            match user_info with
            | Some (UserInfo current_quota current_used _) =>
                dict_set (account_key i) (Balance current_quota current_used)
                  (current_balances st)
            | _ => current_balances st
            end
            (if negb success then true else need_notify st)))
    (fun e =>
       ret (LoopState
              (success_count st)
              (account_results st
               ++ [AccountResult account_name false (exception_detail e)])
              (current_balances st)
              true)).

Fixpoint account_loop (w : world) (accounts : list value) (i : nat) (st : loop_state)
  : M loop_state :=
  match accounts with
  | [] => ret st
  | account :: r =>
      st' <- process_account w st i account ;;
      account_loop w r (S i) st'
  end.

(** [generate_balance_hash(current_balances) if current_balances else None] *)
Definition current_balance_hash (st : loop_state) : option string :=
  match current_balances st with
  | [] => None
  | b => Some (generate_balance_hash (Some b))
  end.

(** The test [if current_balance_hash:]. *)
Definition hash_set (h : option string) : bool :=
  match h with
  | Some s => negb (String.eqb s "")
  | None => false
  end.

(** The balance check after the loop: the new values of
    [balance_changed] and [need_notify]. *)
Definition check_balance (last_balance_hash current : option string) (need_notify : bool)
  : bool * bool :=
  if hash_set current then
    match last_balance_hash with
    | None => (true, true)
    | Some last =>
        if negb (String.eqb (match current with Some c => c | None => "" end) last)
        then (true, true)
        else (false, need_notify)
    end
  else (false, need_notify).

Definition balance_changed (last : option string) (st : loop_state) : bool :=
  fst (check_balance last (current_balance_hash st) (need_notify st)).

Definition final_need_notify (last : option string) (st : loop_state) : bool :=
  snd (check_balance last (current_balance_hash st) (need_notify st)).

(** The loop that fills [balances_for_notification]. *)
Fixpoint balance_lines (accounts : list value) (i : nat) (current_balances : dict balance)
  : res (list balance_line) :=
  match accounts with
  | [] => Ok []
  | account :: r =>
      match dict_get (account_key i) current_balances with
      | Some b =>
          match get_account_display_name account i with
          | Raise e => Raise e
          | Ok account_name =>
              match balance_lines r (S i) current_balances with
              | Raise e => Raise e
              | Ok l => Ok (BalanceLine account_name (quota b) (used b) :: l)
              end
          end
      | None => balance_lines r (S i) current_balances
      end
  end.

Definition nonempty {A} (l : list A) : bool :=
  match l with [] => false | _ => true end.

Definition notification_title : string := "AnyRouter Check-in Alert".

(** What a run of [main] leaves: how it ended, the hash file, and the
    calls of collaborators it made. *)
Record run := Run {
  ended : exn;
  file_after : file_state;
  calls : list event
}.

(** [main] from the balance check on. *)
Definition after_loop (w : world) (accounts : list value) (last_balance_hash : option string)
    (st : loop_state) (file : file_state) (before : list event) : run :=
  let current := current_balance_hash st in
  let changed := balance_changed last_balance_hash st in
  let notify := final_need_notify last_balance_hash st in
  match (if changed then balance_lines accounts 0 (current_balances st) else Ok []) with
  | Raise e => Run e file before
  | Ok balances_for_notification =>
      let '(file', saved) :=
        match current with
        | Some h => if hash_set current then save_balance_hash w h file else (file, [])
        | None => (file, [])
        end in
      let '(r, sent) :=
        if notify && (nonempty (account_results st) || nonempty balances_for_notification)
        then call (EvNotify notification_title
                     (Notification balances_for_notification (account_results st)
                        (success_count st) (List.length accounts)))
                  (push_message w)
        else ret tt in
      match r with
      | Raise e => Run e file' (before ++ saved ++ sent)
      | Ok _ =>
          Run (SystemExit (if (0 <? success_count st)%nat then 0 else 1)%Z)
              file' (before ++ saved ++ sent)
      end
  end.

Definition main (w : world) (file : file_state) : run :=
  match load_accounts w with
  | None | Some [] => Run (SystemExit 1) file []
  | Some ((_ :: _) as accounts) =>
      let last_balance_hash := load_balance_hash file in
      match account_loop w accounts 0 initial with
      | (Raise e, ev) => Run e file ev
      | (Ok st, ev) => after_loop w accounts last_balance_hash st file ev
      end
  end.

(** The exit code of the process and what the run left. *)
Definition run_main (w : world) (file : file_state) : Z * run :=
  let r := main w file in
  (match ended r with
   | SystemExit code => code
   | KeyboardInterrupt => 1
   | Exception _ _ => 1
   end%Z, r).

End Checkin.

(* ================================================================== *)
(** * Facts about the order on strings and about [sorted] *)
(* ================================================================== *)

Module SortFacts.

Import Py Json.

Lemma compare_refl (s : string) : String.compare s s = Eq.
Proof.
  induction s as [|c s IH]; simpl; [reflexivity|].
  unfold Ascii.compare. rewrite N.compare_refl. exact IH.
Qed.

Lemma compare_lt_trans (a b c : string) :
  String.compare a b = Lt -> String.compare b c = Lt -> String.compare a c = Lt.
Proof.
  revert b c.
  induction a as [|x a IH]; intros [|y b] [|z c]; simpl; try discriminate; auto.
  unfold Ascii.compare.
  destruct (N.compare_spec (N_of_ascii x) (N_of_ascii y)) as [Hxy|Hxy|Hxy];
    destruct (N.compare_spec (N_of_ascii y) (N_of_ascii z)) as [Hyz|Hyz|Hyz];
    try discriminate; intros H1 H2.
  - rewrite Hxy, Hyz, N.compare_refl. eauto.
  - rewrite Hxy. apply N.compare_lt_iff in Hyz. rewrite Hyz. reflexivity.
  - rewrite <- Hyz. apply N.compare_lt_iff in Hxy. rewrite Hxy. reflexivity.
  - assert (H : (N_of_ascii x < N_of_ascii z)%N) by (eapply N.lt_trans; eauto).
    apply N.compare_lt_iff in H. rewrite H. reflexivity.
Qed.

Lemma leb_cases (a b : string) :
  PyStr.leb a b = true <-> String.compare a b = Lt \/ a = b.
Proof.
  unfold PyStr.leb, String.leb. split.
  - destruct (String.compare a b) eqn:E; intros H; try discriminate.
    + right. apply String.compare_eq_iff. exact E.
    + left. reflexivity.
  - intros [H | H].
    + rewrite H. reflexivity.
    + subst. rewrite compare_refl. reflexivity.
Qed.

Lemma leb_trans (a b c : string) :
  PyStr.leb a b = true -> PyStr.leb b c = true -> PyStr.leb a c = true.
Proof.
  rewrite !leb_cases. intros [H1 | H1] [H2 | H2]; subst; auto.
  left. eapply compare_lt_trans; eauto.
Qed.

Lemma leb_refl (a : string) : PyStr.leb a a = true.
Proof. apply leb_cases. right. reflexivity. Qed.

Section Items.

Variable V : Type.

Definition le_key (x y : string * V) : Prop := PyStr.leb (fst x) (fst y) = true.

Lemma insert_item_perm (x : string * V) (l : list (string * V)) :
  Permutation (insert_item x l) (x :: l).
Proof.
  induction l as [|y l IH]; simpl; [reflexivity|].
  destruct (PyStr.leb (fst x) (fst y)); [reflexivity|].
  rewrite IH. apply perm_swap.
Qed.

Lemma sorted_items_perm (d : list (string * V)) : Permutation (sorted_items d) d.
Proof.
  induction d as [|x d IH]; simpl; [reflexivity|].
  rewrite insert_item_perm. constructor. exact IH.
Qed.

Lemma insert_item_sorted (x : string * V) (l : list (string * V)) :
  StronglySorted le_key l -> StronglySorted le_key (insert_item x l).
Proof.
  induction 1 as [|y l Hs IH Hall]; simpl.
  - repeat constructor.
  - destruct (PyStr.leb (fst x) (fst y)) eqn:E.
    + constructor; [constructor; assumption|].
      constructor; [exact E|].
      eapply Forall_impl; [|exact Hall].
      intros z Hz. unfold le_key in *. eapply leb_trans; eauto.
    + constructor; [exact IH|].
      assert (Hyx : le_key y x).
      { unfold le_key. destruct (String.leb_total (fst x) (fst y)) as [H|H];
          unfold PyStr.leb in *; congruence. }
      eapply Permutation_Forall; [symmetry; apply insert_item_perm|].
      constructor; assumption.
Qed.

Lemma sorted_items_sorted (d : list (string * V)) :
  StronglySorted le_key (sorted_items d).
Proof.
  induction d as [|x d IH]; simpl; [constructor|].
  apply insert_item_sorted. exact IH.
Qed.

(** Two sorted lists with the same elements and no repeated key are
    the same list. *)
Lemma sorted_unique (l1 l2 : list (string * V)) :
  StronglySorted le_key l1 -> StronglySorted le_key l2 ->
  NoDup (map fst l1) -> Permutation l1 l2 -> l1 = l2.
Proof.
  intros H1. revert l2.
  induction H1 as [|a l1 Hs1 IH Hall1]; intros l2 H2 Hnd Hp.
  - apply Permutation_nil in Hp. subst. reflexivity.
  - destruct H2 as [|b l2 Hs2 Hall2].
    + symmetry in Hp. apply Permutation_nil in Hp. discriminate.
    + assert (Hab : a = b).
      { assert (Ha : In a (b :: l2)) by (eapply Permutation_in; [exact Hp|left; reflexivity]).
        assert (Hb : In b (a :: l1))
          by (eapply Permutation_in; [symmetry; exact Hp|left; reflexivity]).
        destruct Ha as [Ha | Ha]; [congruence|].
        destruct Hb as [Hb | Hb]; [congruence|].
        rewrite Forall_forall in Hall1, Hall2.
        assert (Hk : fst a = fst b)
          by (apply String.leb_antisym; [apply (Hall1 _ Hb) | apply (Hall2 _ Ha)]).
        inversion Hnd as [|? ? Hnotin _]; subst.
        exfalso. apply Hnotin. rewrite Hk. apply in_map. exact Hb. }
      subst b. f_equal.
      apply IH; [exact Hs2 | inversion Hnd; assumption |].
      eapply Permutation_cons_inv. exact Hp.
Qed.

Lemma sorted_items_permutation (d1 d2 : list (string * V)) :
  NoDup (map fst d1) -> Permutation d1 d2 -> sorted_items d1 = sorted_items d2.
Proof.
  intros Hnd Hp.
  apply sorted_unique; try apply sorted_items_sorted.
  - eapply Permutation_NoDup; [|exact Hnd].
    apply Permutation_map. symmetry. apply sorted_items_perm.
  - rewrite !sorted_items_perm. exact Hp.
Qed.

End Items.

End SortFacts.

(* ================================================================== *)
(** * Concrete inputs used by the examples *)
(* ================================================================== *)

Module Scenarios.

Import Py World Checkin.

(** JSON texts are written with an apostrophe where the text has a
    double quote. *)
Fixpoint double_quotes (s : string) : string :=
  match s with
  | EmptyString => EmptyString
  | String c r =>
      String (if Ascii.eqb c "'" then PyStr.DQUOTE else c) (double_quotes r)
  end.

Definition cookie (n v : string) : value := VDict [("name", VStr n); ("value", VStr v)].

Definition three_cookies : list value :=
  [cookie "acw_tc" "t1"; cookie "cdn_sec_tc" "t2"; cookie "acw_sc__v2" "t3"].

(** A browser session in which every call returns and the login page
    sets the three cookies. *)
Definition browser_ok : browser :=
  Browser (Returns tt) (Returns tt) (Returns tt) (Returns tt) (Returns tt)
    (Returns tt) (Returns three_cookies) (Returns tt) (Returns tt) (Returns tt).

(** A browser that cannot be launched. *)
Definition browser_broken : browser :=
  Browser (Returns tt) (Throws "Error" "Executable doesn't exist") (Returns tt)
    (Returns tt) (Returns tt) (Returns tt) (Returns three_cookies) (Returns tt)
    (Returns tt) (Returns tt).

Definition session_of (b : browser) (profile checkin : answer response) : session :=
  Session b (Returns tt) (Returns tt) profile checkin (Returns tt).

(** A profile answer with the given raw quota values. *)
Definition profile_ok (raw_quota raw_used : Z) : response :=
  Response 200 ""
    (Returns (VDict [("success", VBool true);
                     ("data", VDict [("quota", VInt raw_quota);
                                     ("used_quota", VInt raw_used)])])).

Definition profile_down : response :=
  Response 500 "Internal Server Error" (Throws "JSONDecodeError" "Expecting value").

Definition checkin_ok : response :=
  Response 200 "" (Returns (VDict [("ret", VInt 1)])).

Definition one_account : string :=
  double_quotes "[{'cookies': 'session=abc', 'api_user': '1001'}]".

Definition two_accounts : string :=
  double_quotes
    "[{'cookies': 'session=abc', 'api_user': '1001'}, {'name': 'spare', 'cookies': {'session': 'xyz'}, 'api_user': '1002'}]".

(** One account; the profile read fails, the check-in succeeds. *)
Definition world_no_balance : world :=
  World (Some one_account)
    (fun _ => session_of browser_ok (Returns profile_down) (Returns checkin_ok))
    None (Returns tt).

(** Two accounts: the browser of the first cannot be launched, the
    second checks in and reads its balance. *)
Definition world_mixed : world :=
  World (Some two_accounts)
    (fun i =>
       match i with
       | O => session_of browser_broken (Returns profile_down) (Returns checkin_ok)
       | _ => session_of browser_ok (Returns (profile_ok 12345678 7500)) (Returns checkin_ok)
       end)
    None (Returns tt).

(** One account whose [api_user] is the empty string. *)
Definition world_empty_api_user : world :=
  World (Some (double_quotes "[{'cookies': 'session=abc', 'api_user': ''}]"))
    (fun _ => session_of browser_ok (Returns (profile_ok 0 0)) (Returns checkin_ok))
    None (Returns tt).

(** A profile request that fails with a message of 60 characters. *)
Definition long_message : string :=
  "012345678901234567890123456789012345678901234567890123456789".

Definition world_get_fails : world :=
  World (Some one_account)
    (fun _ => session_of browser_ok (Throws "ConnectError" long_message) (Returns checkin_ok))
    None (Returns tt).

(** Two accounts: [httpx.Client(...)] raises for the first, with a
    message of 60 characters; the second checks in and reads its
    balance. *)
Definition world_client_fails : world :=
  World (Some two_accounts)
    (fun i =>
       match i with
       | O => Session browser_ok (Throws "RuntimeError" long_message) (Returns tt)
                (Returns profile_down) (Returns checkin_ok) (Returns tt)
       | _ => session_of browser_ok (Returns (profile_ok 12345678 7500)) (Returns checkin_ok)
       end)
    None (Returns tt).

Definition old_hash : string := "0123456789abcdef".

Definition balances_1 : dict balance :=
  [("account_1", Balance (PyFloat.of_Z 10) (PyFloat.of_Z 1));
   ("account_2", Balance (PyFloat.of_ratio 5 2) (PyFloat.of_ratio 1 2))].

Definition balances_2 : dict balance :=
  [("account_2", Balance (PyFloat.of_ratio 5 2) (PyFloat.of_Z 9));
   ("account_1", Balance (PyFloat.of_Z 10) (PyFloat.of_Z 3))].

End Scenarios.

(* ================================================================== *)
(** * Facts about characters and slices *)
(* ================================================================== *)

Module StrFacts.

Import PyStr.

Lemma append_empty (s : string) : (s ++ "")%string = s.
Proof. induction s as [|c s IH]; simpl; [reflexivity | rewrite IH; reflexivity]. Qed.

Lemma join_cons (h : string) (t : list string) : join (h :: t) = (h ++ join t)%string.
Proof.
  unfold join. destruct t as [|h' t]; simpl; [rewrite append_empty|]; reflexivity.
Qed.

Lemma chars_cons (c : ascii) (r : string) :
  exists x t, chars (String c r) = String c x :: t.
Proof.
  simpl. destruct (chars r) as [|h t].
  - exists EmptyString, []. reflexivity.
  - destruct (starts_with_continuation r).
    + exists h, t. reflexivity.
    + exists EmptyString, (h :: t). reflexivity.
Qed.

Lemma slice_to_cons (n : nat) (c : ascii) (r : string) :
  exists y, slice_to (S n) (String c r) = String c y.
Proof.
  destruct (chars_cons c r) as [x [t E]].
  unfold slice_to. rewrite E. cbn [firstn]. rewrite join_cons. simpl. eauto.
Qed.

(** A character is a byte followed by continuation bytes; a character
    that is not the first of its string starts with a byte that is
    not a continuation byte. *)
Fixpoint all_continuation (s : string) : bool :=
  match s with
  | EmptyString => true
  | String c r => is_continuation c && all_continuation r
  end.

Definition is_char (first : bool) (ch : string) : bool :=
  match ch with
  | EmptyString => false
  | String c r => all_continuation r && (first || negb (is_continuation c))
  end.

Definition char_list (l : list string) : Prop :=
  match l with
  | [] => True
  | h :: t => is_char true h = true /\ Forall (fun ch => is_char false ch = true) t
  end.

Lemma is_char_first (ch : string) : is_char false ch = true -> is_char true ch = true.
Proof.
  destruct ch as [|c r]; simpl; [discriminate|].
  rewrite !andb_true_iff. tauto.
Qed.

Lemma chars_char_list (s : string) : char_list (chars s).
Proof.
  induction s as [|c r IH]; [exact I|].
  destruct (chars_cons c r) as [x [t E]].
  simpl in *. destruct (chars r) as [|h t'] eqn:Er.
  - simpl. auto.
  - destruct IH as [Hh Ht].
    destruct r as [|c' r']; [discriminate|].
    destruct (chars_cons c' r') as [x' [t'' E']]. rewrite Er in E'.
    inversion E'; subst. simpl starts_with_continuation.
    simpl in Hh. apply andb_true_iff in Hh. destruct Hh as [Hh _].
    destruct (is_continuation c') eqn:Ec.
    + split; [|exact Ht]. simpl. rewrite Ec, Hh. reflexivity.
    + split; [reflexivity|]. constructor; [|exact Ht].
      simpl. rewrite Ec, Hh. reflexivity.
Qed.

Lemma chars_append_char (c : ascii) (r rest : string) :
  all_continuation r = true -> starts_with_continuation rest = false ->
  chars (String c r ++ rest) = String c r :: chars rest.
Proof.
  revert c. induction r as [|c' r' IH]; intros c Hr Hrest.
  - simpl. destruct (chars rest) eqn:E; [reflexivity|].
    rewrite Hrest. reflexivity.
  - simpl in Hr. apply andb_true_iff in Hr. destruct Hr as [Hc' Hr'].
    change (String c (String c' r') ++ rest)%string
      with (String c (String c' r' ++ rest)).
    cbn [chars]. rewrite (IH c' Hr' Hrest).
    simpl. rewrite Hc'. reflexivity.
Qed.

Lemma chars_join (l : list string) : char_list l -> chars (join l) = l.
Proof.
  induction l as [|h t IH]; [reflexivity|].
  intros [Hh Ht]. rewrite join_cons.
  destruct h as [|c r]; [discriminate|].
  simpl in Hh. apply andb_true_iff in Hh. destruct Hh as [Hh _].
  assert (Hcl : char_list t).
  { destruct t as [|h' t']; [exact I|].
    inversion Ht; subst. split; [apply is_char_first; assumption | assumption]. }
  rewrite chars_append_char; [rewrite (IH Hcl); reflexivity | exact Hh |].
  destruct t as [|h' t']; [reflexivity|].
  inversion Ht as [|? ? Hh' _]; subst. rewrite join_cons.
  destruct h' as [|c' r']; [discriminate|].
  simpl in *. apply andb_true_iff in Hh'. destruct Hh' as [_ Hc'].
  destruct (is_continuation c'); [discriminate | reflexivity].
Qed.

Lemma char_list_firstn (n : nat) (l : list string) : char_list l -> char_list (firstn n l).
Proof.
  destruct n as [|n]; [intros _; exact I|].
  destruct l as [|h t]; [intros _; exact I|].
  intros [Hh Ht]. split; [exact Hh|].
  apply Forall_forall. intros x Hx. rewrite Forall_forall in Ht. apply Ht.
  rewrite <- (firstn_skipn n t). apply in_or_app. left. exact Hx.
Qed.

(** [len(s[:n]) <= n] *)
Lemma len_slice_to (n : nat) (s : string) : len (slice_to n s) <= n.
Proof.
  unfold len, slice_to.
  rewrite chars_join by (apply char_list_firstn, chars_char_list).
  rewrite length_firstn. apply Nat.le_min_l.
Qed.

(** [s[:n]] is a prefix of [s]. *)
Lemma join_chars (s : string) : join (chars s) = s.
Proof.
  induction s as [|c r IH]; [reflexivity|].
  simpl. destruct (chars r) as [|h t] eqn:E.
  - simpl in IH. subst. reflexivity.
  - destruct (starts_with_continuation r).
    + rewrite join_cons in *. simpl. rewrite IH. reflexivity.
    + rewrite join_cons. simpl. rewrite IH. reflexivity.
Qed.

End StrFacts.

(* ================================================================== *)
(** * The balance hash *)
(* ================================================================== *)

Module HashFacts.

Import Py World Checkin.

Lemma dict_get_In {V} (d : dict V) (k : string) (v : V) :
  NoDup (keys d) -> (dict_get k d = Some v <-> In (k, v) d).
Proof.
  induction d as [|[k' v'] d IH]; simpl; intros Hnd.
  - split; [discriminate | contradiction].
  - inversion Hnd as [|? ? Hnotin Hnd']; subst.
    destruct (String.eqb_spec k k') as [-> | Hne].
    + split.
      * intros H. left. congruence.
      * intros [H | H]; [congruence|].
        exfalso. apply Hnotin. change k' with (fst (k', v)). apply in_map. exact H.
    + rewrite (IH Hnd'). split; [tauto|].
      intros [H | H]; [congruence | exact H].
Qed.

Definition quota_item (kv : string * balance) : string * spec_float :=
  (fst kv, quota (snd kv)).

Lemma quota_item_keys (b : dict balance) : map fst (map quota_item b) = keys b.
Proof. unfold keys. rewrite map_map. reflexivity. Qed.

Lemma In_quota_items (b : dict balance) (k : string) (q : spec_float) :
  NoDup (keys b) ->
  (In (k, q) (map quota_item b) <-> option_map quota (dict_get k b) = Some q).
Proof.
  intros Hnd. rewrite in_map_iff. split.
  - intros [[k' v] [Heq Hin]]. unfold quota_item in Heq. simpl in Heq.
    inversion Heq; subst.
    apply (dict_get_In b k v Hnd) in Hin. rewrite Hin. reflexivity.
  - destruct (dict_get k b) as [v|] eqn:E; simpl; [|discriminate].
    intros H. inversion H; subst.
    exists (k, v). split; [reflexivity|].
    apply (dict_get_In b k v Hnd). exact E.
Qed.

Lemma generate_balance_hash_some (b : dict balance) :
  generate_balance_hash (Some b)
  = PyStr.slice_to 16 (SHA256.hexdigest (Json.dumps_sorted (map quota_item b))).
Proof. destruct b; reflexivity. Qed.

(** C3.  Two balance mappings that give the same quota to the same
    account keys have the same hash, whatever their used-quota values
    and whatever the order in which their keys were inserted. *)
Theorem balance_hash_depends_on_quotas_only (B1 B2 : dict balance) :
  NoDup (keys B1) -> NoDup (keys B2) ->
  (forall k, option_map quota (dict_get k B1) = option_map quota (dict_get k B2)) ->
  generate_balance_hash (Some B1) = generate_balance_hash (Some B2).
Proof.
  intros Hnd1 Hnd2 Hq.
  rewrite !generate_balance_hash_some.
  unfold Json.dumps_sorted.
  rewrite (SortFacts.sorted_items_permutation _ (map quota_item B1) (map quota_item B2)).
  - reflexivity.
  - rewrite quota_item_keys. exact Hnd1.
  - apply NoDup_Permutation.
    + apply (NoDup_map_inv fst). rewrite quota_item_keys. exact Hnd1.
    + apply (NoDup_map_inv fst). rewrite quota_item_keys. exact Hnd2.
    + intros [k q]. rewrite (In_quota_items B1 k q Hnd1), (In_quota_items B2 k q Hnd2).
      rewrite Hq. reflexivity.
Qed.

Lemma balance_hash_depends_on_quotas_only_witness :
  generate_balance_hash (Some Scenarios.balances_1)
  = generate_balance_hash (Some Scenarios.balances_2).
Proof.
  apply (balance_hash_depends_on_quotas_only Scenarios.balances_1 Scenarios.balances_2).
  - repeat constructor; simpl; intuition discriminate.
  - repeat constructor; simpl; intuition discriminate.
  - intros k. simpl.
    destruct (String.eqb k "account_1") eqn:E1, (String.eqb k "account_2") eqn:E2;
      try reflexivity.
    apply String.eqb_eq in E1, E2. subst. discriminate.
Defined.

(** The hash the script compares and stores is never the empty
    string. *)
Lemma generate_balance_hash_not_empty (b : option (dict balance)) :
  String.eqb (generate_balance_hash b) "" = false.
Proof.
  unfold generate_balance_hash, SHA256.hexdigest, SHA256.hex_of_words.
  unfold SHA256.hex8 at 1.
  match goal with
  | |- context [PyStr.slice_to 16 (String ?c ?r)] =>
      destruct (StrFacts.slice_to_cons 15 c r) as [y E]; rewrite E
  end.
  reflexivity.
Qed.

Lemma hash_set_current (st : loop_state) (h : string) :
  current_balance_hash st = Some h -> hash_set (Some h) = true.
Proof.
  unfold current_balance_hash. destruct (current_balances st); [discriminate|].
  intros H. inversion H. simpl.
  rewrite generate_balance_hash_not_empty. reflexivity.
Qed.

End HashFacts.

(* ================================================================== *)
(** * Reasoning about computations of the script *)
(* ================================================================== *)

Module MonadFacts.

Import Py World.

Lemma bind_ok {A B} (a : A) (ev : list event) (k : A -> M B) :
  bind (Ok a, ev) k = (fst (k a), ev ++ snd (k a)).
Proof. unfold bind. destruct (k a). reflexivity. Qed.

Lemma bind_raise {A B} (e : exn) (ev : list event) (k : A -> M B) :
  bind (Raise e, ev) k = (Raise e, ev).
Proof. reflexivity. Qed.

Lemma bind_lift_ok {A B} (a : A) (k : A -> M B) : bind (lift (Ok a)) k = k a.
Proof. unfold lift. rewrite bind_ok. destruct (k a). reflexivity. Qed.

Lemma bind_lift_raise {A B} (e : exn) (k : A -> M B) :
  bind (lift (Raise e)) k = (Raise e, []).
Proof. reflexivity. Qed.

(** ** The calls a computation makes *)

Definition only (P : event -> Prop) {A} (m : M A) : Prop := Forall P (snd m).

Section Only.

Variable P : event -> Prop.

Lemma only_ret {A} (a : A) : only P (ret a).
Proof. constructor. Qed.

Lemma only_raise {A} (e : exn) : only P (@raise A e).
Proof. constructor. Qed.

Lemma only_lift {A} (r : res A) : only P (lift r).
Proof. constructor. Qed.

Lemma only_call {A} (ev : event) (x : answer A) : P ev -> only P (call ev x).
Proof. intros H. repeat constructor. exact H. Qed.

Lemma only_bind {A B} (m : M A) (k : A -> M B) :
  only P m -> (forall a, only P (k a)) -> only P (bind m k).
Proof.
  unfold only. destruct m as [[a|e] ev]; simpl; intros Hm Hk; [|exact Hm].
  specialize (Hk a). destruct (k a) as [r ev']. simpl in *.
  apply Forall_app. split; assumption.
Qed.

Lemma only_try_except {A} (body : M A) (handler : string -> M A) :
  only P body -> (forall e, only P (handler e)) -> only P (try_except body handler).
Proof.
  unfold only, try_except. destruct body as [[a|[cls msg| |c]] ev]; simpl; intros Hb Hh;
    try exact Hb.
  specialize (Hh msg). destruct (handler msg) as [r ev']. simpl in *.
  apply Forall_app. split; assumption.
Qed.

Lemma only_try_except_class {A} (cls : string) (body handler : M A) :
  only P body -> only P handler -> only P (try_except_class cls body handler).
Proof.
  unfold only, try_except_class. destruct body as [[a|[c msg| |c]] ev]; simpl;
    intros Hb Hh; try exact Hb.
  destruct (String.eqb c cls); [|exact Hb].
  destruct handler as [r ev']. simpl in *.
  apply Forall_app. split; assumption.
Qed.

Lemma only_try_finally {A} (body : M A) (fin : M unit) :
  only P body -> only P fin -> only P (try_finally body fin).
Proof.
  unfold only, try_finally. destruct body as [r ev], fin as [[u|e] ev']; simpl;
    intros Hb Hf; apply Forall_app; split; assumption.
Qed.

End Only.

(** ** What a computation can raise *)

(** The exception, if any, is an instance of [Exception]. *)
Definition mild {A} (r : res A) : Prop :=
  match r with
  | Raise KeyboardInterrupt | Raise (SystemExit _) => False
  | _ => True
  end.

Definition calm {A} (m : M A) : Prop := mild (fst m).

Lemma calm_ret {A} (a : A) : calm (ret a).
Proof. exact I. Qed.

Lemma calm_lift {A} (r : res A) : mild r -> calm (lift r).
Proof. intros H. exact H. Qed.

Lemma calm_call {A} (ev : event) (x : answer A) :
  interrupted x = false -> calm (call ev x).
Proof. destruct x; simpl; intros H; [exact I | exact I | discriminate]. Qed.

Lemma calm_bind {A B} (m : M A) (k : A -> M B) :
  calm m -> (forall a, fst m = Ok a -> calm (k a)) -> calm (bind m k).
Proof.
  unfold calm. destruct m as [[a|e] ev]; simpl; intros Hm Hk; [|exact Hm].
  specialize (Hk a eq_refl). destruct (k a) as [r ev']. exact Hk.
Qed.

Lemma calm_try_except {A} (body : M A) (handler : string -> M A) :
  calm body -> (forall e, calm (handler e)) -> calm (try_except body handler).
Proof.
  unfold calm, try_except. destruct body as [[a|[cls msg| |c]] ev]; simpl; intros Hb Hh;
    try exact Hb.
  specialize (Hh msg). destruct (handler msg) as [r ev']. exact Hh.
Qed.

Lemma calm_try_except_class {A} (cls : string) (body handler : M A) :
  calm body -> calm handler -> calm (try_except_class cls body handler).
Proof.
  unfold calm, try_except_class. destruct body as [[a|[c msg| |c]] ev]; simpl;
    intros Hb Hh; try exact Hb.
  destruct (String.eqb c cls); [|exact I].
  destruct handler as [r ev']. exact Hh.
Qed.

Lemma calm_try_finally {A} (body : M A) (fin : M unit) :
  calm body -> calm fin -> calm (try_finally body fin).
Proof.
  unfold calm, try_finally. destruct body as [r ev], fin as [[u|e] ev']; simpl;
    intros Hb Hf; assumption.
Qed.

(** A handler for [Exception] leaves no [Exception] behind. *)
Lemma try_except_total {A} (body : M A) (handler : string -> M A) :
  calm body -> (forall e, exists a, fst (handler e) = Ok a) ->
  exists a, fst (try_except body handler) = Ok a.
Proof.
  unfold calm, try_except. destruct body as [[a|[cls msg| |c]] ev]; simpl;
    intros Hb Hh; try contradiction.
  - eauto.
  - destruct (Hh msg) as [a Ha]. destruct (handler msg) as [r ev']. eauto.
Qed.

End MonadFacts.

(* ================================================================== *)
(** * The profile fetch *)
(* ================================================================== *)

Module ProfileFacts.

Import Py World Checkin MonadFacts.

(** The request was answered, and [response.json()] was not
    interrupted. *)
Definition response_quiet (x : answer response) : bool :=
  match x with
  | Returns r => negb (interrupted (json r))
  | Throws _ _ => true
  | Interrupt => false
  end.

Lemma get_mild (v : value) (k : string) (d : value) : mild (get v k d).
Proof. destruct v; exact I. Qed.

Lemma truediv_mild (v : value) (d : Z) : mild (truediv v d).
Proof.
  unfold truediv. destruct v; simpl; try exact I;
    destruct (PyFloat.is_finite _); exact I.
Qed.

Lemma scaled_mild (user_data : value) (field : string) : mild (scaled user_data field).
Proof.
  unfold scaled. pose proof (get_mild user_data field (VInt 0)) as Hg.
  destruct (get user_data field (VInt 0)) as [raw|e]; [|exact Hg].
  pose proof (truediv_mild raw 500000) as Ht.
  destruct (truediv raw 500000); [exact I | exact Ht].
Qed.

Lemma scaled_int (user_data : value) (field : string) (z : Z) (x : spec_float) :
  get user_data field (VInt 0) = Ok (VInt z) ->
  scaled user_data field = Ok x ->
  x = PyFloat.round (PyFloat.of_ratio z 500000) 2.
Proof.
  unfold scaled. intros ->. simpl.
  destruct (PyFloat.is_finite (PyFloat.of_ratio z 500000)); [|discriminate].
  intros H. inversion H. reflexivity.
Qed.

Lemma scaled_int_finite (user_data : value) (field : string) (z : Z) :
  get user_data field (VInt 0) = Ok (VInt z) ->
  PyFloat.is_finite (PyFloat.of_ratio z 500000) = true ->
  scaled user_data field = Ok (PyFloat.round (PyFloat.of_ratio z 500000) 2).
Proof. unfold scaled. intros -> H. simpl. rewrite H. reflexivity. Qed.

(** The case analysis that follows the control flow of
    [get_user_info]: every leaf knows the pair the function
    evaluates to. *)
Ltac run_in H :=
  cbn -[request_error http_error format_balance_display scaled get truthy Z.eqb] in H.

Ltac raised e H := destruct e; run_in H.

Ltac profile_cases w i headers :=
  let m := fresh "m" in
  remember (get_user_info w i headers) as m eqn:Em;
  unfold get_user_info in Em;
  destruct (http_get (sessions w i)) as [resp|cls0 msg0|] eqn:Eget; run_in Em;
  [ destruct (status_code resp =? 200)%Z eqn:Estatus; run_in Em;
    [ destruct (json resp) as [data|jcls jmsg|] eqn:Ejson; run_in Em;
      [ destruct (get data "success" VNone) as [ok|e1] eqn:Eok; run_in Em;
        [ destruct (truthy ok) eqn:Etruthy; run_in Em;
          [ destruct (get data "data" (VDict [])) as [ud|e2] eqn:Edata; run_in Em;
            [ destruct (scaled ud "quota") as [q0|e3] eqn:Eq; run_in Em;
              [ destruct (scaled ud "used_quota") as [u0|e4] eqn:Eu; run_in Em;
                [ | raised e4 Em ]
              | raised e3 Em ]
            | raised e2 Em ]
          | ]
        | raised e1 Em ]
      | | ]
    | ]
  | | ];
  subst m; cbn [fst snd].

Lemma get_user_info_calls (w : world) (i : nat) (headers : dict value) :
  snd (get_user_info w i headers) = [EvGet i (Request user_url headers 30)].
Proof. profile_cases w i headers; reflexivity. Qed.

Ltac not_mild :=
  match goal with
  | H : get ?v ?k ?d = Raise _ |- _ =>
      let Hm := fresh in pose proof (get_mild v k d) as Hm; rewrite H in Hm; contradiction
  | H : scaled ?v ?k = Raise _ |- _ =>
      let Hm := fresh in pose proof (scaled_mild v k) as Hm; rewrite H in Hm; contradiction
  end.

(** C6, as amended.  The profile fetch never raises an exception to
    its caller, and returns whenever the request is not interrupted.
    When the request itself fails, the error text of the record is
    the fixed prefix, the first 50 characters of the exception
    message, and three dots; on a status other than 200 and on a body
    whose success field is not set it is the fixed prefix and the
    status code. *)
Theorem get_user_info_failure_record (w : world) (i : nat) (headers : dict value) :
  let r := fst (get_user_info w i headers) in
  (forall cls msg, r <> Raise (Exception cls msg))
  /\ (response_quiet (http_get (sessions w i)) = true -> exists info, r = Ok info)
  /\ (forall cls msg,
        http_get (sessions w i) = Throws cls msg ->
        r = Ok (UserInfoError
                  ("Failed to get user info: " ++ PyStr.slice_to 50 msg ++ "...")%string)
        /\ PyStr.len (PyStr.slice_to 50 msg) <= 50)
  /\ (forall resp,
        http_get (sessions w i) = Returns resp ->
        status_code resp <> 200%Z
        \/ (exists data ok,
               json resp = Returns data /\ get data "success" VNone = Ok ok
               /\ truthy ok = false) ->
        r = Ok (UserInfoError
                  ("Failed to get user info: HTTP " ++ PyStr.of_Z (status_code resp))%string))
  /\ (forall error,
        r = Ok (UserInfoError error) ->
        (exists resp,
            http_get (sessions w i) = Returns resp
            /\ error = ("Failed to get user info: HTTP "
                        ++ PyStr.of_Z (status_code resp))%string)
        \/ (exists msg,
               error = ("Failed to get user info: " ++ PyStr.slice_to 50 msg
                        ++ "...")%string
               /\ PyStr.len (PyStr.slice_to 50 msg) <= 50)).
Proof.
  cbv zeta. split; [|split; [|split; [|split]]].
  - intros cls msg. profile_cases w i headers; discriminate.
  - unfold response_quiet.
    profile_cases w i headers; intros Hq; try discriminate; eauto; not_mild.
  - intros cls msg. profile_cases w i headers; intros H; inversion H; subst.
    split; [reflexivity | apply StrFacts.len_slice_to].
  - intros resp1. profile_cases w i headers; intros Hresp Hcase;
      inversion Hresp; subst; clear Hresp; try reflexivity;
      destruct Hcase as [Hs | [data' [ok' [Hj [Hok Ht]]]]];
      try (apply Z.eqb_eq in Estatus; contradiction);
      congruence.
  - intros error.
    profile_cases w i headers; intros H; try discriminate; inversion H; subst;
      first
        [ left; eexists; split; reflexivity
        | right; eexists; split; [reflexivity | apply StrFacts.len_slice_to] ].
Qed.

(** The claim as stated fails: a request failure with a message of 60
    characters gives an error text of 78 characters. *)
Lemma get_user_info_error_longer_than_50 :
  fst (get_user_info Scenarios.world_get_fails 0 [])
  = Ok (UserInfoError
          "Failed to get user info: 01234567890123456789012345678901234567890123456789...")
  /\ PyStr.len
       "Failed to get user info: 01234567890123456789012345678901234567890123456789..."
     = 78.
Proof. split; vm_compute; reflexivity. Qed.

(** C9.  On a successful profile fetch the two values returned are
    the raw integers of the response divided by 500000 (the division
    of two integers as a binary64 number) and rounded to 2 decimal
    places (Python's [round]); and the fetch is successful when the
    response has status 200, a set success field, and integer quota
    fields whose quotients are in the range of a float. *)
Theorem get_user_info_scales_quota (w : world) (i : nat) (headers : dict value) :
  let r := fst (get_user_info w i headers) in
  (forall q u display,
      r = Ok (UserInfo q u display) ->
      exists resp data user_data,
        http_get (sessions w i) = Returns resp
        /\ status_code resp = 200%Z
        /\ json resp = Returns data
        /\ get data "data" (VDict []) = Ok user_data
        /\ (forall z, get user_data "quota" (VInt 0) = Ok (VInt z) ->
                      q = PyFloat.round (PyFloat.of_ratio z 500000) 2)
        /\ (forall z, get user_data "used_quota" (VInt 0) = Ok (VInt z) ->
                      u = PyFloat.round (PyFloat.of_ratio z 500000) 2)
        /\ display = format_balance_display q u)
  /\ (forall resp data ok user_data raw_quota raw_used,
        http_get (sessions w i) = Returns resp ->
        status_code resp = 200%Z ->
        json resp = Returns data ->
        get data "success" VNone = Ok ok ->
        truthy ok = true ->
        get data "data" (VDict []) = Ok user_data ->
        get user_data "quota" (VInt 0) = Ok (VInt raw_quota) ->
        get user_data "used_quota" (VInt 0) = Ok (VInt raw_used) ->
        PyFloat.is_finite (PyFloat.of_ratio raw_quota 500000) = true ->
        PyFloat.is_finite (PyFloat.of_ratio raw_used 500000) = true ->
        let q := PyFloat.round (PyFloat.of_ratio raw_quota 500000) 2 in
        let u := PyFloat.round (PyFloat.of_ratio raw_used 500000) 2 in
        r = Ok (UserInfo q u (format_balance_display q u))).
Proof.
  cbv zeta. split.
  - intros q u display.
    profile_cases w i headers; intros H; try discriminate.
    inversion H; subst.
    exists resp, data, ud.
    split; [reflexivity|].
    split; [apply Z.eqb_eq; exact Estatus|].
    split; [exact Ejson|].
    split; [exact Edata|].
    split; [intros z Hz; eapply scaled_int; eauto|].
    split; [intros z Hz; eapply scaled_int; eauto | reflexivity].
  - intros resp data ok user_data zq zu Hget Hs Hj Hok Ht Hd Hq Hu Hfq Hfu.
    unfold get_user_info. rewrite Hget. cbn.
    apply Z.eqb_eq in Hs. rewrite Hs, Hj. cbn. rewrite Hok. cbn. rewrite Ht, Hd. cbn.
    rewrite (scaled_int_finite _ _ _ Hq Hfq). cbn.
    rewrite (scaled_int_finite _ _ _ Hu Hfu). cbn. reflexivity.
Qed.

Lemma get_user_info_scales_quota_witness :
  fst (get_user_info Scenarios.world_mixed 1 [])
  = Ok (UserInfo (PyFloat.round (PyFloat.of_ratio 12345678 500000) 2)
          (PyFloat.round (PyFloat.of_ratio 7500 500000) 2)
          (format_balance_display
             (PyFloat.round (PyFloat.of_ratio 12345678 500000) 2)
             (PyFloat.round (PyFloat.of_ratio 7500 500000) 2))).
Proof.
  apply (proj2 (get_user_info_scales_quota Scenarios.world_mixed 1 [])
           (Scenarios.profile_ok 12345678 7500)
           (VDict [("success", VBool true);
                   ("data", VDict [("quota", VInt 12345678); ("used_quota", VInt 7500)])])
           (VBool true)
           (VDict [("quota", VInt 12345678); ("used_quota", VInt 7500)])
           12345678%Z 7500%Z);
    reflexivity.
Defined.

(** The values of that example, as Python prints them. *)
Example scaled_quota_texts :
  PyFloat.repr (PyFloat.round (PyFloat.of_ratio 12345678 500000) 2) = "24.69"
  /\ PyFloat.repr (PyFloat.of_ratio 7500 500000) = "0.015"
  /\ PyFloat.repr (PyFloat.round (PyFloat.of_ratio 7500 500000) 2) = "0.01".
Proof. repeat split; vm_compute; reflexivity. Qed.

End ProfileFacts.

(* ================================================================== *)
(** * The configuration *)
(* ================================================================== *)

Module ConfigFacts.

Import Py World Checkin.

(** What the validation loop of [load_accounts] checks on an
    element. *)
Definition checked_record (account : value) : Prop :=
  exists d,
    account = VDict d
    /\ dict_mem "cookies" d = true
    /\ dict_mem "api_user" d = true
    /\ (forall n, dict_get "name" d = Some n -> truthy n = true).

Lemma account_ok_checked (account : value) :
  account_ok account = true -> checked_record account.
Proof.
  destruct account as [| | | | | |d]; simpl; try discriminate.
  destruct (dict_mem "cookies" d) eqn:Ec; simpl; [|discriminate].
  destruct (dict_mem "api_user" d) eqn:Ea; simpl; [|discriminate].
  intros H. exists d. repeat split; try assumption.
  intros n Hn. rewrite Hn in H. exact H.
Qed.

Lemma accounts_ok_Forall (l : list value) :
  accounts_ok l = true -> Forall (fun a => account_ok a = true) l.
Proof.
  induction l as [|a l IH]; simpl; [constructor|].
  destruct (account_ok a) eqn:E; [|discriminate].
  intros H. constructor; [exact E | apply IH; exact H].
Qed.

Lemma load_accounts_ok (w : world) (accounts : list value) :
  load_accounts w = Some accounts -> accounts_ok accounts = true.
Proof.
  unfold load_accounts.
  destruct (ANYROUTER_ACCOUNTS w) as [s|]; [|discriminate].
  destruct (String.eqb s ""); [discriminate|].
  destruct (Json.loads s) as [[| | | | |l|]|]; try discriminate.
  destruct (accounts_ok l) eqn:E; [|discriminate].
  intros H. inversion H; subst. exact E.
Qed.

(** C4, as amended.  The list [load_accounts] returns is the whole
    decoded array, and each of its elements is an object that has the
    keys [cookies] and [api_user] and whose [name], when present, is
    not empty.  The values of [api_user] and [cookies] are not looked
    at here. *)
Theorem load_accounts_checked (w : world) (accounts : list value) :
  load_accounts w = Some accounts ->
  (exists s, ANYROUTER_ACCOUNTS w = Some s /\ Json.loads s = Some (VList accounts))
  /\ Forall checked_record accounts.
Proof.
  intros H. split.
  - revert H. unfold load_accounts.
    destruct (ANYROUTER_ACCOUNTS w) as [s|]; [|discriminate].
    destruct (String.eqb s ""); [discriminate|].
    destruct (Json.loads s) as [[| | | | |l|]|] eqn:El; try discriminate.
    destruct (accounts_ok l); [|discriminate].
    intros H. inversion H; subst. exists s. split; [reflexivity | exact El].
  - apply load_accounts_ok in H. apply accounts_ok_Forall in H.
    eapply Forall_impl; [|exact H]. intros a. apply account_ok_checked.
Qed.

Lemma load_accounts_checked_witness :
  (exists s,
      ANYROUTER_ACCOUNTS Scenarios.world_mixed = Some s
      /\ Json.loads s
         = Some (VList
                   [VDict [("cookies", VStr "session=abc"); ("api_user", VStr "1001")];
                    VDict [("name", VStr "spare");
                           ("cookies", VDict [("session", VStr "xyz")]);
                           ("api_user", VStr "1002")]]))
  /\ Forall checked_record
       [VDict [("cookies", VStr "session=abc"); ("api_user", VStr "1001")];
        VDict [("name", VStr "spare");
               ("cookies", VDict [("session", VStr "xyz")]);
               ("api_user", VStr "1002")]].
Proof.
  apply (load_accounts_checked Scenarios.world_mixed). vm_compute. reflexivity.
Defined.

(** The claim as stated fails: an account whose [api_user] is the
    empty string is returned. *)
Lemma load_accounts_keeps_empty_api_user :
  load_accounts Scenarios.world_empty_api_user
  = Some [VDict [("cookies", VStr "session=abc"); ("api_user", VStr "")]]
  /\ dict_get "api_user" [("cookies", VStr "session=abc"); ("api_user", VStr "")]
     = Some (VStr "").
Proof. split; vm_compute; reflexivity. Qed.

(** The display name of a checked record is always defined. *)
Lemma display_name_ok (account : value) (i : nat) :
  account_ok account = true ->
  exists n, get_account_display_name account i = Ok n.
Proof.
  destruct account; simpl; try discriminate. intros _.
  unfold get_account_display_name. simpl. eauto.
Qed.

End ConfigFacts.

(* ================================================================== *)
(** * The checks before the first call *)
(* ================================================================== *)

Module EarlyFacts.

Import Py World Checkin MonadFacts.

Lemma contains_equals_step (c : ascii) (r : string) :
  PyStr.contains "=" (String c r)
  = (if ascii_dec "=" c then true else false) || PyStr.contains "=" r.
Proof.
  cbn -[ascii_dec]. destruct (ascii_dec "=" c); [destruct r; reflexivity | reflexivity].
Qed.

Lemma contains_equals_cons (c : ascii) (r : string) :
  PyStr.contains "=" (String c r) = false ->
  c <> "="%char /\ PyStr.contains "=" r = false.
Proof.
  rewrite contains_equals_step. destruct (ascii_dec "=" c) as [E | E].
  - discriminate.
  - intros H. split; [congruence | exact H].
Qed.

Lemma contains_equals_cons_false (c : ascii) (r : string) :
  c <> "="%char -> PyStr.contains "=" r = false ->
  PyStr.contains "=" (String c r) = false.
Proof.
  intros Hc Hr. rewrite contains_equals_step.
  destruct (ascii_dec "=" c) as [E | E]; [congruence|].
  exact Hr.
Qed.

Lemma split_without_equals (s : string) :
  PyStr.contains "=" s = false ->
  Forall (fun piece => PyStr.contains "=" piece = false) (PyStr.split ";" s).
Proof.
  induction s as [|c r IH]; intros H.
  - repeat constructor.
  - apply contains_equals_cons in H. destruct H as [Hc Hr].
    specialize (IH Hr). simpl.
    destruct (Ascii.eqb c ";").
    + constructor; [reflexivity | exact IH].
    + destruct (PyStr.split ";" r) as [|h t].
      * repeat constructor. apply contains_equals_cons_false; [exact Hc | reflexivity].
      * inversion IH; subst. constructor; [|assumption].
        apply contains_equals_cons_false; assumption.
Qed.

Lemma parse_items_without_equals (pieces : list string) (d : dict value) :
  Forall (fun piece => PyStr.contains "=" piece = false) pieces ->
  fold_left parse_cookie_item pieces (Ok d) = Ok d.
Proof.
  induction 1 as [|p l Hp Hl IH]; [reflexivity|].
  simpl. rewrite Hp. exact IH.
Qed.

(** C10.  An account record whose [api_user] is empty, or whose
    [cookies] parse to the empty mapping, makes [check_in_account]
    return [(False, None)] without a single call of the browser or of
    the HTTP client; a [cookies] value that is neither a dictionary
    nor a string, and a string with no [=] in it, parse to the empty
    mapping. *)
Theorem rejected_before_any_call :
  (forall (w : world) (account : value) (i : nat) (api_user cookies_data : value),
      is_dict account = true ->
      get account "api_user" (VStr "") = Ok api_user ->
      get account "cookies" (VDict []) = Ok cookies_data ->
      truthy api_user = false \/ parse_cookies cookies_data = Ok [] ->
      check_in_account w account i = (Ok (false, None), []))
  /\ (forall v, is_dict v = false -> is_str v = false -> parse_cookies v = Ok [])
  /\ (forall s, PyStr.contains "=" s = false -> parse_cookies (VStr s) = Ok []).
Proof.
  split; [|split].
  - intros w account i api_user cookies_data Hd Ha Hc Hcase.
    destruct account as [| | | | | |d]; try discriminate.
    cbn [get] in Ha, Hc. inversion Ha as [Ha']. inversion Hc as [Hc']. clear Ha Hc.
    unfold check_in_account, get_account_display_name.
    cbn [get]. rewrite !bind_lift_ok, Ha', Hc'.
    destruct (truthy api_user) eqn:Et; [|reflexivity].
    destruct Hcase as [H | H]; [discriminate|].
    cbn [negb]. rewrite H, bind_lift_ok. reflexivity.
  - intros v Hd Hs. destruct v; try reflexivity; discriminate.
  - intros s H. simpl. apply parse_items_without_equals.
    apply split_without_equals. exact H.
Qed.

Lemma rejected_before_any_call_witness :
  check_in_account Scenarios.world_empty_api_user
    (VDict [("cookies", VStr "session=abc"); ("api_user", VStr "")]) 0
  = (Ok (false, None), []).
Proof.
  apply (proj1 rejected_before_any_call Scenarios.world_empty_api_user
           (VDict [("cookies", VStr "session=abc"); ("api_user", VStr "")]) 0
           (VStr "") (VStr "session=abc"));
    [reflexivity | reflexivity | reflexivity | left; reflexivity].
Defined.

End EarlyFacts.

(* ================================================================== *)
(** * The check-in of one account *)
(* ================================================================== *)

Module AccountFacts.

Import Py World Checkin MonadFacts.

(** ** The calls made for one account *)

Definition browser_event (ev : event) : Prop :=
  match ev with
  | EvBrowser _ _ => True
  | _ => False
  end.

(** The event is a call made for the account at index [i]. *)
Definition account_event (i : nat) (ev : event) : Prop :=
  match ev with
  | EvBrowser j _ | EvClientNew j | EvCookiesUpdate j _ | EvGet j _ | EvPost j _
  | EvClientClose j => j = i
  | EvWriteFile _ _ | EvNotify _ _ => False
  end.

Ltac only_auto :=
  repeat
    first
      [ apply only_ret
      | apply only_raise
      | apply only_lift
      | apply only_call; [simpl; auto]
      | apply only_bind; [|intros ?]
      | apply only_try_except; [|intros ?]
      | apply only_try_except_class
      | apply only_try_finally
      | match goal with
        | |- only _ (let _ := _ in _) => cbv zeta
        | |- only _ (if ?c then _ else _) => destruct c
        | |- only _ (match ?x with _ => _ end) => destruct x
        end ].

Lemma harvest_only (P : event -> Prop) (b : browser) (i : nat) :
  (forall c, P (EvBrowser i c)) -> only P (harvest b i).
Proof. intros HP. unfold harvest. only_auto. Qed.

Lemma waf_only (P : event -> Prop) (w : world) (i : nat) :
  (forall c, P (EvBrowser i c)) -> only P (get_waf_cookies_with_playwright w i).
Proof.
  intros HP. unfold get_waf_cookies_with_playwright. only_auto.
Qed.

Lemma get_user_info_only (P : event -> Prop) (w : world) (i : nat) (h : dict value) :
  (forall r, P (EvGet i r)) -> only P (get_user_info w i h).
Proof.
  intros HP. unfold only. rewrite ProfileFacts.get_user_info_calls.
  repeat constructor. apply HP.
Qed.

Lemma read_checkin_only (P : event -> Prop) (resp : response) (info : user_info_t) :
  only P (read_checkin resp info).
Proof. unfold read_checkin. only_auto. Qed.

Lemma check_in_account_only (w : world) (account : value) (i : nat) :
  only (account_event i) (check_in_account w account i).
Proof.
  unfold check_in_account. only_auto. apply read_checkin_only.
Qed.


(** ** Interrupts *)

Definition browser_quiet (b : browser) : bool :=
  negb (interrupted (start b)) && negb (interrupted (launch b))
  && negb (interrupted (new_page b)) && negb (interrupted (goto b))
  && negb (interrupted (wait_for_function b)) && negb (interrupted (wait_for_timeout b))
  && negb (interrupted (cookies b)) && negb (interrupted (close b))
  && negb (interrupted (close_in_handler b)) && negb (interrupted (stop b)).

(** No call made for the account is interrupted. *)
Definition session_quiet (s : session) : bool :=
  browser_quiet (playwright s)
  && negb (interrupted (client_new s)) && negb (interrupted (cookies_update s))
  && ProfileFacts.response_quiet (http_get s)
  && ProfileFacts.response_quiet (http_post s)
  && negb (interrupted (client_close s)).

Lemma json_mild (ev : event) (x : answer response) (r : response) :
  fst (call ev x) = Ok r -> ProfileFacts.response_quiet x = true ->
  mild (to_res (json r)).
Proof.
  destruct x as [r'|cls msg|]; simpl; try discriminate.
  intros H Hq. inversion H; subst.
  destruct (json r); simpl in *; [exact I | exact I | discriminate].
Qed.

Lemma response_quiet_answered (x : answer response) :
  ProfileFacts.response_quiet x = true -> interrupted x = false.
Proof. destruct x; simpl; congruence. Qed.

Lemma parse_cookies_mild (v : value) : mild (parse_cookies v).
Proof.
  destruct v; try exact I. simpl.
  assert (H : forall l acc, mild acc -> mild (fold_left parse_cookie_item l acc)).
  { induction l as [|c l IH]; intros acc Hacc; [exact Hacc|].
    simpl. apply IH. unfold parse_cookie_item.
    destruct acc as [d|e]; [|exact Hacc].
    destruct (PyStr.contains "=" c); [|exact I].
    destruct (PyStr.split1 "=" (PyStr.strip c)) as [|k [|v [|x t]]]; exact I. }
  apply H. exact I.
Qed.

Lemma collect_waf_mild (l : list value) (acc : dict value) : mild (collect_waf l acc).
Proof.
  revert acc. induction l as [|c l IH]; intros acc; [exact I|].
  simpl.
  pose proof (ProfileFacts.get_mild c "name" VNone) as H1.
  destruct (get c "name" VNone) as [n|e]; [|exact H1].
  pose proof (ProfileFacts.get_mild c "value" VNone) as H2.
  destruct (get c "value" VNone) as [v|e]; [|exact H2].
  destruct n; try apply IH.
  destruct (_ && _); apply IH.
Qed.

Lemma body_says_success_mild (result : value) : mild (body_says_success result).
Proof.
  unfold body_says_success.
  pose proof (ProfileFacts.get_mild result "ret" VNone) as H1.
  destruct (get result "ret" VNone) as [r|e]; [|exact H1].
  destruct (eq_int r 1); [exact I|].
  pose proof (ProfileFacts.get_mild result "code" VNone) as H2.
  destruct (get result "code" VNone) as [c|e]; [|exact H2].
  destruct (eq_int c 0); [exact I|].
  pose proof (ProfileFacts.get_mild result "success" VNone) as H3.
  destruct (get result "success" VNone) as [x|e]; [exact I | exact H3].
Qed.

Ltac quiet_facts H :=
  unfold session_quiet, browser_quiet in H;
  repeat (apply andb_true_iff in H; let H' := fresh "Hq" in destruct H as [H H']);
  repeat match goal with
         | Hn : negb (interrupted _) = true |- _ => apply negb_true_iff in Hn
         end.

Ltac calm_auto :=
  repeat
    first
      [ apply calm_ret
      | apply calm_lift;
        first
          [ apply ProfileFacts.get_mild
          | apply ProfileFacts.scaled_mild
          | apply parse_cookies_mild
          | apply collect_waf_mild
          | apply body_says_success_mild
          | eapply json_mild; eassumption ]
      | apply calm_call; first [assumption | apply response_quiet_answered; assumption]
      | apply calm_bind; [|intros ? ?]
      | apply calm_try_except; [|intros ?]
      | apply calm_try_except_class
      | apply calm_try_finally
      | match goal with
        | |- calm (let _ := _ in _) => cbv zeta
        | |- calm (if ?c then _ else _) => destruct c
        | |- calm (match ?x with _ => _ end) => destruct x
        end ].

Lemma read_checkin_calm (resp : response) (info : user_info_t) :
  mild (to_res (json resp)) -> calm (read_checkin resp info).
Proof.
  intros H. unfold read_checkin.
  destruct (status_code resp =? 200)%Z; [|exact I].
  apply calm_try_except_class; [|destruct (PyStr.contains _ _); exact I].
  apply calm_bind; [exact H|]. intros a _.
  apply calm_bind; [apply body_says_success_mild|]. intros b _.
  destruct b; exact I.
Qed.

(** When no call made for the account is interrupted, the check-in of
    the account returns or raises an [Exception]. *)
Lemma check_in_account_calm (w : world) (account : value) (i : nat) :
  session_quiet (sessions w i) = true -> calm (check_in_account w account i).
Proof.
  intros H. quiet_facts H.
  unfold check_in_account, get_account_display_name. calm_auto.
  apply read_checkin_calm. eapply json_mild; eassumption.
Qed.


(** ** The check-in request *)

(** [d.get(k)] *)
Definition field (d : dict value) (k : string) : value :=
  match dict_get k d with
  | Some v => v
  | None => VNone
  end.

(** The answer to the check-in request is one that counts as a
    success: status 200 and either a JSON object with [ret == 1],
    [code == 0] or a set [success] field, or a body that is not JSON
    and whose text contains "success" in any letter case. *)
Definition declares_success (resp : response) : Prop :=
  status_code resp = 200%Z
  /\ ((exists d,
          json resp = Returns (VDict d)
          /\ (eq_int (field d "ret") 1 = true
              \/ eq_int (field d "code") 0 = true
              \/ truthy (field d "success") = true))
      \/ (exists msg,
             json resp = Throws "JSONDecodeError" msg
             /\ PyStr.contains "success" (PyStr.lower (text resp)) = true)).

Lemma body_says_success_dict (d : dict value) :
  body_says_success (VDict d)
  = Ok (eq_int (field d "ret") 1 || eq_int (field d "code") 0
        || truthy (field d "success")).
Proof.
  unfold body_says_success. cbn [get]. fold (field d "ret").
  fold (field d "code"). fold (field d "success").
  destruct (eq_int (field d "ret") 1); [reflexivity|].
  destruct (eq_int (field d "code") 0); reflexivity.
Qed.

Lemma body_says_success_other (v : value) :
  is_dict v = false -> exists msg, body_says_success v = Raise (Exception "AttributeError" msg).
Proof. destruct v; try discriminate; intros _; eexists; reflexivity. Qed.

Lemma read_checkin_spec (resp : response) (info : user_info_t) :
  snd (read_checkin resp info) = []
  /\ ((exists x, fst (read_checkin resp info) = Ok (true, x)) <-> declares_success resp).
Proof.
  unfold read_checkin, declares_success.
  destruct (status_code resp =? 200)%Z eqn:Es.
  2: { split; [reflexivity|]. apply Z.eqb_neq in Es. split.
       - intros [x H]. discriminate.
       - intros [H _]. contradiction. }
  apply Z.eqb_eq in Es.
  destruct (json resp) as [result|cls msg|] eqn:Ej; cbn [to_res].
  - destruct (is_dict result) eqn:Ed.
    + destruct result; try discriminate.
      rewrite bind_lift_ok, body_says_success_dict, bind_lift_ok.
      destruct (eq_int (field d "ret") 1) eqn:E1;
        [|destruct (eq_int (field d "code") 0) eqn:E2;
          [|destruct (truthy (field d "success")) eqn:E3]];
        cbn; (split; [reflexivity|]); split;
        try (intros _; split; [exact Es|]; left; exists d; split; [reflexivity|]; tauto);
        try (intros [x H]; discriminate);
        try (intros _; eexists; reflexivity).
      intros [_ [[d' [Hd [H | [H | H]]]] | [msg [H _]]]];
        try discriminate; inversion Hd; subst; congruence.
    + destruct (body_says_success_other result Ed) as [msg Hb].
      rewrite bind_lift_ok, Hb. cbn. split; [reflexivity|]. split.
      * intros [x H]. discriminate.
      * intros [_ [[d [Hd _]] | [m [H _]]]]; [|discriminate].
        inversion Hd; subst. discriminate.
  - cbn. destruct (String.eqb cls "JSONDecodeError") eqn:Ec.
    + apply String.eqb_eq in Ec. subst.
      destruct (PyStr.contains "success" (PyStr.lower (text resp))) eqn:Et; cbn;
        (split; [reflexivity|]); split.
      * intros _. split; [exact Es|]. right. exists msg. split; reflexivity.
      * eauto.
      * intros [x H]. discriminate.
      * intros [_ [[d [Hd _]] | [m [_ H]]]]; discriminate.
    + split; [reflexivity|]. split.
      * intros [x H]. discriminate.
      * intros [_ [[d [Hd _]] | [m [H _]]]]; [discriminate|].
        inversion H; subst. rewrite String.eqb_refl in Ec. discriminate.
  - cbn. split; [reflexivity|]. split.
    + intros [x H]. discriminate.
    + intros [_ [[d [Hd _]] | [m [H _]]]]; discriminate.
Qed.






Lemma bind_call_returns {A B} (ev : event) (a : A) (k : A -> M B) :
  bind (call ev (Returns a)) k = (fst (k a), ev :: snd (k a)).
Proof. unfold call. cbn [to_res]. rewrite bind_ok. reflexivity. Qed.

Lemma bind_call_throws {A B} (ev : event) (cls msg : string) (k : A -> M B) :
  bind (call ev (Throws cls msg)) k = (Raise (Exception cls msg), [ev]).
Proof. reflexivity. Qed.

Lemma bind_call_interrupt {A B} (ev : event) (k : A -> M B) :
  bind (call ev Interrupt) k = (Raise KeyboardInterrupt, [ev]).
Proof. reflexivity. Qed.




End AccountFacts.

(* ================================================================== *)
(** * The loop over the accounts *)
(* ================================================================== *)

Module LoopFacts.

Import Py World Checkin MonadFacts AccountFacts.

Lemma bind_inv_ok {A B} (m : M A) (k : A -> M B) (b : B) (ev : list event) :
  bind m k = (Ok b, ev) ->
  exists a ev1 ev2, m = (Ok a, ev1) /\ k a = (Ok b, ev2) /\ ev = ev1 ++ ev2.
Proof.
  destruct m as [[a|e] ev1]; simpl; [|discriminate].
  destruct (k a) as [r ev2] eqn:Ek. intros H. inversion H; subst.
  exists a, ev1, ev2. repeat split; assumption.
Qed.

(** The entry of [account_results] that the loop body leaves for the
    account at index [i]. *)
Definition recorded (w : world) (i : nat) (account : value) (r : account_result) : Prop :=
  get_account_display_name account i = Ok (name r)
  /\ match fst (check_in_account w account i) with
     | Ok (s, info) => success r = s /\ detail r = detail_message info
     | Raise (Exception _ msg) => success r = false /\ detail r = exception_detail msg
     | Raise _ => False
     end.

Lemma process_account_step (w : world) (st st' : loop_state) (i : nat) (account : value)
    (ev : list event) :
  process_account w st i account = (Ok st', ev) ->
  exists r,
    account_results st' = account_results st ++ [r]
    /\ recorded w i account r
    /\ success_count st' = success_count st + (if success r then 1 else 0)
    /\ need_notify st' = need_notify st || negb (success r)
    /\ ev = snd (check_in_account w account i).
Proof.
  unfold process_account, recorded.
  destruct (get_account_display_name account i) as [nm|e]; [|discriminate].
  rewrite bind_lift_ok.
  destruct (check_in_account w account i) as [[[s info]|[cls msg| |code]] evc];
    cbn; rewrite ?app_nil_r; intros H; inversion H; subst; clear H.
  - eexists. cbn. repeat split.
    + destruct s; [rewrite Nat.add_1_r | rewrite Nat.add_0_r]; reflexivity.
    + destruct s, (need_notify st); reflexivity.
  - eexists. cbn. repeat split.
    + rewrite Nat.add_0_r. reflexivity.
    + destruct (need_notify st); reflexivity.
Qed.

Lemma process_account_returns (w : world) (st : loop_state) (i : nat) (account : value) :
  account_ok account = true -> session_quiet (sessions w i) = true ->
  exists st', fst (process_account w st i account) = Ok st'.
Proof.
  intros Ha Hq. unfold process_account.
  destruct (ConfigFacts.display_name_ok account i Ha) as [nm Hn].
  rewrite Hn, bind_lift_ok.
  apply try_except_total.
  - apply calm_bind; [apply check_in_account_calm; exact Hq|].
    intros [s info] _. exact I.
  - intros e. eexists. reflexivity.
Qed.

Definition failed (r : account_result) : bool := negb (success r).

(** What the loop leaves when it ends: one entry for each account, in
    order; the count of the successful ones; [need_notify] set when
    one of them failed. *)
Lemma account_loop_result (w : world) (accounts : list value) :
  forall (i : nat) (st st' : loop_state) (ev : list event),
    account_loop w accounts i st = (Ok st', ev) ->
    exists rs,
      account_results st' = account_results st ++ rs
      /\ List.length rs = List.length accounts
      /\ (forall j account,
             nth_error accounts j = Some account ->
             exists r, nth_error rs j = Some r /\ recorded w (i + j) account r)
      /\ success_count st' = success_count st + List.length (filter success rs)
      /\ need_notify st' = need_notify st || existsb failed rs
      /\ Forall (fun e => exists j, account_event j e) ev.
Proof.
  induction accounts as [|account accounts IH]; intros i st st' ev H.
  - inversion H; subst. exists []. rewrite app_nil_r, Nat.add_0_r, orb_false_r.
    repeat split; try reflexivity; try constructor.
    intros [|j] a Hj; discriminate.
  - cbn [account_loop] in H. apply bind_inv_ok in H.
    destruct H as [st1 [ev1 [ev2 [H1 [H2 Hev]]]]].
    apply process_account_step in H1.
    destruct H1 as [r [Hr [Hrec [Hc [Hn Hev1]]]]].
    apply IH in H2. destruct H2 as [rs [Hrs [Hlen [Hnth [Hcount [Hnn Hall]]]]]].
    exists (r :: rs). split; [|split; [|split; [|split; [|split]]]].
    + rewrite Hrs, Hr, <- app_assoc. reflexivity.
    + simpl. rewrite Hlen. reflexivity.
    + intros [|j] a Hj.
      * inversion Hj; subst. exists r. rewrite Nat.add_0_r. split; [reflexivity | exact Hrec].
      * simpl in Hj. destruct (Hnth j a Hj) as [r' [Hr' Hrec']].
        exists r'. split; [exact Hr'|].
        replace (i + S j) with (S i + j) by lia. exact Hrec'.
    + rewrite Hcount, Hc. simpl. destruct (success r); simpl; lia.
    + rewrite Hnn, Hn. simpl. rewrite orb_assoc. reflexivity.
    + subst ev. apply Forall_app. split; [|exact Hall].
      subst ev1. eapply Forall_impl; [|apply (check_in_account_only w account i)].
      intros e He. exists i. exact He.
Qed.

(** The loop ends when no call is interrupted. *)
Lemma account_loop_returns (w : world) (accounts : list value) :
  forall (i : nat) (st : loop_state),
    accounts_ok accounts = true ->
    (forall j, j < List.length accounts -> session_quiet (sessions w (i + j)) = true) ->
    exists st' ev, account_loop w accounts i st = (Ok st', ev).
Proof.
  induction accounts as [|account accounts IH]; intros i st Hok Hq.
  - eexists. eexists. reflexivity.
  - simpl in Hok. destruct (account_ok account) eqn:Ha; [|discriminate].
    assert (Hq0 : session_quiet (sessions w i) = true).
    { rewrite <- (Nat.add_0_r i). apply Hq. simpl. lia. }
    destruct (process_account_returns w st i account Ha Hq0) as [st1 H1].
    destruct (IH (S i) st1 Hok) as [st' [ev' H2]].
    { intros j Hj. replace (S i + j) with (i + S j) by lia. apply Hq. simpl. lia. }
    cbn [account_loop].
    destruct (process_account w st i account) as [r1 ev1]. simpl in H1. subst r1.
    rewrite bind_ok, H2. eexists. eexists. reflexivity.
Qed.

(** ** The balances the loop collects *)

(** The profile of the account at index [i] was read. *)
Definition read_balance (w : world) (i : nat) (account : value) : Prop :=
  exists s current_quota current_used display,
    fst (check_in_account w account i)
    = Ok (s, Some (UserInfo current_quota current_used display)).

Lemma dict_set_not_nil {V} (k : string) (v : V) (d : dict V) : dict_set k v d <> [].
Proof. destruct d as [|[k' v'] r]; simpl; [|destruct (String.eqb k k')]; discriminate. Qed.

Lemma process_account_balances (w : world) (st st' : loop_state) (i : nat) (account : value)
    (ev : list event) :
  process_account w st i account = (Ok st', ev) ->
  (current_balances st' <> [] <-> current_balances st <> [] \/ read_balance w i account).
Proof.
  unfold process_account, read_balance.
  destruct (get_account_display_name account i) as [nm|e]; [|discriminate].
  rewrite bind_lift_ok.
  destruct (check_in_account w account i) as [[[s [[q u d|err]|]]|[cls msg| |code]] evc];
    cbn; intros H; inversion H; subst; clear H; cbn.
  - split; [intros _; right; eauto | intros _; apply dict_set_not_nil].
  - split; [intros H; left; exact H | intros [H|[s' [q [u [d H]]]]]; [exact H | discriminate]].
  - split; [intros H; left; exact H | intros [H|[s' [q [u [d H]]]]]; [exact H | discriminate]].
  - split; [intros H; left; exact H | intros [H|[s' [q [u [d H]]]]]; [exact H | discriminate]].
Qed.

Lemma account_loop_balances (w : world) (accounts : list value) :
  forall (i : nat) (st st' : loop_state) (ev : list event),
    account_loop w accounts i st = (Ok st', ev) ->
    (current_balances st' <> []
     <-> current_balances st <> []
         \/ exists j account, nth_error accounts j = Some account
                              /\ read_balance w (i + j) account).
Proof.
  induction accounts as [|account accounts IH]; intros i st st' ev H.
  - inversion H; subst. split; [intros H'; left; exact H'|].
    intros [H'|[[|j] [a [Hj _]]]]; [exact H' | discriminate | discriminate].
  - cbn [account_loop] in H. apply bind_inv_ok in H.
    destruct H as [st1 [ev1 [ev2 [H1 [H2 _]]]]].
    apply process_account_balances in H1. apply IH in H2.
    rewrite H2, H1. split.
    + intros [[H|H]|[j [a [Hj Hr]]]].
      * left. exact H.
      * right. exists 0, account. rewrite Nat.add_0_r. split; [reflexivity | exact H].
      * right. exists (S j), a. replace (i + S j) with (S i + j) by lia.
        split; assumption.
    + intros [H|[[|j] [a [Hj Hr]]]].
      * left. left. exact H.
      * left. right. inversion Hj; subst. rewrite Nat.add_0_r in Hr. exact Hr.
      * right. exists j, a. replace (S i + j) with (i + S j) by lia.
        split; assumption.
Qed.

(** ** Every account gets its entry *)

(** C7, as amended.  For an account list that passed the checks of
    [load_accounts], when no call is interrupted, the loop over the
    accounts ends and leaves exactly one entry of [account_results]
    for each account, in order, and [success_count] is at most the
    number of accounts; the entry of an account whose check-in raised
    an exception is a failed one, whose detail is the fixed prefix,
    the first 50 characters of the exception text and three dots (so
    the exception text is cut to 50 characters, the detail as a whole
    is not), and the accounts after it have their entries too. *)
Theorem account_loop_records_every_account (w : world) (accounts : list value) :
  accounts_ok accounts = true ->
  (forall i, i < List.length accounts -> session_quiet (sessions w i) = true) ->
  exists st ev,
    account_loop w accounts 0 initial = (Ok st, ev)
    /\ List.length (account_results st) = List.length accounts
    /\ success_count st <= List.length accounts
    /\ (forall i account,
          nth_error accounts i = Some account ->
          exists r, nth_error (account_results st) i = Some r /\ recorded w i account r)
    /\ (forall i account cls msg,
          nth_error accounts i = Some account ->
          fst (check_in_account w account i) = Raise (Exception cls msg) ->
          exists account_name,
            nth_error (account_results st) i
            = Some (AccountResult account_name false
                      ("异常：" ++ PyStr.slice_to 50 msg ++ "...")%string)
            /\ PyStr.len (PyStr.slice_to 50 msg) <= 50).
Proof.
  intros Hok Hq.
  destruct (account_loop_returns w accounts 0 initial Hok Hq) as [st [ev H]].
  exists st, ev. split; [exact H|].
  destruct (account_loop_result w accounts 0 initial st ev H)
    as [rs [Hrs [Hlen [Hnth [Hcount _]]]]].
  simpl in Hrs, Hcount. rewrite Hrs.
  split; [exact Hlen|]. split; [|split].
  - rewrite Hcount, <- Hlen. apply filter_length_le.
  - exact Hnth.
  - intros i account cls msg Hi Hraise.
    destruct (Hnth i account Hi) as [r [Hr [Hname Hrec]]].
    simpl in Hrec. rewrite Hraise in Hrec. destruct Hrec as [Hs Hd].
    exists (name r). split; [|apply StrFacts.len_slice_to].
    rewrite Hr. destruct r as [nm s d]. simpl in Hs, Hd. subst. reflexivity.
Qed.

Lemma account_loop_records_every_account_witness :
  exists st ev,
    account_loop Scenarios.world_client_fails
      [VDict [("cookies", VStr "session=abc"); ("api_user", VStr "1001")];
       VDict [("name", VStr "spare"); ("cookies", VDict [("session", VStr "xyz")]);
              ("api_user", VStr "1002")]] 0 initial = (Ok st, ev)
    /\ List.length (account_results st) = 2
    /\ success_count st <= 2
    /\ nth_error (account_results st) 0
       = Some (AccountResult (VStr "Account 1") false
                 "异常：01234567890123456789012345678901234567890123456789...")
    /\ (exists r, nth_error (account_results st) 1 = Some r /\ success r = true).
Proof.
  destruct (account_loop_records_every_account Scenarios.world_client_fails
              [VDict [("cookies", VStr "session=abc"); ("api_user", VStr "1001")];
               VDict [("name", VStr "spare"); ("cookies", VDict [("session", VStr "xyz")]);
                      ("api_user", VStr "1002")]])
    as [st [ev [H [Hlen [Hcount [Hnth Hexn]]]]]].
  - reflexivity.
  - intros [|[|i]] Hi; [reflexivity | reflexivity | simpl in Hi; lia].
  - exists st, ev. split; [exact H|]. split; [exact Hlen|]. split; [exact Hcount|]. split.
    + destruct (Hexn 0 _ "RuntimeError" Scenarios.long_message eq_refl eq_refl)
        as [nm [Hr _]].
      destruct (Hnth 0 _ eq_refl) as [r [Hr' [Hname _]]].
      rewrite Hr in Hr'. inversion Hr'; subst r. simpl in Hname.
      inversion Hname; subst nm. exact Hr.
    + destruct (Hnth 1 _ eq_refl) as [r [Hr [_ Hrec]]].
      exists r. split; [exact Hr|].
      change (fst (check_in_account Scenarios.world_client_fails
                     (VDict [("name", VStr "spare");
                             ("cookies", VDict [("session", VStr "xyz")]);
                             ("api_user", VStr "1002")]) 1))
        with (Ok (true, Some (UserInfo
                (PyFloat.round (PyFloat.of_ratio 12345678 500000) 2)
                (PyFloat.round (PyFloat.of_ratio 7500 500000) 2)
                (format_balance_display
                   (PyFloat.round (PyFloat.of_ratio 12345678 500000) 2)
                   (PyFloat.round (PyFloat.of_ratio 7500 500000) 2))))) in Hrec.
      apply Hrec.
Defined.

(** The claim C7 as it is stated fails where the exception text is
    longer than 50 characters: [httpx.Client(...)] raises for the
    first of two accounts with a text of 60 characters, and the detail
    recorded for that account has 56 characters, the prefix and the
    three dots being added to the 50 characters kept. *)
Lemma exception_detail_longer_than_50 :
  exists st ev,
    account_loop Scenarios.world_client_fails
      [VDict [("cookies", VStr "session=abc"); ("api_user", VStr "1001")];
       VDict [("name", VStr "spare"); ("cookies", VDict [("session", VStr "xyz")]);
              ("api_user", VStr "1002")]] 0 initial = (Ok st, ev)
    /\ load_accounts Scenarios.world_client_fails
       = Some [VDict [("cookies", VStr "session=abc"); ("api_user", VStr "1001")];
               VDict [("name", VStr "spare"); ("cookies", VDict [("session", VStr "xyz")]);
                      ("api_user", VStr "1002")]]
    /\ fst (check_in_account Scenarios.world_client_fails
              (VDict [("cookies", VStr "session=abc"); ("api_user", VStr "1001")]) 0)
       = Raise (Exception "RuntimeError" Scenarios.long_message)
    /\ PyStr.len Scenarios.long_message = 60
    /\ nth_error (account_results st) 0
       = Some (AccountResult (VStr "Account 1") false
                 "异常：01234567890123456789012345678901234567890123456789...")
    /\ PyStr.len "异常：01234567890123456789012345678901234567890123456789..." = 56
    /\ Nat.ltb 50 (PyStr.len "异常：01234567890123456789012345678901234567890123456789...")
       = true.
Proof.
  destruct (account_loop Scenarios.world_client_fails
              [VDict [("cookies", VStr "session=abc"); ("api_user", VStr "1001")];
               VDict [("name", VStr "spare"); ("cookies", VDict [("session", VStr "xyz")]);
                      ("api_user", VStr "1002")]] 0 initial) as [r ev] eqn:H.
  vm_compute in H. inversion H; subst r ev; clear H.
  eexists. eexists. split; [reflexivity|].
  vm_compute. repeat split.
Qed.

End LoopFacts.

(* ================================================================== *)
(** * The run as a whole *)
(* ================================================================== *)

Module MainFacts.

Import Py World Checkin MonadFacts AccountFacts LoopFacts.

(** ** What the loop hands to the rest of [main] *)

Definition failure_recorded (st : loop_state) : Prop :=
  exists r, In r (account_results st) /\ success r = false.

Lemma need_notify_after_loop (w : world) (accounts : list value) (st : loop_state)
    (ev : list event) :
  account_loop w accounts 0 initial = (Ok st, ev) ->
  need_notify st = true <-> failure_recorded st.
Proof.
  intros H.
  destruct (account_loop_result w accounts 0 initial st ev H)
    as [rs [Hrs [_ [_ [_ [Hn _]]]]]].
  simpl in Hrs, Hn. unfold failure_recorded. rewrite Hn, Hrs.
  rewrite existsb_exists. unfold failed.
  split; intros [r [Hin Hr]]; exists r; split; try exact Hin.
  - destruct (success r); [discriminate | reflexivity].
  - rewrite Hr. reflexivity.
Qed.

Lemma success_count_after_loop (w : world) (accounts : list value) (st : loop_state)
    (ev : list event) :
  account_loop w accounts 0 initial = (Ok st, ev) ->
  (1 <= success_count st
   <-> exists i account x,
         nth_error accounts i = Some account
         /\ fst (check_in_account w account i) = Ok (true, x)).
Proof.
  intros H.
  destruct (account_loop_result w accounts 0 initial st ev H)
    as [rs [_ [Hlen [Hnth [Hcount _]]]]].
  simpl in Hcount. rewrite Hcount. split.
  - intros Hpos.
    destruct (filter success rs) as [|r l] eqn:Ef; [simpl in Hpos; lia|].
    assert (Hin : In r (filter success rs)) by (rewrite Ef; left; reflexivity).
    apply filter_In in Hin. destruct Hin as [Hin Hs].
    apply In_nth_error in Hin. destruct Hin as [j Hj].
    assert (Hlt : j < List.length accounts).
    { rewrite <- Hlen. apply nth_error_Some. rewrite Hj. discriminate. }
    apply nth_error_Some in Hlt.
    destruct (nth_error accounts j) as [account|] eqn:Ea; [|contradiction Hlt; reflexivity].
    destruct (Hnth j account Ea) as [r' [Hr' [_ Hrec]]].
    rewrite Hj in Hr'. inversion Hr'; subst r'. simpl in Hrec.
    exists j, account.
    destruct (fst (check_in_account w account j)) as [[s x]|[cls msg| |code]].
    + destruct Hrec as [Hs' _]. rewrite Hs in Hs'. subst s. exists x. split; [exact Ea | reflexivity].
    + destruct Hrec as [Hs' _]. rewrite Hs in Hs'. discriminate.
    + contradiction.
    + contradiction.
  - intros [i [account [x [Hi Hx]]]].
    destruct (Hnth i account Hi) as [r [Hr [_ Hrec]]].
    simpl in Hrec. rewrite Hx in Hrec. destruct Hrec as [Hs _].
    assert (Hin : In r (filter success rs)).
    { apply filter_In. split; [eapply nth_error_In; exact Hr | exact Hs]. }
    destruct (filter success rs); [contradiction | simpl; lia].
Qed.

Lemma results_nonempty (w : world) (accounts : list value) (st : loop_state)
    (ev : list event) :
  account_loop w accounts 0 initial = (Ok st, ev) ->
  accounts <> [] -> nonempty (account_results st) = true.
Proof.
  intros H Hne.
  destruct (account_loop_result w accounts 0 initial st ev H)
    as [rs [Hrs [Hlen _]]].
  simpl in Hrs. rewrite Hrs.
  destruct rs; [|reflexivity].
  destruct accounts; [contradiction Hne; reflexivity | discriminate].
Qed.

Lemma loop_calls_no_notify (w : world) (accounts : list value) (i : nat)
    (st : loop_state) (r : res loop_state) (ev : list event) :
  account_loop w accounts i st = (r, ev) ->
  forall e, In e ev -> exists j, account_event j e.
Proof.
  revert i st r ev.
  induction accounts as [|account accounts IH]; intros i st r ev H e Hin.
  - inversion H; subst. contradiction.
  - cbn [account_loop] in H.
    assert (Hp : Forall (account_event i) (snd (process_account w st i account))).
    { unfold process_account.
      destruct (get_account_display_name account i) as [nm|x]; [|constructor].
      rewrite bind_lift_ok.
      apply only_try_except.
      - apply only_bind; [apply check_in_account_only|].
        intros [s info]. apply only_ret.
      - intros x. apply only_ret. }
    destruct (process_account w st i account) as [[st1|x] ev1].
    + rewrite bind_ok in H.
      destruct (account_loop w accounts (S i) st1) as [r2 ev2] eqn:E2.
      inversion H; subst. apply in_app_or in Hin. destruct Hin as [Hin|Hin].
      * exists i. simpl in Hp. rewrite Forall_forall in Hp. apply Hp. exact Hin.
      * eapply IH; eassumption.
    + rewrite bind_raise in H. inversion H; subst.
      exists i. simpl in Hp. rewrite Forall_forall in Hp. apply Hp. exact Hin.
Qed.

Lemma balance_lines_ok (accounts : list value) :
  accounts_ok accounts = true ->
  forall i b, exists l, balance_lines accounts i b = Ok l.
Proof.
  induction accounts as [|account accounts IH]; intros Hok i b.
  - exists []. reflexivity.
  - simpl in Hok. destruct (account_ok account) eqn:Ha; [|discriminate].
    destruct (IH Hok (S i) b) as [l Hl].
    destruct (ConfigFacts.display_name_ok account i Ha) as [nm Hn].
    simpl. rewrite Hn, Hl.
    destruct (dict_get (account_key i) b); eexists; reflexivity.
Qed.

(** ** The steps of [main] after the loop *)

(** The call of [save_balance_hash], when it is made. *)
Definition saved_by (w : world) (st : loop_state) (file : file_state)
  : file_state * list event :=
  match current_balance_hash st with
  | Some h => save_balance_hash w h file
  | None => (file, [])
  end.

(** The call of [notify.push_message], when it is made. *)
Definition sent_by (w : world) (accounts : list value) (last : option string)
    (st : loop_state) (lines : list balance_line) : M unit :=
  if final_need_notify last st && (nonempty (account_results st) || nonempty lines)
  then call (EvNotify notification_title
               (Notification lines (account_results st) (success_count st)
                  (List.length accounts)))
            (push_message w)
  else ret tt.

(** How the run ends once the notification step is over. *)
Definition exit_of (st : loop_state) (r : res unit) : exn :=
  match r with
  | Raise e => e
  | Ok _ => SystemExit (if (0 <? success_count st)%nat then 0 else 1)%Z
  end.

Lemma after_loop_shape (w : world) (accounts : list value) (last : option string)
    (st : loop_state) (file : file_state) (before : list event) :
  accounts_ok accounts = true ->
  exists lines,
    after_loop w accounts last st file before
    = Run (exit_of st (fst (sent_by w accounts last st lines)))
          (fst (saved_by w st file))
          (before ++ snd (saved_by w st file) ++ snd (sent_by w accounts last st lines)).
Proof.
  intros Hok.
  destruct (balance_lines_ok accounts Hok 0 (current_balances st)) as [l Hl].
  unfold after_loop. rewrite Hl.
  exists (if balance_changed last st then l else []).
  unfold saved_by, sent_by.
  destruct (balance_changed last st);
    (destruct (current_balance_hash st) as [h|] eqn:Eh;
     [rewrite (HashFacts.hash_set_current st h Eh);
      destruct (save_balance_hash w h file) as [file' saved]|]);
    cbn [fst snd];
    match goal with
    | |- context [if ?c then call ?e ?x else ret tt] =>
        destruct c; [destruct x as [[]|cls msg|]|]; reflexivity
    end.
Qed.

Lemma main_without_accounts (w : world) (file : file_state) :
  load_accounts w = None \/ load_accounts w = Some [] ->
  main w file = Run (SystemExit 1) file [].
Proof. unfold main. intros [H|H]; rewrite H; reflexivity. Qed.

Lemma main_with_accounts (w : world) (file : file_state) (accounts : list value)
    (st : loop_state) (ev : list event) :
  load_accounts w = Some accounts -> accounts <> [] ->
  account_loop w accounts 0 initial = (Ok st, ev) ->
  main w file = after_loop w accounts (load_balance_hash file) st file ev.
Proof.
  intros Hl Hne H. unfold main. rewrite Hl.
  destruct accounts as [|a r]; [contradiction Hne; reflexivity|].
  rewrite H. reflexivity.
Qed.

Lemma main_interrupted_loop (w : world) (file : file_state) (accounts : list value)
    (e : exn) (ev : list event) :
  load_accounts w = Some accounts ->
  account_loop w accounts 0 initial = (Raise e, ev) ->
  main w file = Run e file ev.
Proof.
  intros Hl H. unfold main. rewrite Hl.
  destruct accounts as [|a r]; [discriminate H|].
  rewrite H. reflexivity.
Qed.

Lemma saved_by_calls (w : world) (st : loop_state) (file : file_state) (e : event) :
  In e (snd (saved_by w st file)) ->
  exists h, current_balance_hash st = Some h /\ e = EvWriteFile BALANCE_HASH_FILE h.
Proof.
  unfold saved_by. destruct (current_balance_hash st) as [h|]; simpl.
  - intros [H|[]]. exists h. split; [reflexivity | symmetry; exact H].
  - intros [].
Qed.

(** ** When a notification is sent *)

Lemma final_need_notify_cases (last : option string) (st : loop_state) :
  final_need_notify last st = true
  <-> (need_notify st = true
       \/ (exists l c, last = Some l /\ current_balance_hash st = Some c /\ c <> l)
       \/ (last = None /\ exists c, current_balance_hash st = Some c)).
Proof.
  unfold final_need_notify, check_balance.
  destruct (current_balance_hash st) as [c|] eqn:Ec.
  - rewrite (HashFacts.hash_set_current st c Ec).
    destruct last as [l|]; cbn [snd].
    + destruct (String.eqb c l) eqn:Ecl; cbn [negb snd].
      * apply String.eqb_eq in Ecl. subst l. split.
        -- intros H. left. exact H.
        -- intros [H|[[l [c' [Hl [Hc Hne]]]]|[Hl _]]].
           ++ exact H.
           ++ inversion Hl; inversion Hc; subst. contradiction Hne. reflexivity.
           ++ discriminate.
      * apply String.eqb_neq in Ecl. split; [|reflexivity].
        intros _. right. left. exists l, c. repeat split. exact Ecl.
    + split; [|reflexivity]. intros _. right. right. split; [reflexivity | eauto].
  - cbn [hash_set snd]. split.
    + intros H. left. exact H.
    + intros [H|[[l [c [_ [Hc _]]]]|[_ [c Hc]]]]; [exact H | discriminate | discriminate].
Qed.

(** The condition of the notification as the specification words it:
    a failed account, or a previous hash that differs from the
    current one, or no previous hash and a current one. *)
Definition need_notify_as_stated (last current : option string)
    (results : list account_result) : bool :=
  existsb failed results
  || match last, current with
     | Some l, Some c => negb (String.eqb c l)
     | Some _, None => true
     | None, Some _ => true
     | None, None => false
     end.

Definition is_notify (e : event) : bool :=
  match e with
  | EvNotify _ _ => true
  | _ => false
  end.

(** C1, as amended.  After the loop [need_notify] is true exactly when
    the result of an account is a failure, or a previous hash exists
    and the current hash is set and differs from it, or no previous
    hash exists and the current hash is set.  When it is false the
    run calls [push_message] at no point; when it is true (and the
    list of accounts is not empty) the run calls it, with the results
    of all accounts. *)
Theorem need_notify_exactly_when (w : world) (file : file_state) (accounts : list value)
    (st : loop_state) (ev : list event) :
  load_accounts w = Some accounts ->
  account_loop w accounts 0 initial = (Ok st, ev) ->
  let last := load_balance_hash file in
  let current := current_balance_hash st in
  (final_need_notify last st = true
   <-> (failure_recorded st
        \/ (exists l c, last = Some l /\ current = Some c /\ c <> l)
        \/ (last = None /\ exists c, current = Some c)))
  /\ (final_need_notify last st = false ->
      forall title n, ~ In (EvNotify title n) (calls (main w file)))
  /\ (final_need_notify last st = true -> accounts <> [] ->
      exists lines,
        In (EvNotify notification_title
              (Notification lines (account_results st) (success_count st)
                 (List.length accounts)))
           (calls (main w file))).
Proof.
  intros Hl H last current. split; [|split].
  - rewrite final_need_notify_cases, (need_notify_after_loop w accounts st ev H).
    reflexivity.
  - intros Hn title n Hin.
    destruct accounts as [|a r] eqn:Ea.
    { rewrite (main_without_accounts w file (or_intror Hl)) in Hin. exact Hin. }
    rewrite <- Ea in *.
    assert (Hne : accounts <> []) by (rewrite Ea; discriminate).
    rewrite (main_with_accounts w file accounts st ev Hl Hne H) in Hin.
    destruct (after_loop_shape w accounts last st file ev
                (ConfigFacts.load_accounts_ok w accounts Hl)) as [lines Hshape].
    fold last in Hin. rewrite Hshape in Hin. cbn [calls] in Hin.
    unfold sent_by in Hin. rewrite Hn in Hin. cbn [andb ret snd] in Hin.
    rewrite app_nil_r in Hin. apply in_app_or in Hin. destruct Hin as [Hin|Hin].
    + destruct (loop_calls_no_notify w accounts 0 initial _ ev H _ Hin) as [j Hj].
      exact Hj.
    + apply saved_by_calls in Hin. destruct Hin as [h [_ Hh]]. discriminate.
  - intros Hn Hne.
    rewrite (main_with_accounts w file accounts st ev Hl Hne H).
    destruct (after_loop_shape w accounts last st file ev
                (ConfigFacts.load_accounts_ok w accounts Hl)) as [lines Hshape].
    fold last. rewrite Hshape. cbn [calls].
    exists lines. apply in_or_app. right. apply in_or_app. right.
    unfold sent_by. rewrite Hn, (results_nonempty w accounts st ev H Hne).
    cbn [andb orb]. destruct (push_message w) as [[]|cls msg|]; left; reflexivity.
Qed.

Lemma need_notify_exactly_when_witness :
  exists st,
    fst (account_loop Scenarios.world_mixed
           [VDict [("cookies", VStr "session=abc"); ("api_user", VStr "1001")];
            VDict [("name", VStr "spare"); ("cookies", VDict [("session", VStr "xyz")]);
                   ("api_user", VStr "1002")]] 0 initial) = Ok st
    /\ load_balance_hash NoFile = None
    /\ current_balance_hash st = Some "ea2361fbc9eb1a45"
    /\ final_need_notify None st = true
    /\ (exists lines,
          In (EvNotify notification_title
                (Notification lines (account_results st) (success_count st) 2))
             (calls (main Scenarios.world_mixed NoFile))).
Proof.
  destruct (account_loop Scenarios.world_mixed
              [VDict [("cookies", VStr "session=abc"); ("api_user", VStr "1001")];
               VDict [("name", VStr "spare"); ("cookies", VDict [("session", VStr "xyz")]);
                      ("api_user", VStr "1002")]] 0 initial) as [[st|e] ev] eqn:H;
    [|vm_compute in H; discriminate H].
  destruct (need_notify_exactly_when Scenarios.world_mixed NoFile _ st ev eq_refl H)
    as [Hiff [_ Hyes]].
  assert (Hc : current_balance_hash st = Some "ea2361fbc9eb1a45").
  { vm_compute in H. inversion H. vm_compute. reflexivity. }
  assert (Hn : final_need_notify None st = true).
  { apply Hiff. right. right. split; [reflexivity | eexists; exact Hc]. }
  exists st. split; [reflexivity|]. split; [reflexivity|]. split; [exact Hc|].
  split; [exact Hn|].
  apply Hyes; [exact Hn | discriminate].
Defined.

(** The claim C1 as it is stated fails where a previous hash exists
    and no balance was read: the only account checks in, its profile
    request is answered with status 500, and the hash file holds an
    earlier hash.  The stated condition holds (the previous hash
    differs from the current one, which is [None]); [need_notify]
    stays false and no notification is sent. *)
Lemma need_notify_unset_without_current_hash :
  exists st ev,
    account_loop Scenarios.world_no_balance
      [VDict [("cookies", VStr "session=abc"); ("api_user", VStr "1001")]] 0 initial
    = (Ok st, ev)
    /\ load_accounts Scenarios.world_no_balance
       = Some [VDict [("cookies", VStr "session=abc"); ("api_user", VStr "1001")]]
    /\ load_balance_hash (File Scenarios.old_hash) = Some Scenarios.old_hash
    /\ current_balance_hash st = None
    /\ existsb failed (account_results st) = false
    /\ need_notify_as_stated (Some Scenarios.old_hash) (current_balance_hash st)
         (account_results st) = true
    /\ final_need_notify (Some Scenarios.old_hash) st = false
    /\ existsb is_notify (calls (main Scenarios.world_no_balance (File Scenarios.old_hash)))
       = false.
Proof.
  destruct (account_loop Scenarios.world_no_balance
              [VDict [("cookies", VStr "session=abc"); ("api_user", VStr "1001")]] 0 initial)
    as [r ev] eqn:H.
  vm_compute in H. inversion H; subst r ev; clear H.
  eexists. eexists. split; [reflexivity|].
  vm_compute. repeat split.
Qed.

(** ** No [sys.exit] before the end of [main] *)

(** The computation does not raise [SystemExit]. *)
Definition no_exit {A} (r : res A) : Prop :=
  match r with
  | Raise (SystemExit _) => False
  | _ => True
  end.

Definition staying {A} (m : M A) : Prop := no_exit (fst m).

Lemma mild_no_exit {A} (r : res A) : mild r -> no_exit r.
Proof. destruct r as [a|[cls msg| |c]]; simpl; intros H; exact H || exact I. Qed.

Lemma to_res_no_exit {A} (x : answer A) : no_exit (to_res x).
Proof. destruct x; exact I. Qed.

Lemma staying_ret {A} (a : A) : staying (ret a).
Proof. exact I. Qed.

Lemma staying_lift {A} (r : res A) : no_exit r -> staying (lift r).
Proof. intros H. exact H. Qed.

Lemma staying_call {A} (ev : event) (x : answer A) : staying (call ev x).
Proof. apply to_res_no_exit. Qed.

Lemma staying_bind {A B} (m : M A) (k : A -> M B) :
  staying m -> (forall a, staying (k a)) -> staying (bind m k).
Proof.
  unfold staying. destruct m as [[a|e] ev]; simpl; intros Hm Hk; [|exact Hm].
  specialize (Hk a). destruct (k a) as [r ev']. exact Hk.
Qed.

Lemma staying_try_except {A} (body : M A) (handler : string -> M A) :
  staying body -> (forall e, staying (handler e)) -> staying (try_except body handler).
Proof.
  unfold staying, try_except. destruct body as [[a|[cls msg| |c]] ev]; simpl;
    intros Hb Hh; try exact Hb.
  specialize (Hh msg). destruct (handler msg) as [r ev']. exact Hh.
Qed.

Lemma staying_try_except_class {A} (cls : string) (body handler : M A) :
  staying body -> staying handler -> staying (try_except_class cls body handler).
Proof.
  unfold staying, try_except_class. destruct body as [[a|[c msg| |c]] ev]; simpl;
    intros Hb Hh; try exact Hb.
  destruct (String.eqb c cls); [|exact I].
  destruct handler as [r ev']. exact Hh.
Qed.

Lemma staying_try_finally {A} (body : M A) (fin : M unit) :
  staying body -> staying fin -> staying (try_finally body fin).
Proof.
  unfold staying, try_finally. destruct body as [r ev], fin as [[u|e] ev']; simpl;
    intros Hb Hf; assumption.
Qed.

Ltac staying_auto :=
  repeat
    first
      [ apply staying_ret
      | match goal with
        | |- staying (call _ _) => apply staying_call
        end
      | apply staying_lift;
        first
          [ apply to_res_no_exit
          | apply mild_no_exit;
            first
              [ apply ProfileFacts.get_mild
              | apply ProfileFacts.scaled_mild
              | apply parse_cookies_mild
              | apply collect_waf_mild
              | apply body_says_success_mild ] ]
      | apply staying_bind; [|intros ?]
      | apply staying_try_except; [|intros ?]
      | apply staying_try_except_class
      | apply staying_try_finally
      | match goal with
        | |- staying (let _ := _ in _) => cbv zeta
        | |- staying (if ?c then _ else _) => destruct c
        | |- staying (match ?x with _ => _ end) => destruct x
        end ].

Lemma read_checkin_staying (resp : response) (info : user_info_t) :
  staying (read_checkin resp info).
Proof. unfold read_checkin. staying_auto. Qed.

Lemma check_in_account_staying (w : world) (account : value) (i : nat) :
  staying (check_in_account w account i).
Proof.
  unfold check_in_account, get_account_display_name. staying_auto.
  apply read_checkin_staying.
Qed.

Lemma account_loop_staying (w : world) (accounts : list value) :
  forall i st, staying (account_loop w accounts i st).
Proof.
  induction accounts as [|account accounts IH]; intros i st; [exact I|].
  cbn [account_loop]. apply staying_bind; [|intros st'; apply IH].
  unfold process_account, get_account_display_name.
  apply staying_bind; [apply staying_lift, mild_no_exit, ProfileFacts.get_mild|].
  intros account_name. apply staying_try_except; [|intros e; exact I].
  apply staying_bind; [apply check_in_account_staying|].
  intros [s info]. exact I.
Qed.

(** ** The hash file *)

Lemma loop_of_no_accounts (w : world) (st : loop_state) (ev : list event) :
  account_loop w [] 0 initial = (Ok st, ev) -> st = initial /\ ev = [].
Proof. intros H. inversion H. split; reflexivity. Qed.

Lemma sent_by_calls (w : world) (accounts : list value) (last : option string)
    (st : loop_state) (lines : list balance_line) (e : event) :
  In e (snd (sent_by w accounts last st lines)) -> is_notify e = true.
Proof.
  unfold sent_by.
  destruct (final_need_notify last st && _); simpl; [|intros []].
  intros [H|[]]. subst e. reflexivity.
Qed.

(** C8.  The current hash is set exactly when the profile of some
    account was read.  When it is set, the run calls
    [save_balance_hash] with it, whether a notification is sent or
    not and whatever [push_message] does, and the hash file holds it
    afterwards unless the write fails; when it is not set, the run
    writes no file and the hash file is as it was. *)
Theorem balance_hash_saved_when_set (w : world) (file : file_state)
    (accounts : list value) (st : loop_state) (ev : list event) :
  load_accounts w = Some accounts ->
  account_loop w accounts 0 initial = (Ok st, ev) ->
  let r := main w file in
  ((exists h, current_balance_hash st = Some h)
   <-> exists i account, nth_error accounts i = Some account /\ read_balance w i account)
  /\ (forall h,
        current_balance_hash st = Some h ->
        In (EvWriteFile BALANCE_HASH_FILE h) (calls r)
        /\ (write_fault w = None -> file_after r = File h))
  /\ (current_balance_hash st = None ->
      file_after r = file
      /\ forall path content, ~ In (EvWriteFile path content) (calls r)).
Proof.
  intros Hl H r. subst r.
  assert (Hok : accounts_ok accounts = true) by exact (ConfigFacts.load_accounts_ok w accounts Hl).
  split; [|split].
  - pose proof (account_loop_balances w accounts 0 initial st ev H) as Hb.
    simpl in Hb. unfold current_balance_hash.
    split.
    + intros [h Hh]. destruct Hb as [Hb _].
      destruct (current_balances st) as [|kv b]; [discriminate Hh|].
      destruct Hb as [Hb|Hb]; [discriminate | contradiction Hb; reflexivity | exact Hb].
    + intros Hr. destruct Hb as [_ Hb].
      specialize (Hb (or_intror Hr)).
      destruct (current_balances st) as [|kv b]; [contradiction Hb; reflexivity|].
      eexists. reflexivity.
  - intros h Hh.
    assert (Hne : accounts <> []).
    { intros E. subst accounts. apply loop_of_no_accounts in H. destruct H as [H _].
      subst st. discriminate Hh. }
    rewrite (main_with_accounts w file accounts st ev Hl Hne H).
    destruct (after_loop_shape w accounts (load_balance_hash file) st file ev Hok)
      as [lines Hshape].
    rewrite Hshape. cbn [calls file_after]. unfold saved_by. rewrite Hh.
    unfold save_balance_hash. cbn [fst snd]. split.
    + apply in_or_app. right. left. reflexivity.
    + intros Hw. rewrite Hw. reflexivity.
  - intros Hn.
    destruct accounts as [|a l] eqn:Ea.
    { rewrite (main_without_accounts w file (or_intror Hl)). simpl.
      split; [reflexivity | intros path content []]. }
    rewrite <- Ea in *.
    assert (Hne : accounts <> []) by (rewrite Ea; discriminate).
    rewrite (main_with_accounts w file accounts st ev Hl Hne H).
    destruct (after_loop_shape w accounts (load_balance_hash file) st file ev Hok)
      as [lines Hshape].
    rewrite Hshape. cbn [calls file_after]. unfold saved_by. rewrite Hn.
    cbn [fst snd app]. split; [reflexivity|].
    intros path content Hin. apply in_app_or in Hin. destruct Hin as [Hin|Hin].
    + destruct (loop_calls_no_notify w accounts 0 initial _ ev H _ Hin) as [j Hj].
      exact Hj.
    + apply sent_by_calls in Hin. discriminate Hin.
Qed.

Lemma balance_hash_saved_when_set_witness :
  In (EvWriteFile BALANCE_HASH_FILE "ea2361fbc9eb1a45")
     (calls (main Scenarios.world_mixed (File Scenarios.old_hash)))
  /\ file_after (main Scenarios.world_mixed (File Scenarios.old_hash))
     = File "ea2361fbc9eb1a45".
Proof.
  destruct (account_loop Scenarios.world_mixed
              [VDict [("cookies", VStr "session=abc"); ("api_user", VStr "1001")];
               VDict [("name", VStr "spare"); ("cookies", VDict [("session", VStr "xyz")]);
                      ("api_user", VStr "1002")]] 0 initial) as [[st|e] ev] eqn:H;
    [|vm_compute in H; discriminate H].
  destruct (balance_hash_saved_when_set Scenarios.world_mixed (File Scenarios.old_hash)
              _ st ev eq_refl H) as [_ [Hset _]].
  assert (Hc : current_balance_hash st = Some "ea2361fbc9eb1a45").
  { vm_compute in H. inversion H. vm_compute. reflexivity. }
  destruct (Hset _ Hc) as [Hin Hfile].
  split; [exact Hin | apply Hfile; reflexivity].
Defined.

(** ** The exit code *)

Lemma sent_by_result (w : world) (accounts : list value) (last : option string)
    (st : loop_state) (lines : list balance_line) :
  fst (sent_by w accounts last st lines) = Ok tt
  \/ (push_message w <> Returns tt
      /\ ((exists cls msg, fst (sent_by w accounts last st lines) = Raise (Exception cls msg))
          \/ fst (sent_by w accounts last st lines) = Raise KeyboardInterrupt)).
Proof.
  unfold sent_by.
  destruct (final_need_notify last st && _); [|left; reflexivity].
  destruct (push_message w) as [[]|cls msg|]; simpl.
  - left. reflexivity.
  - right. split; [discriminate | left; eauto].
  - right. split; [discriminate | right; reflexivity].
Qed.

(** C2.  The exit code is 0 or 1.  It is 1, and nothing was called,
    when the configuration does not load or lists no account.  Once
    the loop over the accounts has ended, [success_count] is at least
    1 exactly when the check-in of some account succeeded; a run that
    reaches its last [sys.exit] has exit code 0 exactly when
    [success_count] is at least 1, and it reaches it whenever
    [push_message] returns; the exit code is 1 when no account
    succeeded.  The exit code is 0 only if the loop ended with a
    [success_count] of at least 1, and it is 1 when the run ends with
    an exception or a keyboard interrupt. *)
Theorem exit_code_zero_iff_success (w : world) (file : file_state) :
  let code := fst (run_main w file) in
  let r := snd (run_main w file) in
  (code = 0 \/ code = 1)%Z
  /\ (load_accounts w = None \/ load_accounts w = Some [] ->
      code = 1%Z /\ calls r = [])
  /\ (forall accounts st ev,
        load_accounts w = Some accounts ->
        account_loop w accounts 0 initial = (Ok st, ev) ->
        (1 <= success_count st
         <-> exists i account x,
               nth_error accounts i = Some account
               /\ fst (check_in_account w account i) = Ok (true, x))
        /\ (ended r = SystemExit code -> (code = 0%Z <-> 1 <= success_count st))
        /\ (push_message w = Returns tt -> ended r = SystemExit code)
        /\ (success_count st = 0 -> code = 1%Z))
  /\ (code = 0%Z ->
      exists accounts st ev,
        load_accounts w = Some accounts
        /\ account_loop w accounts 0 initial = (Ok st, ev)
        /\ 1 <= success_count st
        /\ ended r = SystemExit 0)
  /\ (forall cls msg, ended r = Exception cls msg -> code = 1%Z)
  /\ (ended r = KeyboardInterrupt -> code = 1%Z).
Proof.
  cbv zeta. unfold run_main. cbn [fst snd].
  assert (Hloop : forall accounts st ev,
             load_accounts w = Some accounts ->
             account_loop w accounts 0 initial = (Ok st, ev) ->
             (ended (main w file)
              = SystemExit (if (0 <? success_count st)%nat then 0 else 1)%Z)
             \/ (push_message w <> Returns tt
                 /\ ((exists cls msg, ended (main w file) = Exception cls msg)
                     \/ ended (main w file) = KeyboardInterrupt))).
  { intros accounts st ev Hl H.
    destruct accounts as [|a l] eqn:Ea.
    { rewrite (main_without_accounts w file (or_intror Hl)).
      apply loop_of_no_accounts in H. destruct H as [H _]. subst st. left. reflexivity. }
    rewrite <- Ea in *.
    assert (Hne : accounts <> []) by (rewrite Ea; discriminate).
    rewrite (main_with_accounts w file accounts st ev Hl Hne H).
    destruct (after_loop_shape w accounts (load_balance_hash file) st file ev
                (ConfigFacts.load_accounts_ok w accounts Hl)) as [lines Hshape].
    rewrite Hshape. cbn [ended].
    destruct (sent_by_result w accounts (load_balance_hash file) st lines)
      as [Hs|[Hp [[cls [msg Hs]]|Hs]]]; rewrite Hs; cbn [exit_of].
    - left. reflexivity.
    - right. split; [exact Hp | left; eauto].
    - right. split; [exact Hp | right; reflexivity]. }
  split; [|split; [|split; [|split; [|split]]]].
  - destruct (load_accounts w) as [accounts|] eqn:Hl;
      [|rewrite (main_without_accounts w file (or_introl Hl)); right; reflexivity].
    destruct (account_loop w accounts 0 initial) as [[st|e] ev] eqn:H.
    + destruct (Hloop accounts st ev eq_refl H) as [He|[_ [[cls [msg He]]|He]]];
        rewrite He; [|right; reflexivity|right; reflexivity].
      destruct (0 <? success_count st)%nat; [left | right]; reflexivity.
    + rewrite (main_interrupted_loop w file accounts e ev Hl H). cbn [ended].
      pose proof (account_loop_staying w accounts 0 initial) as Hs.
      unfold staying in Hs. rewrite H in Hs.
      destruct e; [right; reflexivity | right; reflexivity | contradiction].
  - intros Hl. rewrite (main_without_accounts w file Hl). split; reflexivity.
  - intros accounts st ev Hl H.
    split; [exact (success_count_after_loop w accounts st ev H)|].
    destruct (Hloop accounts st ev Hl H) as [He|[Hp [[cls [msg He]]|He]]]; rewrite He.
    + destruct (success_count st) as [|n]; cbn [Nat.ltb Nat.leb].
      * split; [intros _; split; [discriminate | lia]|].
        split; intros; reflexivity.
      * split; [intros _; split; [lia | reflexivity]|].
        split; [intros _; reflexivity | discriminate].
    + split; [discriminate|]. split; [intros Hr; contradiction | reflexivity].
    + split; [discriminate|]. split; [intros Hr; contradiction | reflexivity].
  - destruct (load_accounts w) as [accounts|] eqn:Hl;
      [|rewrite (main_without_accounts w file (or_introl Hl)); discriminate].
    destruct (account_loop w accounts 0 initial) as [[st|e] ev] eqn:H.
    + destruct (Hloop accounts st ev eq_refl H) as [He|[_ [[cls [msg He]]|He]]];
        rewrite He; [|discriminate|discriminate].
      destruct (success_count st) as [|n] eqn:En; cbn [Nat.ltb Nat.leb]; [discriminate|].
      intros _. exists accounts, st, ev. rewrite En.
      split; [reflexivity|]. split; [exact H|]. split; [lia | reflexivity].
    + rewrite (main_interrupted_loop w file accounts e ev Hl H). cbn [ended].
      pose proof (account_loop_staying w accounts 0 initial) as Hs.
      unfold staying in Hs. rewrite H in Hs.
      destruct e; [discriminate | discriminate | contradiction].
  - intros cls msg He. rewrite He. reflexivity.
  - intros He. rewrite He. reflexivity.
Qed.

(** The exit codes of three runs: the only account checks in; both
    accounts fail before any request; one of two accounts checks in. *)
Example exit_codes :
  fst (run_main Scenarios.world_no_balance NoFile) = 0%Z
  /\ fst (run_main Scenarios.world_empty_api_user NoFile) = 1%Z
  /\ fst (run_main Scenarios.world_client_fails NoFile) = 0%Z.
Proof. vm_compute. repeat split. Qed.

End MainFacts.

(* ================================================================== *)
(** * The balance hash and its file *)
(* ================================================================== *)

Module HashFileFacts.

Import Py World Checkin MonadFacts LoopFacts MainFacts.

(** ** Strings of plain characters *)

Definition single (c : ascii) : string := String c EmptyString.

(** A byte that is a character of its own and not a blank. *)
Definition plain (c : ascii) : bool :=
  negb (PyStr.is_continuation c) && negb (PyStr.isspace (single c)).

Definition plain_string (s : string) : bool := forallb plain (list_ascii_of_string s).

Lemma chars_plain (s : string) :
  plain_string s = true -> PyStr.chars s = map single (list_ascii_of_string s).
Proof.
  unfold plain_string. induction s as [|c r IH]; [reflexivity|].
  cbn [list_ascii_of_string forallb map]. intros H.
  apply andb_true_iff in H. destruct H as [_ Hr].
  cbn [PyStr.chars]. rewrite (IH Hr).
  destruct r as [|c' r']; [reflexivity|].
  cbn [list_ascii_of_string map PyStr.starts_with_continuation].
  cbn [list_ascii_of_string forallb] in Hr.
  apply andb_true_iff in Hr. destruct Hr as [Hc' _].
  unfold plain in Hc'. apply andb_true_iff in Hc'. destruct Hc' as [Hc' _].
  apply negb_true_iff in Hc'. rewrite Hc'. reflexivity.
Qed.

Lemma join_singles (l : list ascii) :
  PyStr.join (map single l) = string_of_list_ascii l.
Proof.
  induction l as [|c l IH]; [reflexivity|].
  cbn [map]. rewrite StrFacts.join_cons, IH. reflexivity.
Qed.

Lemma drop_while_head {A} (p : A -> bool) (l : list A) :
  match l with x :: _ => p x = false | [] => True end -> PyStr.drop_while p l = l.
Proof. destruct l as [|x r]; [reflexivity|]. simpl. intros H. rewrite H. reflexivity. Qed.

Lemma strip_plain (s : string) : plain_string s = true -> PyStr.strip s = s.
Proof.
  intros H. unfold PyStr.strip. rewrite (chars_plain s H).
  assert (Hall : Forall (fun ch => PyStr.isspace ch = false)
                   (map single (list_ascii_of_string s))).
  { unfold plain_string in H. rewrite forallb_forall in H.
    apply Forall_forall. intros ch Hin. apply in_map_iff in Hin.
    destruct Hin as [c [Hc Hin]]. subst ch.
    specialize (H c Hin). unfold plain in H.
    apply andb_true_iff in H. destruct H as [_ H]. apply negb_true_iff in H. exact H. }
  rewrite (drop_while_head PyStr.isspace (map single (list_ascii_of_string s))).
  2: { destruct (map single (list_ascii_of_string s)); [exact I|].
       exact (Forall_inv Hall). }
  rewrite (drop_while_head PyStr.isspace (rev (map single (list_ascii_of_string s)))).
  2: { apply Forall_rev in Hall.
       destruct (rev (map single (list_ascii_of_string s))); [exact I|].
       exact (Forall_inv Hall). }
  rewrite rev_involutive, join_singles. apply string_of_list_ascii_of_string.
Qed.

Lemma slice_to_plain (n : nat) (s : string) :
  plain_string s = true ->
  PyStr.slice_to n s = string_of_list_ascii (firstn n (list_ascii_of_string s)).
Proof.
  intros H. unfold PyStr.slice_to. rewrite (chars_plain s H).
  rewrite firstn_map. apply join_singles.
Qed.

Lemma len_plain (s : string) : plain_string s = true -> PyStr.len s = String.length s.
Proof.
  intros H. unfold PyStr.len. rewrite (chars_plain s H), length_map.
  clear H. induction s as [|c r IH]; [reflexivity|]. simpl. rewrite IH. reflexivity.
Qed.

(** ** The digits of the digest *)

Definition hex_char (c : ascii) : bool :=
  existsb (Ascii.eqb c) (list_ascii_of_string "0123456789abcdef").

Definition hex_string (s : string) : bool := forallb hex_char (list_ascii_of_string s).

Lemma hex_char_plain (c : ascii) : hex_char c = true -> plain c = true.
Proof.
  destruct c as [[] [] [] [] [] [] [] []]; intros H; try discriminate H; reflexivity.
Qed.

Lemma hex_string_plain (s : string) : hex_string s = true -> plain_string s = true.
Proof.
  unfold hex_string, plain_string. rewrite !forallb_forall.
  intros H c Hc. apply hex_char_plain, H, Hc.
Qed.

Lemma nibble_hex (x i : Z) : hex_char (SHA256.nibble x i) = true.
Proof.
  unfold SHA256.nibble. change 15%Z with (Z.ones 4). rewrite Z.land_ones by lia.
  pose proof (Z.mod_pos_bound (Z.shiftr x (4 * i)) (2 ^ 4) eq_refl) as Hb.
  remember (Z.shiftr x (4 * i) mod 2 ^ 4)%Z as d eqn:Ed. clear Ed.
  change (2 ^ 4)%Z with 16%Z in Hb.
  assert (Hd : (d = 0 \/ d = 1 \/ d = 2 \/ d = 3 \/ d = 4 \/ d = 5 \/ d = 6 \/ d = 7
                \/ d = 8 \/ d = 9 \/ d = 10 \/ d = 11 \/ d = 12 \/ d = 13 \/ d = 14
                \/ d = 15)%Z) by lia.
  repeat (destruct Hd as [Hd|Hd]; [subst d; reflexivity|]).
  subst d. reflexivity.
Qed.

Lemma hex8_hex (x : Z) (rest : string) :
  hex_string rest = true -> hex_string (SHA256.hex8 x rest) = true.
Proof.
  intros H. unfold SHA256.hex8, hex_string. cbn [list_ascii_of_string forallb].
  rewrite !nibble_hex. exact H.
Qed.

Lemma hex_of_words_hex (s : SHA256.words) : hex_string (SHA256.hex_of_words s) = true.
Proof. unfold SHA256.hex_of_words. repeat apply hex8_hex. reflexivity. Qed.

Lemma generate_balance_hash_prefix (b : option (dict balance)) :
  exists s : SHA256.words,
    generate_balance_hash b = SHA256.hex8 (SHA256.ha s) (SHA256.hex8 (SHA256.hb s) EmptyString).
Proof.
  unfold generate_balance_hash, SHA256.hexdigest. cbv zeta.
  match goal with |- context [SHA256.hex_of_words ?d] => exists d; generalize d end.
  intros s.
  rewrite slice_to_plain by apply hex_string_plain, hex_of_words_hex.
  reflexivity.
Qed.

(** The balance hash is a string of exactly 16 characters, each of
    them a lower-case hexadecimal digit, whatever the balances are
    (also for no balances at all). *)
Theorem balance_hash_is_16_hex_digits (b : option (dict balance)) :
  let h := generate_balance_hash b in
  String.length h = 16 /\ PyStr.len h = 16 /\ hex_string h = true.
Proof.
  cbv zeta. destruct (generate_balance_hash_prefix b) as [s E]. rewrite E.
  assert (Hh : hex_string (SHA256.hex8 (SHA256.ha s) (SHA256.hex8 (SHA256.hb s) EmptyString))
               = true) by (repeat apply hex8_hex; reflexivity).
  split; [reflexivity|]. split; [|exact Hh].
  rewrite len_plain by apply hex_string_plain, Hh. reflexivity.
Qed.

Lemma strip_balance_hash (b : option (dict balance)) :
  PyStr.strip (generate_balance_hash b) = generate_balance_hash b.
Proof.
  destruct (generate_balance_hash_prefix b) as [s E]. rewrite E.
  apply strip_plain, hex_string_plain. repeat apply hex8_hex. reflexivity.
Qed.

(** ** The hash on disk *)

(** A hash that [save_balance_hash] wrote is the hash that
    [load_balance_hash] reads back, when the write did not fail. *)
Theorem saved_hash_is_loaded_back (w : world) (b : option (dict balance))
    (file : file_state) :
  write_fault w = None ->
  load_balance_hash (fst (save_balance_hash w (generate_balance_hash b) file))
  = Some (generate_balance_hash b).
Proof.
  intros Hw. unfold save_balance_hash. rewrite Hw. cbn [fst load_balance_hash].
  rewrite strip_balance_hash. reflexivity.
Qed.

Lemma saved_hash_is_loaded_back_witness :
  load_balance_hash
    (fst (save_balance_hash Scenarios.world_mixed
            (generate_balance_hash (Some Scenarios.balances_1)) Unreadable))
  = Some (generate_balance_hash (Some Scenarios.balances_1)).
Proof.
  apply (saved_hash_is_loaded_back Scenarios.world_mixed (Some Scenarios.balances_1)
           Unreadable).
  reflexivity.
Defined.

Lemma after_loop_lines (w : world) (accounts : list value) (last : option string)
    (st : loop_state) (file : file_state) (before : list event) :
  accounts_ok accounts = true ->
  exists lines,
    (balance_changed last st = false -> lines = [])
    /\ after_loop w accounts last st file before
       = Run (exit_of st (fst (sent_by w accounts last st lines)))
           (fst (saved_by w st file))
           (before ++ snd (saved_by w st file) ++ snd (sent_by w accounts last st lines)).
Proof.
  intros Hok.
  destruct (balance_lines_ok accounts Hok 0 (current_balances st)) as [l Hl].
  unfold after_loop. rewrite Hl.
  exists (if balance_changed last st then l else []).
  split; [intros H; rewrite H; reflexivity|].
  unfold saved_by, sent_by.
  destruct (balance_changed last st);
    (destruct (current_balance_hash st) as [h|] eqn:Eh;
     [rewrite (HashFacts.hash_set_current st h Eh);
      destruct (save_balance_hash w h file) as [file' saved]|]);
    cbn [fst snd];
    match goal with
    | |- context [if ?c then call ?e ?x else ret tt] =>
        destruct c; [destruct x as [[]|cls msg|]|]; reflexivity
    end.
Qed.

Lemma current_hash_stripped (st : loop_state) (h : string) :
  current_balance_hash st = Some h -> PyStr.strip h = h.
Proof.
  unfold current_balance_hash. destruct (current_balances st) as [|kv b]; [discriminate|].
  intros H. inversion H. apply strip_balance_hash.
Qed.

(** A run that read balances and wrote their hash, followed by a run
    that reads balances with the same hash: the second run finds the
    balances unchanged, needs a notification exactly when the result
    of an account is a failure, and a notification it sends lists no
    balances. *)
Theorem same_balances_next_run (w1 w2 : world) (file1 : file_state)
    (accounts1 accounts2 : list value) (st1 st2 : loop_state) (ev1 ev2 : list event)
    (h : string) :
  load_accounts w1 = Some accounts1 ->
  account_loop w1 accounts1 0 initial = (Ok st1, ev1) ->
  write_fault w1 = None ->
  current_balance_hash st1 = Some h ->
  load_accounts w2 = Some accounts2 ->
  account_loop w2 accounts2 0 initial = (Ok st2, ev2) ->
  current_balance_hash st2 = Some h ->
  let file2 := file_after (main w1 file1) in
  file2 = File h
  /\ balance_changed (load_balance_hash file2) st2 = false
  /\ (final_need_notify (load_balance_hash file2) st2 = true <-> failure_recorded st2)
  /\ (forall title n,
        In (EvNotify title n) (calls (main w2 file2)) ->
        sent_balances n = [] /\ failure_recorded st2).
Proof.
  intros Hl1 H1 Hw Hc1 Hl2 H2 Hc2 file2.
  assert (Hne : forall w accounts st ev,
             account_loop w accounts 0 initial = (Ok st, ev) ->
             current_balance_hash st = Some h -> accounts <> []).
  { intros w accounts st ev H Hc E. subst accounts.
    apply loop_of_no_accounts in H. destruct H as [H _]. subst st. discriminate Hc. }
  assert (Hfile : file2 = File h).
  { subst file2.
    rewrite (main_with_accounts w1 file1 accounts1 st1 ev1 Hl1 (Hne _ _ _ _ H1 Hc1) H1).
    destruct (after_loop_shape w1 accounts1 (load_balance_hash file1) st1 file1 ev1
                (ConfigFacts.load_accounts_ok w1 accounts1 Hl1)) as [lines Hshape].
    rewrite Hshape. cbn [file_after]. unfold saved_by. rewrite Hc1.
    unfold save_balance_hash. rewrite Hw. reflexivity. }
  assert (Hload : load_balance_hash file2 = Some h).
  { rewrite Hfile. cbn [load_balance_hash]. rewrite (current_hash_stripped st2 h Hc2).
    reflexivity. }
  assert (Hchanged : balance_changed (load_balance_hash file2) st2 = false).
  { rewrite Hload. unfold balance_changed, check_balance. rewrite Hc2.
    rewrite (HashFacts.hash_set_current st2 h Hc2), String.eqb_refl. reflexivity. }
  assert (Hnotify : final_need_notify (load_balance_hash file2) st2 = true
                    <-> failure_recorded st2).
  { rewrite <- (need_notify_after_loop w2 accounts2 st2 ev2 H2).
    rewrite Hload. unfold final_need_notify, check_balance. rewrite Hc2.
    rewrite (HashFacts.hash_set_current st2 h Hc2), String.eqb_refl. reflexivity. }
  split; [exact Hfile|]. split; [exact Hchanged|]. split; [exact Hnotify|].
  intros title n Hin.
  rewrite (main_with_accounts w2 file2 accounts2 st2 ev2 Hl2 (Hne _ _ _ _ H2 Hc2) H2) in Hin.
  destruct (after_loop_lines w2 accounts2 (load_balance_hash file2) st2 file2 ev2
              (ConfigFacts.load_accounts_ok w2 accounts2 Hl2)) as [lines [Hlines Hshape]].
  rewrite Hshape in Hin. cbn [calls] in Hin.
  rewrite (Hlines Hchanged) in Hin.
  apply in_app_or in Hin. destruct Hin as [Hin|Hin].
  { destruct (loop_calls_no_notify w2 accounts2 0 initial _ ev2 H2 _ Hin) as [j Hj].
    contradiction. }
  apply in_app_or in Hin. destruct Hin as [Hin|Hin].
  { apply saved_by_calls in Hin. destruct Hin as [h' [_ Hh']]. discriminate. }
  unfold sent_by in Hin.
  destruct (final_need_notify (load_balance_hash file2) st2) eqn:En.
  - destruct (nonempty (account_results st2) || nonempty []); cbn in Hin;
      [|contradiction].
    destruct Hin as [Hin|[]]. inversion Hin; subst.
    split; [reflexivity | apply Hnotify; reflexivity].
  - cbn in Hin. contradiction.
Qed.

Lemma same_balances_next_run_witness :
  file_after (main Scenarios.world_mixed NoFile) = File "ea2361fbc9eb1a45"
  /\ existsb is_notify
       (calls (main Scenarios.world_mixed (file_after (main Scenarios.world_mixed NoFile))))
     = true.
Proof.
  destruct (account_loop Scenarios.world_mixed
              [VDict [("cookies", VStr "session=abc"); ("api_user", VStr "1001")];
               VDict [("name", VStr "spare"); ("cookies", VDict [("session", VStr "xyz")]);
                      ("api_user", VStr "1002")]] 0 initial) as [[st|e] ev] eqn:H;
    [|vm_compute in H; discriminate H].
  assert (Hc : current_balance_hash st = Some "ea2361fbc9eb1a45").
  { vm_compute in H. inversion H. vm_compute. reflexivity. }
  destruct (same_balances_next_run Scenarios.world_mixed Scenarios.world_mixed NoFile
              _ _ st st ev ev "ea2361fbc9eb1a45" eq_refl H eq_refl Hc eq_refl H Hc)
    as [Hfile _].
  split; [exact Hfile|]. vm_compute. reflexivity.
Defined.

End HashFileFacts.

(* ================================================================== *)
(** * Cookies *)
(* ================================================================== *)

Module CookieFacts.

Import Py World Checkin MonadFacts AccountFacts.

(** ** Dictionaries *)

Lemma dict_get_set {V} (k k' : string) (v : V) (d : dict V) :
  dict_get k (dict_set k' v d) = if String.eqb k k' then Some v else dict_get k d.
Proof.
  induction d as [|[k0 v0] r IH]; simpl.
  - destruct (String.eqb k k'); reflexivity.
  - destruct (String.eqb k' k0) eqn:E0; simpl.
    + apply String.eqb_eq in E0. subst k0.
      destruct (String.eqb k k'); reflexivity.
    + destruct (String.eqb k k0) eqn:E1.
      * apply String.eqb_eq in E1. subst k0.
        rewrite String.eqb_sym in E0. rewrite E0. reflexivity.
      * exact IH.
Qed.

Lemma dict_get_key {V} (k : string) (v : V) (d : dict V) :
  dict_get k d = Some v -> In k (keys d).
Proof.
  induction d as [|[k0 v0] r IH]; simpl; [discriminate|].
  destruct (String.eqb k k0) eqn:E.
  - apply String.eqb_eq in E. intros _. left. symmetry. exact E.
  - intros H. right. exact (IH H).
Qed.

(** [{**a, **b}]: the entries of [b] win. *)
Lemma dict_get_merge {V} (k : string) (a b : dict V) :
  NoDup (keys b) ->
  dict_get k (dict_merge a b)
  = match dict_get k b with Some v => Some v | None => dict_get k a end.
Proof.
  unfold dict_merge. revert a. induction b as [|[k0 v0] r IH]; intros a Hnd.
  - reflexivity.
  - cbn [fold_left fst snd]. inversion Hnd as [|x l Hnot Hnd']; subst.
    rewrite (IH _ Hnd'). cbn [dict_get].
    destruct (String.eqb k k0) eqn:E.
    + apply String.eqb_eq in E. subst k0.
      destruct (dict_get k r) as [v|] eqn:Er.
      * exfalso. apply Hnot. exact (dict_get_key k v r Er).
      * rewrite dict_get_set, String.eqb_refl. reflexivity.
    + destruct (dict_get k r); [reflexivity|].
      rewrite dict_get_set, E. reflexivity.
Qed.

Lemma keys_dict_set {V} (k : string) (v : V) (d : dict V) :
  forall x, In x (keys (dict_set k v d)) <-> x = k \/ In x (keys d).
Proof.
  induction d as [|[k0 v0] r IH]; intros x; simpl.
  - split; [intros [H|[]]; left; symmetry; exact H | intros [H|[]]; left; symmetry; exact H].
  - destruct (String.eqb k k0) eqn:E; simpl.
    + apply String.eqb_eq in E. subst k0. intuition congruence.
    + rewrite IH. intuition congruence.
Qed.

Lemma dict_set_NoDup {V} (k : string) (v : V) (d : dict V) :
  NoDup (keys d) -> NoDup (keys (dict_set k v d)).
Proof.
  induction d as [|[k0 v0] r IH]; simpl; intros Hnd.
  - constructor; [intros [] | constructor].
  - inversion Hnd as [|x l Hnot Hnd']; subst.
    destruct (String.eqb k k0) eqn:E; simpl.
    + apply String.eqb_eq in E. subst k0. constructor; assumption.
    + constructor; [|apply IH; exact Hnd'].
      intros Hin. apply keys_dict_set in Hin. destruct Hin as [Hin|Hin].
      * subst k0. rewrite String.eqb_refl in E. discriminate.
      * exact (Hnot Hin).
Qed.

(** ** [parse_cookies] *)

Definition has_equals (s : string) : bool :=
  existsb (Ascii.eqb "=") (list_ascii_of_string s).

Lemma contains_has_equals (s : string) : PyStr.contains "=" s = has_equals s.
Proof.
  unfold has_equals. induction s as [|c r IH]; [reflexivity|].
  rewrite EarlyFacts.contains_equals_step, IH. cbn [list_ascii_of_string existsb].
  destruct (ascii_dec "=" c) as [E|E].
  - subst c. reflexivity.
  - apply Ascii.eqb_neq in E. rewrite E. reflexivity.
Qed.

(** A string with an [=] splits at the first one, into a part without
    [=] and the rest. *)
Lemma split1_has_equals (s : string) :
  has_equals s = true ->
  exists k v, PyStr.split1 "=" s = [k; v] /\ has_equals k = false.
Proof.
  unfold has_equals. induction s as [|c r IH]; [discriminate|].
  cbn [list_ascii_of_string existsb PyStr.split1].
  rewrite (Ascii.eqb_sym c "=").
  destruct (Ascii.eqb "=" c) eqn:E; cbn [orb].
  - intros _. exists EmptyString, r. split; reflexivity.
  - intros H. destruct (IH H) as [k [v [Hs Hk]]]. rewrite Hs.
    exists (String c k), v. split; [reflexivity|].
    cbn [list_ascii_of_string existsb]. rewrite E. exact Hk.
Qed.

Lemma has_equals_app (a b : string) :
  has_equals (a ++ b) = has_equals a || has_equals b.
Proof.
  unfold has_equals. induction a as [|c r IH]; [reflexivity|].
  cbn [append list_ascii_of_string existsb]. rewrite IH, orb_assoc. reflexivity.
Qed.

Lemma has_equals_join (l : list string) :
  has_equals (PyStr.join l) = existsb has_equals l.
Proof.
  induction l as [|h t IH]; [reflexivity|].
  rewrite StrFacts.join_cons, has_equals_app, IH. reflexivity.
Qed.

Lemma blank_without_equals (ch : string) :
  PyStr.isspace ch = true -> has_equals ch = false.
Proof.
  unfold PyStr.isspace. intros H. apply existsb_exists in H.
  destruct H as [x [Hin Hx]]. apply String.eqb_eq in Hx. subst x.
  assert (Hall : forallb (fun x => negb (has_equals x)) PyStr.whitespace = true)
    by reflexivity.
  rewrite forallb_forall in Hall. apply negb_true_iff, Hall, Hin.
Qed.

Lemma drop_while_keeps {A} (p q : A -> bool) (l : list A) :
  (forall x, p x = true -> q x = false) ->
  existsb q (PyStr.drop_while p l) = existsb q l.
Proof.
  intros H. induction l as [|x r IH]; [reflexivity|].
  simpl. destruct (p x) eqn:E; [|reflexivity].
  rewrite IH, (H x E). reflexivity.
Qed.

Lemma existsb_rev {A} (q : A -> bool) (l : list A) : existsb q (rev l) = existsb q l.
Proof.
  induction l as [|x r IH]; [reflexivity|].
  simpl. rewrite existsb_app, IH. simpl. rewrite orb_false_r. apply orb_comm.
Qed.

(** [strip] removes no [=]. *)
Lemma strip_has_equals (s : string) : has_equals (PyStr.strip s) = has_equals s.
Proof.
  unfold PyStr.strip.
  rewrite has_equals_join, existsb_rev, drop_while_keeps by apply blank_without_equals.
  rewrite existsb_rev, drop_while_keeps by apply blank_without_equals.
  rewrite <- has_equals_join, StrFacts.join_chars. reflexivity.
Qed.

(** What the loop of [parse_cookies] keeps true of the dictionary it
    builds: distinct keys without [=], and strings as values. *)
Definition cookie_dict (d : dict value) : Prop :=
  NoDup (keys d)
  /\ forall k v, dict_get k d = Some v -> has_equals k = false /\ is_str v = true.

Lemma parse_cookie_item_ok (d : dict value) (cookie : string) :
  cookie_dict d ->
  exists d', parse_cookie_item (Ok d) cookie = Ok d' /\ cookie_dict d'.
Proof.
  intros [Hnd Hd]. unfold parse_cookie_item. rewrite contains_has_equals.
  destruct (has_equals cookie) eqn:E; [|exists d; split; [reflexivity | split; assumption]].
  rewrite <- strip_has_equals in E.
  destruct (split1_has_equals _ E) as [k [v [Hs Hk]]]. rewrite Hs.
  exists (dict_set k (VStr v) d). split; [reflexivity|]. split.
  - apply dict_set_NoDup, Hnd.
  - intros k' v'. rewrite dict_get_set.
    destruct (String.eqb k' k) eqn:Ek.
    + apply String.eqb_eq in Ek. subst k'. intros H. inversion H; subst.
      split; [exact Hk | reflexivity].
    + apply Hd.
Qed.

Lemma parse_cookie_items_ok (pieces : list string) :
  forall d, cookie_dict d ->
  exists d', fold_left parse_cookie_item pieces (Ok d) = Ok d' /\ cookie_dict d'.
Proof.
  induction pieces as [|p l IH]; intros d Hd.
  - exists d. split; [reflexivity | exact Hd].
  - cbn [fold_left]. destruct (parse_cookie_item_ok d p Hd) as [d1 [H1 Hd1]].
    rewrite H1. apply IH, Hd1.
Qed.

(** [parse_cookies] raises for no value.  A dictionary is returned as
    it is; the dictionary made from a string has strings as values and
    keys without [=] (an item is cut at its first [=]); every other
    value gives the empty dictionary. *)
Theorem parse_cookies_never_raises (cookies_data : value) :
  exists d,
    parse_cookies cookies_data = Ok d
    /\ (forall d0, cookies_data = VDict d0 -> d = d0)
    /\ (is_str cookies_data = true -> cookie_dict d)
    /\ (is_str cookies_data = false -> is_dict cookies_data = false -> d = []).
Proof.
  destruct cookies_data as [|b|z|x|s|l|d0]; cbn [parse_cookies];
    try (exists []; split; [reflexivity|]; split; [discriminate|];
         split; [discriminate | reflexivity]).
  - destruct (parse_cookie_items_ok (PyStr.split ";" s) []) as [d [H Hd]].
    { split; [constructor | discriminate]. }
    exists d. split; [exact H|]. split; [discriminate|].
    split; [intros _; exact Hd | discriminate].
  - exists d0. split; [reflexivity|]. split; [intros d1 H; inversion H; reflexivity|].
    split; discriminate.
Qed.

(** ** What a computation returns *)

(** Every value the computation returns satisfies [P]. *)
Definition returns {A} (P : A -> Prop) (m : M A) : Prop :=
  forall a, fst m = Ok a -> P a.

Lemma returns_ret {A} (P : A -> Prop) (a : A) : P a -> returns P (ret a).
Proof. intros H x E. inversion E; subst. exact H. Qed.

Lemma returns_bind {A B} (P : B -> Prop) (m : M A) (k : A -> M B) :
  (forall a, fst m = Ok a -> returns P (k a)) -> returns P (bind m k).
Proof.
  unfold returns. destruct m as [[a|e] ev]; simpl; intros H b E; [|discriminate].
  specialize (H a eq_refl b). destruct (k a) as [r ev']. exact (H E).
Qed.

Lemma returns_try_except {A} (P : A -> Prop) (body : M A) (handler : string -> M A) :
  returns P body -> (forall e, returns P (handler e)) ->
  returns P (try_except body handler).
Proof.
  unfold returns, try_except. destruct body as [[a|[cls msg| |c]] ev]; simpl;
    intros Hb Hh x E; try discriminate; [exact (Hb x E)|].
  specialize (Hh msg x). destruct (handler msg) as [r ev']. exact (Hh E).
Qed.

Lemma returns_try_finally {A} (P : A -> Prop) (body : M A) (fin : M unit) :
  returns P body -> returns P (try_finally body fin).
Proof.
  unfold returns, try_finally. destruct body as [r ev], fin as [[u|e] ev']; simpl;
    intros Hb x E; [exact (Hb x E) | discriminate].
Qed.

(** ** The cookies of the browser *)

(** The dictionary holds a value other than [None] for each of the
    three cookie names, and nothing else. *)
Definition waf_complete (d : dict value) : Prop :=
  (forall c, In c required_cookies -> exists v, dict_get c d = Some v)
  /\ (forall k v, dict_get k d = Some v -> In k required_cookies /\ is_none v = false)
  /\ NoDup (keys d).

Definition waf_partial (d : dict value) : Prop :=
  (forall k v, dict_get k d = Some v -> In k required_cookies /\ is_none v = false)
  /\ NoDup (keys d).

Lemma collect_waf_partial (cookies : list value) :
  forall acc d, waf_partial acc -> collect_waf cookies acc = Ok d -> waf_partial d.
Proof.
  induction cookies as [|cookie r IH]; intros acc d Hacc H.
  - inversion H; subst. exact Hacc.
  - cbn [collect_waf] in H.
    destruct (get cookie "name" VNone) as [n|e]; [|discriminate].
    destruct (get cookie "value" VNone) as [v|e]; [|discriminate].
    destruct n as [| | | |s| |]; try (eapply IH; eassumption).
    destruct (existsb (String.eqb s) required_cookies) eqn:Es; cbn [andb] in H;
      [|eapply IH; eassumption].
    destruct (is_none v) eqn:Ev; cbn [negb] in H; [eapply IH; eassumption|].
    refine (IH _ d _ H). destruct Hacc as [Hacc Hnd]. split.
    + intros k' v'. rewrite dict_get_set.
      destruct (String.eqb k' s) eqn:Ek; [|apply Hacc].
      apply String.eqb_eq in Ek. subst k'. intros E. inversion E; subst.
      split; [|exact Ev].
      apply existsb_exists in Es. destruct Es as [x [Hin Hx]].
      apply String.eqb_eq in Hx. subst x. exact Hin.
    + apply dict_set_NoDup, Hnd.
Qed.

Lemma none_missing (d : dict value) :
  filter (fun c => negb (dict_mem c d)) required_cookies = [] ->
  forall c, In c required_cookies -> exists v, dict_get c d = Some v.
Proof.
  intros H c Hin.
  destruct (dict_get c d) as [v|] eqn:E; [eauto|].
  assert (Hf : In c (filter (fun c => negb (dict_mem c d)) required_cookies)).
  { apply filter_In. split; [exact Hin|]. unfold dict_mem. rewrite E. reflexivity. }
  rewrite H in Hf. contradiction.
Qed.

Definition waf_result (r : option (dict value)) : Prop :=
  match r with
  | Some d => waf_complete d
  | None => True
  end.

Lemma harvest_returns (b : browser) (i : nat) : returns waf_result (harvest b i).
Proof.
  unfold harvest. apply returns_try_except.
  - apply returns_bind. intros _ _. apply returns_bind. intros _ _.
    apply returns_bind. intros cookies _.
    apply returns_bind. intros waf_cookies Hw. cbv zeta.
    cbn [lift fst] in Hw.
    pose proof (collect_waf_partial cookies [] waf_cookies) as Hp.
    destruct (filter (fun c => negb (dict_mem c waf_cookies)) required_cookies) eqn:Ef.
    + apply returns_bind. intros _ _. apply returns_ret.
      destruct Hp as [Hp Hnd]; [split; [discriminate | constructor] | exact Hw |].
      split; [exact (none_missing waf_cookies Ef) | split; assumption].
    + apply returns_bind. intros _ _. apply returns_ret. exact I.
  - intros e. apply returns_bind. intros _ _. apply returns_ret. exact I.
Qed.

Lemma waf_returns (w : world) (i : nat) :
  returns waf_result (get_waf_cookies_with_playwright w i).
Proof.
  unfold get_waf_cookies_with_playwright. cbv zeta.
  apply returns_bind. intros _ _. apply returns_try_finally.
  apply returns_bind. intros _ _. apply returns_bind. intros _ _.
  apply harvest_returns.
Qed.

(** When [get_waf_cookies_with_playwright] returns cookies, they are
    the three cookies [acw_tc], [cdn_sec_tc] and [acw_sc__v2], each
    with a value other than [None], and no other. *)
Theorem waf_cookies_are_the_three (w : world) (i : nat) (d : dict value) :
  fst (get_waf_cookies_with_playwright w i) = Ok (Some d) ->
  (forall c, In c ["acw_tc"; "cdn_sec_tc"; "acw_sc__v2"] ->
             exists v, dict_get c d = Some v /\ is_none v = false)
  /\ (forall k, In k (keys d) -> In k ["acw_tc"; "cdn_sec_tc"; "acw_sc__v2"])
  /\ List.length d = 3.
Proof.
  intros H.
  destruct (waf_returns w i (Some d) H) as [Hall [Honly Hnd]].
  split; [|split].
  - intros c Hc. destruct (Hall c Hc) as [v Hv]. exists v. split; [exact Hv|].
    exact (proj2 (Honly c v Hv)).
  - intros k Hk. apply in_map_iff in Hk. destruct Hk as [[k' v] [Hk Hin]].
    simpl in Hk. subst k'.
    apply (HashFacts.dict_get_In d k v Hnd) in Hin. exact (proj1 (Honly k v Hin)).
  - assert (Hincl : incl (keys d) required_cookies).
    { intros k Hk. apply in_map_iff in Hk. destruct Hk as [[k' v] [Hk Hin]].
      simpl in Hk. subst k'.
      apply (HashFacts.dict_get_In d k v Hnd) in Hin. exact (proj1 (Honly k v Hin)). }
    assert (Hincl' : incl required_cookies (keys d)).
    { intros c Hc. destruct (Hall c Hc) as [v Hv]. exact (dict_get_key c v d Hv). }
    apply Nat.le_antisymm.
    + rewrite <- (length_map fst d). exact (NoDup_incl_length Hnd Hincl).
    + rewrite <- (length_map fst d).
      assert (Hr : NoDup required_cookies).
      { repeat constructor; simpl; intuition discriminate. }
      exact (NoDup_incl_length Hr Hincl').
Qed.

Lemma waf_cookies_are_the_three_witness :
  (forall c, In c ["acw_tc"; "cdn_sec_tc"; "acw_sc__v2"] ->
             exists v,
               dict_get c [("acw_tc", VStr "t1"); ("cdn_sec_tc", VStr "t2");
                           ("acw_sc__v2", VStr "t3")] = Some v
               /\ is_none v = false)
  /\ (forall k,
        In k (keys [("acw_tc", VStr "t1"); ("cdn_sec_tc", VStr "t2");
                    ("acw_sc__v2", VStr "t3")]) ->
        In k ["acw_tc"; "cdn_sec_tc"; "acw_sc__v2"])
  /\ List.length [("acw_tc", VStr "t1"); ("cdn_sec_tc", VStr "t2");
                  ("acw_sc__v2", VStr "t3")] = 3.
Proof.
  apply (waf_cookies_are_the_three Scenarios.world_no_balance 0).
  reflexivity.
Defined.

End CookieFacts.

(* ================================================================== *)
(** * The order of the calls made for an account *)
(* ================================================================== *)

Module ProtocolFacts.

Import Py World Checkin MonadFacts AccountFacts CookieFacts.

(** The three calls of the try block of [check_in_account], in their
    order. *)
Definition client_script (i : nat) (all_cookies : dict value) (api_user : value)
  : list event :=
  [EvCookiesUpdate i all_cookies;
   EvGet i (Request user_url (request_headers api_user) 30);
   EvPost i (Request sign_in_url (checkin_headers api_user) 30)].

Lemma session_calls_script (w : world) (i : nat) (api_user : value)
    (waf_cookies user_cookies : dict value) :
  exists n,
    1 <= n <= 3
    /\ snd (session_calls w i api_user waf_cookies user_cookies)
       = firstn n (client_script i (dict_merge waf_cookies user_cookies) api_user)
         ++ [EvClientClose i].
Proof.
  unfold session_calls, client_script.
  pose proof (ProfileFacts.get_user_info_calls w i (request_headers api_user)) as Hgc.
  destruct (get_user_info w i (request_headers api_user)) as [rg evg].
  simpl in Hgc. subst evg.
  destruct (cookies_update (sessions w i)) as [u|ccls cmsg|];
    destruct (client_close (sessions w i)) as [[]|kcls kmsg|];
    destruct rg as [info|[gcls gmsg| |gcode]];
    destruct (http_post (sessions w i)) as [resp|pcls pmsg|];
    cbn -[read_checkin checkin_headers request_headers dict_merge];
    try (destruct (read_checkin_spec resp info) as [Hev _];
         destruct (read_checkin resp info) as [[[[] x]|[rcls rmsg| |rcode]] evr];
         simpl in Hev; subst evr;
         cbn -[checkin_headers request_headers dict_merge]).
  all: first
         [ exists 1; split; [lia | reflexivity]
         | exists 2; split; [lia | reflexivity]
         | exists 3; split; [lia | reflexivity] ].
Qed.

(** The calls of [check_in_account] are the calls of the browser,
    followed, when the cookies of both kinds are there, by the
    creation of the client and the calls of [session_calls]. *)
Lemma check_in_account_trace (w : world) (account : value) (i : nat) :
  (Forall browser_event (snd (check_in_account w account i)))
  \/ exists api_user cookies_data user_cookies waf_cookies,
       get account "api_user" (VStr "") = Ok api_user
       /\ get account "cookies" (VDict []) = Ok cookies_data
       /\ parse_cookies cookies_data = Ok user_cookies
       /\ fst (get_waf_cookies_with_playwright w i) = Ok (Some waf_cookies)
       /\ snd (check_in_account w account i)
          = snd (get_waf_cookies_with_playwright w i)
            ++ EvClientNew i
               :: match client_new (sessions w i) with
                  | Returns _ => snd (session_calls w i api_user waf_cookies user_cookies)
                  | _ => []
                  end.
Proof.
  unfold check_in_account. cbv zeta.
  destruct (get_account_display_name account i) as [nm|e];
    [rewrite bind_lift_ok | left; constructor].
  destruct (get account "cookies" (VDict [])) as [cookies_data|e] eqn:Ec;
    [rewrite bind_lift_ok | left; constructor].
  destruct (get account "api_user" (VStr "")) as [api_user|e] eqn:Ea;
    [rewrite bind_lift_ok | left; constructor].
  destruct (negb (truthy api_user)); [left; constructor|].
  destruct (parse_cookies cookies_data) as [[|c user_cookies]|e] eqn:Ep;
    [ rewrite bind_lift_ok; left; constructor
    | rewrite bind_lift_ok
    | left; constructor ].
  pose proof (waf_only browser_event w i (fun _ => I)) as Hw. unfold only in Hw.
  destruct (get_waf_cookies_with_playwright w i) as [[[[|k waf_cookies]|]|e] evw];
    simpl in Hw.
  - left. rewrite bind_ok. cbn [ret fst snd]. rewrite app_nil_r. exact Hw.
  - right. exists api_user, cookies_data, (c :: user_cookies), (k :: waf_cookies).
    split; [reflexivity|]. split; [reflexivity|]. split; [exact Ep|].
    split; [reflexivity|].
    rewrite bind_ok. cbn [fst snd].
    destruct (client_new (sessions w i)) as [[]|ncls nmsg|].
    + rewrite bind_call_returns. reflexivity.
    + rewrite bind_call_throws. reflexivity.
    + rewrite bind_call_interrupt. reflexivity.
  - left. rewrite bind_ok. cbn [ret fst snd]. rewrite app_nil_r. exact Hw.
  - left. rewrite bind_raise. exact Hw.
Qed.

Lemma browser_calls_of (i : nat) (ev : list event) :
  Forall browser_event ev -> Forall (account_event i) ev ->
  Forall (fun e => exists c, e = EvBrowser i c) ev.
Proof.
  intros Hb Ha. rewrite Forall_forall in *. intros e Hin.
  specialize (Hb e Hin). specialize (Ha e Hin).
  destruct e; simpl in Hb, Ha; try contradiction. subst. eauto.
Qed.

(** The calls [check_in_account] makes for an account, in their order:
    calls of the browser first; then, if at all, the creation of the
    HTTP client, and, when the client was created, the update of its
    cookies, the profile request and the check-in request, each at
    most once and none without the one before it, and the closing of
    the client as the last call. *)
Theorem check_in_account_protocol (w : world) (account : value) (i : nat) :
  exists browser_calls client_calls,
    snd (check_in_account w account i) = browser_calls ++ client_calls
    /\ Forall (fun e => exists c, e = EvBrowser i c) browser_calls
    /\ (client_calls = []
        \/ (client_calls = [EvClientNew i] /\ client_new (sessions w i) <> Returns tt)
        \/ exists n all_cookies api_user,
             1 <= n <= 3
             /\ client_new (sessions w i) = Returns tt
             /\ get account "api_user" (VStr "") = Ok api_user
             /\ client_calls
                = EvClientNew i
                  :: firstn n (client_script i all_cookies api_user)
                  ++ [EvClientClose i]).
Proof.
  destruct (check_in_account_trace w account i)
    as [Hb | [api_user [cookies_data [user_cookies [waf_cookies [Ha [Hc [Hp [Hw Hev]]]]]]]]].
  - exists (snd (check_in_account w account i)), [].
    split; [rewrite app_nil_r; reflexivity|]. split; [|left; reflexivity].
    apply browser_calls_of; [exact Hb | apply check_in_account_only].
  - exists (snd (get_waf_cookies_with_playwright w i)).
    eexists. split; [exact Hev|]. split.
    + apply browser_calls_of; [apply (waf_only browser_event w i (fun _ => I))|].
      apply (waf_only (account_event i) w i). intros c. reflexivity.
    + destruct (client_new (sessions w i)) as [[]|ncls nmsg|].
      * right. right.
        destruct (session_calls_script w i api_user waf_cookies user_cookies)
          as [n [Hn Hs]].
        exists n, (dict_merge waf_cookies user_cookies), api_user.
        split; [exact Hn|]. split; [reflexivity|]. split; [exact Ha|].
        rewrite Hs. reflexivity.
      * right. left. split; [reflexivity | discriminate].
      * right. left. split; [reflexivity | discriminate].
Qed.

Lemma keys_dict_merge {V} (k : string) (b : dict V) :
  forall a, In k (keys (dict_merge a b)) <-> In k (keys a) \/ In k (keys b).
Proof.
  unfold dict_merge. induction b as [|[k0 v0] r IH]; intros a.
  - simpl. tauto.
  - cbn [fold_left fst snd]. rewrite IH, keys_dict_set. simpl. intuition congruence.
Qed.

Lemma dict_get_merge_left {V} (k : string) (b : dict V) :
  forall a, ~ In k (keys b) -> dict_get k (dict_merge a b) = dict_get k a.
Proof.
  unfold dict_merge. induction b as [|[k0 v0] r IH]; intros a Hk; [reflexivity|].
  cbn [fold_left fst snd]. rewrite IH by (intros H; apply Hk; right; exact H).
  rewrite dict_get_set.
  destruct (String.eqb k k0) eqn:E; [|reflexivity].
  apply String.eqb_eq in E. subst k0. exfalso. apply Hk. left. reflexivity.
Qed.

(** The cookies the HTTP client is given are the cookies of the
    browser overlaid with the cookies of the account record: every one
    of the three cookie names of the browser and every cookie name of
    the record is there, a name that is not in the record has the
    value the browser gave, and (for a record without repeated names)
    a name of the record has the value of the record. *)
Theorem client_cookies_are_merged (w : world) (account : value) (i : nat)
    (all_cookies : dict value) :
  In (EvCookiesUpdate i all_cookies) (snd (check_in_account w account i)) ->
  exists cookies_data user_cookies waf_cookies,
    get account "cookies" (VDict []) = Ok cookies_data
    /\ parse_cookies cookies_data = Ok user_cookies
    /\ fst (get_waf_cookies_with_playwright w i) = Ok (Some waf_cookies)
    /\ all_cookies = dict_merge waf_cookies user_cookies
    /\ (forall k, In k (keys all_cookies)
                  <-> In k required_cookies \/ In k (keys user_cookies))
    /\ (forall k, ~ In k (keys user_cookies) ->
                  dict_get k all_cookies = dict_get k waf_cookies)
    /\ (NoDup (keys user_cookies) ->
        forall k v, dict_get k user_cookies = Some v -> dict_get k all_cookies = Some v).
Proof.
  intros Hin.
  destruct (check_in_account_trace w account i)
    as [Hb | [api_user [cookies_data [user_cookies [waf_cookies [Ha [Hc [Hp [Hw Hev]]]]]]]]].
  { rewrite Forall_forall in Hb. exact (False_ind _ (Hb _ Hin)). }
  rewrite Hev in Hin. apply in_app_or in Hin. destruct Hin as [Hin|[Hin|Hin]].
  { pose proof (waf_only browser_event w i (fun _ => I)) as Hb. unfold only in Hb.
    rewrite Forall_forall in Hb. exact (False_ind _ (Hb _ Hin)). }
  { discriminate Hin. }
  destruct (client_new (sessions w i)) as [[]|ncls nmsg|]; try contradiction.
  destruct (session_calls_script w i api_user waf_cookies user_cookies) as [n [Hn Hs]].
  rewrite Hs in Hin.
  assert (E : all_cookies = dict_merge waf_cookies user_cookies).
  { apply in_app_or in Hin. destruct Hin as [Hin|[Hin|[]]]; [|discriminate Hin].
    assert (Hall : In (EvCookiesUpdate i all_cookies)
                     (client_script i (dict_merge waf_cookies user_cookies) api_user)).
    { rewrite <- (firstn_skipn n (client_script i _ api_user)).
      apply in_or_app. left. exact Hin. }
    destruct Hall as [H|[H|[H|[]]]]; [|discriminate H|discriminate H].
    inversion H. reflexivity. }
  exists cookies_data, user_cookies, waf_cookies.
  split; [exact Hc|]. split; [exact Hp|]. split; [exact Hw|]. split; [exact E|].
  destruct (waf_returns w i (Some waf_cookies) Hw) as [Hall [Honly Hnd]].
  subst all_cookies. split; [|split].
  - intros k. rewrite keys_dict_merge. split; intros [H|H]; auto.
    + left. apply in_map_iff in H. destruct H as [[k' v] [Hk H]]. simpl in Hk. subst k'.
      apply (HashFacts.dict_get_In waf_cookies k v Hnd) in H. exact (proj1 (Honly k v H)).
    + left. destruct (Hall k H) as [v Hv]. exact (dict_get_key k v waf_cookies Hv).
  - intros k Hk. apply dict_get_merge_left, Hk.
  - intros Hnd' k v Hv. rewrite dict_get_merge by exact Hnd'. rewrite Hv. reflexivity.
Qed.

Lemma client_cookies_are_merged_witness :
  exists cookies_data user_cookies waf_cookies,
    get (VDict [("cookies", VStr "session=abc"); ("api_user", VStr "1001")])
      "cookies" (VDict []) = Ok cookies_data
    /\ parse_cookies cookies_data = Ok user_cookies
    /\ fst (get_waf_cookies_with_playwright Scenarios.world_no_balance 0)
       = Ok (Some waf_cookies)
    /\ [("acw_tc", VStr "t1"); ("cdn_sec_tc", VStr "t2"); ("acw_sc__v2", VStr "t3");
        ("session", VStr "abc")]
       = dict_merge waf_cookies user_cookies.
Proof.
  destruct (client_cookies_are_merged Scenarios.world_no_balance
              (VDict [("cookies", VStr "session=abc"); ("api_user", VStr "1001")]) 0
              [("acw_tc", VStr "t1"); ("cdn_sec_tc", VStr "t2"); ("acw_sc__v2", VStr "t3");
               ("session", VStr "abc")])
    as [cookies_data [user_cookies [waf_cookies [Hc [Hp [Hw [E _]]]]]]].
  - vm_compute. do 9 right. left. reflexivity.
  - exists cookies_data, user_cookies, waf_cookies.
    split; [exact Hc|]. split; [exact Hp|]. split; [exact Hw | exact E].
Defined.

(** ** Leaving the browser *)

Lemma try_finally_calls {A} (body : M A) (e : event) (x : answer unit) :
  snd (try_finally body (call e x)) = snd body ++ [e].
Proof. unfold try_finally, call. destruct body as [r ev], x as [u|cls msg|]; reflexivity. Qed.

Ltac find_call := repeat (first [left; reflexivity | right]).

Lemma harvest_closes (b : browser) (i : nat) :
  interrupted (goto b) = false ->
  interrupted (wait_for_function b) = false ->
  interrupted (wait_for_timeout b) = false ->
  interrupted (cookies b) = false ->
  In (EvBrowser i Close) (snd (harvest b i)).
Proof.
  intros Hg Hf Ht Hc. unfold harvest.
  destruct (goto b) as [[]|? ?|]; [| |discriminate Hg];
    destruct (wait_for_function b) as [[]|? ?|]; [| |discriminate Hf| | |discriminate Hf];
    destruct (wait_for_timeout b) as [[]|? ?|]; try discriminate Ht;
    destruct (cookies b) as [l|? ?|]; try discriminate Hc;
    destruct (close b) as [[]|? ?|];
    destruct (close_in_handler b) as [[]|? ?|];
    cbn -[collect_waf required_cookies filter];
    try (pose proof (collect_waf_mild l []) as Hm;
         destruct (collect_waf l []) as [d|[? ?| |?]]; try contradiction;
         cbn -[required_cookies filter];
         try (destruct (filter (fun c => negb (dict_mem c d)) required_cookies); cbn));
    find_call.
Qed.

(** Once [async_playwright()] was entered, leaving it is the last call
    made to the browser, however the function ends; and once the page
    was opened, [context.close()] is called unless a keyboard
    interrupt cuts the navigation, the waiting or the reading of the
    cookies short. *)
Theorem browser_is_left (w : world) (i : nat) :
  let b := playwright (sessions w i) in
  let ev := snd (get_waf_cookies_with_playwright w i) in
  (start b = Returns tt ->
   exists between, ev = EvBrowser i Start :: between ++ [EvBrowser i Stop])
  /\ (start b = Returns tt -> launch b = Returns tt -> new_page b = Returns tt ->
      interrupted (goto b) = false ->
      interrupted (wait_for_function b) = false ->
      interrupted (wait_for_timeout b) = false ->
      interrupted (cookies b) = false ->
      In (EvBrowser i Close) ev).
Proof.
  cbv zeta. unfold get_waf_cookies_with_playwright. cbv zeta. split.
  - intros Hs. rewrite Hs, bind_call_returns. cbn [fst snd].
    rewrite try_finally_calls. eexists. reflexivity.
  - intros Hs Hl Hn Hg Hf Ht Hc.
    rewrite Hs, bind_call_returns. cbn [snd].
    rewrite try_finally_calls, Hl, bind_call_returns, Hn, bind_call_returns.
    cbn [snd]. right. apply in_or_app. left. right. right.
    apply harvest_closes; assumption.
Qed.

End ProtocolFacts.

(* ================================================================== *)
(** * What a run reports *)
(* ================================================================== *)

Module ReportFacts.

Import Py World Checkin MonadFacts AccountFacts LoopFacts MainFacts CookieFacts.

(** ** The keys of [current_balances] *)

Lemma of_Z_injective (a b : Z) :
  (0 < a)%Z -> (0 < b)%Z -> PyStr.of_Z a = PyStr.of_Z b -> a = b.
Proof.
  unfold PyStr.of_Z. intros Ha Hb H.
  assert (Hnil : forall z, (0 < z)%Z ->
                           Z.to_int z <> Decimal.Pos Decimal.Nil
                           /\ Z.to_int z <> Decimal.Neg Decimal.Nil).
  { intros z Hz. split; intros E; apply (f_equal Z.of_int) in E;
      rewrite DecimalZ.of_to in E; cbn in E; lia. }
  apply (f_equal NilZero.int_of_string) in H.
  rewrite !NilZero.isi in H by (apply Hnil; assumption).
  inversion H as [E]. apply (f_equal Z.of_int) in E.
  rewrite !DecimalZ.of_to in E. exact E.
Qed.

(** Accounts at different places of the list have different keys. *)
Lemma account_key_injective (i j : nat) : account_key i = account_key j -> i = j.
Proof.
  unfold account_key. intros H. cbn [append] in H. inversion H as [E].
  apply of_Z_injective in E; lia.
Qed.

(** The balance the loop body stores for the account, if any. *)
Definition balance_read (w : world) (i : nat) (account : value) : option balance :=
  match fst (check_in_account w account i) with
  | Ok (_, Some (UserInfo current_quota current_used _)) =>
      Some (Balance current_quota current_used)
  | _ => None
  end.

Lemma process_account_balance (w : world) (st st' : loop_state) (i : nat)
    (account : value) (ev : list event) :
  process_account w st i account = (Ok st', ev) ->
  current_balances st'
  = match balance_read w i account with
    | Some b => dict_set (account_key i) b (current_balances st)
    | None => current_balances st
    end.
Proof.
  unfold process_account, balance_read.
  destruct (get_account_display_name account i) as [nm|e]; [|discriminate].
  rewrite bind_lift_ok.
  destruct (check_in_account w account i) as [[[s [[q u d|err]|]]|[cls msg| |code]] evc];
    cbn; intros H; inversion H; subst; reflexivity.
Qed.

(** After the loop, the entry under the key of the account at index
    [i0 + j] is the balance read for that account; other keys are as
    before. *)
Lemma account_loop_balance_map (w : world) (accounts : list value) :
  forall (i0 : nat) (st st' : loop_state) (ev : list event),
    account_loop w accounts i0 st = (Ok st', ev) ->
    NoDup (keys (current_balances st)) ->
    NoDup (keys (current_balances st'))
    /\ (forall j account,
          nth_error accounts j = Some account ->
          dict_get (account_key (i0 + j)) (current_balances st')
          = match balance_read w (i0 + j) account with
            | Some b => Some b
            | None => dict_get (account_key (i0 + j)) (current_balances st)
            end)
    /\ (forall k,
          (forall j, j < List.length accounts -> k <> account_key (i0 + j)) ->
          dict_get k (current_balances st') = dict_get k (current_balances st)).
Proof.
  induction accounts as [|account accounts IH]; intros i0 st st' ev H Hnd.
  - inversion H; subst. split; [exact Hnd|]. split; [|reflexivity].
    intros [|j] a Hj; discriminate.
  - cbn [account_loop] in H. apply bind_inv_ok in H.
    destruct H as [st1 [ev1 [ev2 [H1 [H2 _]]]]].
    apply process_account_balance in H1.
    assert (Hnd1 : NoDup (keys (current_balances st1))).
    { rewrite H1. destruct (balance_read w i0 account); [apply dict_set_NoDup|]; exact Hnd. }
    destruct (IH (S i0) st1 st' ev2 H2 Hnd1) as [Hnd' [Hin Hout]].
    split; [exact Hnd'|]. split.
    + intros [|j] a Hj.
      * inversion Hj; subst a. rewrite Nat.add_0_r.
        rewrite Hout.
        2: { intros j Hlt E. apply account_key_injective in E. lia. }
        rewrite H1. destruct (balance_read w i0 account); [|reflexivity].
        rewrite dict_get_set, String.eqb_refl. reflexivity.
      * cbn [nth_error] in Hj. specialize (Hin j a Hj).
        replace (i0 + S j) with (S i0 + j) by lia. rewrite Hin.
        destruct (balance_read w (S i0 + j) a); [reflexivity|].
        rewrite H1. destruct (balance_read w i0 account); [|reflexivity].
        rewrite dict_get_set.
        destruct (String.eqb (account_key (S i0 + j)) (account_key i0)) eqn:E;
          [|reflexivity].
        apply String.eqb_eq, account_key_injective in E. lia.
    + intros k Hk. rewrite Hout.
      2: { intros j Hlt. replace (S i0 + j) with (i0 + S j) by lia.
           apply Hk. simpl. lia. }
      rewrite H1. destruct (balance_read w i0 account); [|reflexivity].
      rewrite dict_get_set.
      destruct (String.eqb k (account_key i0)) eqn:E; [|reflexivity].
      apply String.eqb_eq in E. exfalso. apply (Hk 0); [simpl; lia|].
      rewrite Nat.add_0_r. exact E.
Qed.

Lemma key_in_range (n : nat) (k : string) :
  (exists j, j < n /\ k = account_key j) \/ (forall j, j < n -> k <> account_key j).
Proof.
  induction n as [|n IH].
  - right. intros j Hj. lia.
  - destruct IH as [[j [Hj E]]|IH]; [left; exists j; split; [lia | exact E]|].
    destruct (String.eqb k (account_key n)) eqn:E.
    + apply String.eqb_eq in E. left. exists n. split; [lia | exact E].
    + apply String.eqb_neq in E. right. intros j Hj.
      destruct (Nat.eq_dec j n) as [->|Hne]; [exact E | apply IH; lia].
Qed.

(** When the loop has ended, [current_balances] holds, under the key
    [account_N] of each account, the quota and used quota of the
    profile read for that account in this run, and no entry for an
    account whose profile was not read; it has no other key. *)
Theorem balances_are_the_profiles_read (w : world) (accounts : list value)
    (st : loop_state) (ev : list event) :
  account_loop w accounts 0 initial = (Ok st, ev) ->
  (forall i account,
      nth_error accounts i = Some account ->
      dict_get (account_key i) (current_balances st) = balance_read w i account)
  /\ (forall k b,
        dict_get k (current_balances st) = Some b ->
        exists i account,
          nth_error accounts i = Some account /\ k = account_key i
          /\ balance_read w i account = Some b)
  /\ NoDup (keys (current_balances st)).
Proof.
  intros H.
  destruct (account_loop_balance_map w accounts 0 initial st ev H) as [Hnd [Hin Hout]];
    [constructor|].
  assert (Hread : forall i account,
             nth_error accounts i = Some account ->
             dict_get (account_key i) (current_balances st) = balance_read w i account).
  { intros i account Hi. specialize (Hin i account Hi). cbn [Nat.add] in Hin.
    rewrite Hin. destruct (balance_read w i account); reflexivity. }
  split; [exact Hread|]. split; [|exact Hnd].
  intros k b Hk.
  destruct (key_in_range (List.length accounts) k) as [[j [Hj E]]|Hno].
  - subst k. apply nth_error_Some in Hj.
    destruct (nth_error accounts j) as [account|] eqn:Ea; [|contradiction Hj; reflexivity].
    exists j, account. split; [exact Ea|]. split; [reflexivity|].
    rewrite <- (Hread j account Ea). exact Hk.
  - rewrite (Hout k Hno) in Hk. discriminate Hk.
Qed.

Lemma balances_are_the_profiles_read_witness :
  exists st,
    fst (account_loop Scenarios.world_mixed
           [VDict [("cookies", VStr "session=abc"); ("api_user", VStr "1001")];
            VDict [("name", VStr "spare"); ("cookies", VDict [("session", VStr "xyz")]);
                   ("api_user", VStr "1002")]] 0 initial) = Ok st
    /\ dict_get "account_1" (current_balances st) = None
    /\ dict_get "account_2" (current_balances st)
       = Some (Balance (PyFloat.round (PyFloat.of_ratio 12345678 500000) 2)
                       (PyFloat.round (PyFloat.of_ratio 7500 500000) 2)).
Proof.
  destruct (account_loop Scenarios.world_mixed
              [VDict [("cookies", VStr "session=abc"); ("api_user", VStr "1001")];
               VDict [("name", VStr "spare"); ("cookies", VDict [("session", VStr "xyz")]);
                      ("api_user", VStr "1002")]] 0 initial) as [[st|e] ev] eqn:H;
    [|vm_compute in H; discriminate H].
  destruct (balances_are_the_profiles_read Scenarios.world_mixed _ st ev H) as [Hread _].
  exists st. split; [reflexivity|]. split.
  - exact (Hread 0 _ eq_refl).
  - exact (Hread 1 _ eq_refl).
Defined.

(** ** The notification *)


Lemma after_loop_exact (w : world) (accounts : list value) (last : option string)
    (st : loop_state) (file : file_state) (before : list event) :
  accounts_ok accounts = true ->
  exists l,
    balance_lines accounts 0 (current_balances st) = Ok l
    /\ let lines := if balance_changed last st then l else [] in
       after_loop w accounts last st file before
       = Run (exit_of st (fst (sent_by w accounts last st lines)))
           (fst (saved_by w st file))
           (before ++ snd (saved_by w st file) ++ snd (sent_by w accounts last st lines)).
Proof.
  intros Hok.
  destruct (balance_lines_ok accounts Hok 0 (current_balances st)) as [l Hl].
  exists l. split; [exact Hl|]. cbv zeta.
  unfold after_loop. rewrite Hl.
  unfold saved_by, sent_by.
  destruct (balance_changed last st);
    (destruct (current_balance_hash st) as [h|] eqn:Eh;
     [rewrite (HashFacts.hash_set_current st h Eh);
      destruct (save_balance_hash w h file) as [file' saved]|]);
    cbn [fst snd];
    match goal with
    | |- context [if ?c then call ?e ?x else ret tt] =>
        destruct c; [destruct x as [[]|cls msg|]|]; reflexivity
    end.
Qed.

(** A notification among the calls of a run is the one [main] builds
    after a loop that ended. *)
Lemma notify_inversion (w : world) (file : file_state) (title : string) (n : notification) :
  In (EvNotify title n) (calls (main w file)) ->
  exists accounts st ev l,
    load_accounts w = Some accounts
    /\ accounts <> []
    /\ account_loop w accounts 0 initial = (Ok st, ev)
    /\ balance_lines accounts 0 (current_balances st) = Ok l
    /\ final_need_notify (load_balance_hash file) st = true
    /\ title = notification_title
    /\ n = Notification (if balance_changed (load_balance_hash file) st then l else [])
             (account_results st) (success_count st) (List.length accounts)
    /\ calls (main w file) = ev ++ snd (saved_by w st file) ++ [EvNotify title n].
Proof.
  intros Hin.
  destruct (load_accounts w) as [accounts|] eqn:Hl;
    [|rewrite (main_without_accounts w file (or_introl Hl)) in Hin; contradiction].
  destruct accounts as [|a r] eqn:Ea;
    [rewrite (main_without_accounts w file (or_intror Hl)) in Hin; contradiction|].
  rewrite <- Ea in *.
  assert (Hne : accounts <> []) by (rewrite Ea; discriminate).
  destruct (account_loop w accounts 0 initial) as [[st|e] ev] eqn:H.
  2: { rewrite (main_interrupted_loop w file accounts e ev Hl H) in Hin. cbn [calls] in Hin.
       destruct (loop_calls_no_notify w accounts 0 initial _ ev H _ Hin) as [j Hj].
       contradiction. }
  rewrite (main_with_accounts w file accounts st ev Hl Hne H) in Hin |- *.
  destruct (after_loop_exact w accounts (load_balance_hash file) st file ev
              (ConfigFacts.load_accounts_ok w accounts Hl)) as [l [Hlines Hshape]].
  cbv zeta in Hshape. rewrite Hshape in Hin |- *. cbn [calls] in Hin |- *.
  exists accounts, st, ev, l.
  split; [reflexivity|]. split; [exact Hne|]. split; [exact H|]. split; [exact Hlines|].
  apply in_app_or in Hin. destruct Hin as [Hin|Hin].
  { destruct (loop_calls_no_notify w accounts 0 initial _ ev H _ Hin) as [j Hj].
    contradiction. }
  apply in_app_or in Hin. destruct Hin as [Hin|Hin].
  { apply saved_by_calls in Hin. destruct Hin as [h [_ Hh]]. discriminate. }
  unfold sent_by in Hin |- *.
  destruct (final_need_notify (load_balance_hash file) st); [|contradiction].
  cbn [andb] in Hin |- *.
  destruct (nonempty (account_results st) || nonempty _); [|contradiction].
  cbn [call snd] in Hin |- *. destruct Hin as [Hin|[]]. inversion Hin; subst.
  repeat split; reflexivity.
Qed.

Lemma filter_split_length {A} (p : A -> bool) (l : list A) :
  List.length (filter p l) + List.length (filter (fun x => negb (p x)) l) = List.length l.
Proof.
  induction l as [|x r IH]; [reflexivity|].
  simpl. destruct (p x); simpl; lia.
Qed.

(** A notification that a run sends has the title of the script and
    reports the run: one result for each configured account, the
    number of accounts as the total, the number of successful results
    as the success count, so that total minus successes is the number
    of failed results.  It is the only notification of the run and its
    last call. *)
Theorem notification_reports_the_run (w : world) (file : file_state) (title : string)
    (n : notification) :
  In (EvNotify title n) (calls (main w file)) ->
  exists accounts,
    load_accounts w = Some accounts
    /\ title = "AnyRouter Check-in Alert"
    /\ sent_total_count n = List.length accounts
    /\ List.length (sent_results n) = sent_total_count n
    /\ sent_success_count n = List.length (filter success (sent_results n))
    /\ sent_total_count n - sent_success_count n
       = List.length (filter failed (sent_results n))
    /\ exists before,
         calls (main w file) = before ++ [EvNotify title n]
         /\ forall title' n', ~ In (EvNotify title' n') before.
Proof.
  intros Hin.
  destruct (notify_inversion w file title n Hin)
    as [accounts [st [ev [l [Hl [Hne [H [Hlines [Hnotify [Ht [Hn Hcalls]]]]]]]]]]].
  destruct (account_loop_result w accounts 0 initial st ev H)
    as [rs [Hrs [Hlen [_ [Hcount _]]]]].
  cbn [initial account_results success_count app Nat.add] in Hrs, Hcount.
  exists accounts. split; [exact Hl|]. split; [exact Ht|].
  subst n. cbn [sent_total_count sent_results sent_success_count].
  rewrite Hrs, Hcount. split; [reflexivity|]. split; [exact Hlen|]. split; [reflexivity|].
  split.
  - pose proof (filter_split_length success rs) as Hsplit. unfold failed.
    rewrite <- Hlen. lia.
  - exists (ev ++ snd (saved_by w st file)). split.
    + rewrite Hcalls, app_assoc. rewrite Hrs, Hcount. reflexivity.
    + intros title' n' Hin'. apply in_app_or in Hin'. destruct Hin' as [Hin'|Hin'].
      * destruct (loop_calls_no_notify w accounts 0 initial _ ev H _ Hin') as [j Hj].
        contradiction.
      * apply saved_by_calls in Hin'. destruct Hin' as [h [_ Hh]]. discriminate.
Qed.

Lemma notification_reports_the_run_witness :
  exists n,
    In (EvNotify "AnyRouter Check-in Alert" n) (calls (main Scenarios.world_mixed NoFile))
    /\ sent_total_count n = 2
    /\ sent_success_count n = 1
    /\ List.length (filter failed (sent_results n)) = 1.
Proof.
  assert (Hex : exists n,
             In (EvNotify "AnyRouter Check-in Alert" n)
               (calls (main Scenarios.world_mixed NoFile))
             /\ sent_success_count n = 1).
  { vm_compute. eexists. split; [do 17 right; left; reflexivity | reflexivity]. }
  destruct Hex as [n [Hin Hs]].
  destruct (notification_reports_the_run Scenarios.world_mixed NoFile _ n Hin)
    as [accounts [Hl [_ [Ht [_ [_ [Hf _]]]]]]].
  assert (Ha : List.length accounts = 2).
  { vm_compute in Hl. inversion Hl. reflexivity. }
  exists n. split; [exact Hin|]. split; [rewrite Ht; exact Ha|]. split; [exact Hs|].
  rewrite <- Hf, Ht, Ha, Hs. reflexivity.
Defined.




(** ** One account after the other *)

(** The calls of a loop that ended are the calls made for the first
    account, then those for the second, and so on: no call for an
    account is made before the account before it is done with, and
    the calls for an account are the calls of its [check_in_account]. *)
Theorem accounts_are_processed_in_order (w : world) (accounts : list value)
    (st : loop_state) (ev : list event) :
  account_loop w accounts 0 initial = (Ok st, ev) ->
  exists per_account,
    ev = List.concat per_account
    /\ List.length per_account = List.length accounts
    /\ forall i account,
         nth_error accounts i = Some account ->
         nth_error per_account i = Some (snd (check_in_account w account i))
         /\ Forall (account_event i) (snd (check_in_account w account i)).
Proof.
  assert (Hgen : forall accounts i0 st0 st' ev',
             account_loop w accounts i0 st0 = (Ok st', ev') ->
             exists per_account,
               ev' = List.concat per_account
               /\ List.length per_account = List.length accounts
               /\ forall j account,
                    nth_error accounts j = Some account ->
                    nth_error per_account j
                    = Some (snd (check_in_account w account (i0 + j)))).
  { clear. induction accounts as [|account accounts IH]; intros i0 st0 st' ev' H.
    - inversion H; subst. exists []. split; [reflexivity|]. split; [reflexivity|].
      intros [|j] a Hj; discriminate.
    - cbn [account_loop] in H. apply bind_inv_ok in H.
      destruct H as [st1 [ev1 [ev2 [H1 [H2 Hev]]]]].
      apply process_account_step in H1. destruct H1 as [r [_ [_ [_ [_ Hev1]]]]].
      destruct (IH (S i0) st1 st' ev2 H2) as [per [Hc [Hlen Hnth]]].
      exists (ev1 :: per). split; [subst ev' ev2; reflexivity|].
      split; [simpl; rewrite Hlen; reflexivity|].
      intros [|j] a Hj.
      + inversion Hj; subst a. rewrite Nat.add_0_r. subst ev1. reflexivity.
      + cbn [nth_error] in Hj |- *. replace (i0 + S j) with (S i0 + j) by lia.
        apply Hnth, Hj. }
  intros H. destruct (Hgen accounts 0 initial st ev H) as [per [Hc [Hlen Hnth]]].
  exists per. split; [exact Hc|]. split; [exact Hlen|].
  intros i account Hi. split; [exact (Hnth i account Hi)|].
  apply check_in_account_only.
Qed.

Lemma accounts_are_processed_in_order_witness :
  exists per_account,
    snd (account_loop Scenarios.world_mixed
           [VDict [("cookies", VStr "session=abc"); ("api_user", VStr "1001")];
            VDict [("name", VStr "spare"); ("cookies", VDict [("session", VStr "xyz")]);
                   ("api_user", VStr "1002")]] 0 initial) = List.concat per_account
    /\ List.length per_account = 2.
Proof.
  destruct (account_loop Scenarios.world_mixed
              [VDict [("cookies", VStr "session=abc"); ("api_user", VStr "1001")];
               VDict [("name", VStr "spare"); ("cookies", VDict [("session", VStr "xyz")]);
                      ("api_user", VStr "1002")]] 0 initial) as [[st|e] ev] eqn:H;
    [|vm_compute in H; discriminate H].
  destruct (accounts_are_processed_in_order Scenarios.world_mixed _ st ev H)
    as [per [Hc [Hlen _]]].
  exists per. split; [exact Hc | exact Hlen].
Defined.

End ReportFacts.

(* ================================================================== *)
(** * The accounts of the configuration *)
(* ================================================================== *)

Module AcceptFacts.

Import Py World Checkin MonadFacts LoopFacts MainFacts ConfigFacts.

Lemma checked_account_ok (account : value) :
  checked_record account -> account_ok account = true.
Proof.
  intros [d [E [Hc [Ha Hn]]]]. subst account. simpl.
  rewrite Hc, Ha. simpl.
  destruct (dict_get "name" d) as [n|]; [apply Hn; reflexivity | reflexivity].
Qed.

Lemma accounts_ok_iff (l : list value) :
  accounts_ok l = true <-> Forall checked_record l.
Proof.
  induction l as [|a l IH]; simpl.
  - split; [constructor | reflexivity].
  - destruct (account_ok a) eqn:E.
    + rewrite IH. split.
      * intros H. constructor; [apply account_ok_checked; exact E | exact H].
      * intros H. inversion H; assumption.
    + split; [discriminate|]. intros H. inversion H as [|x y Hx Hy]; subst.
      apply checked_account_ok in Hx. congruence.
Qed.

(** [load_accounts] returns a list exactly when the environment
    variable is set to a JSON text that is a list whose elements are
    all objects with the keys [cookies] and [api_user] and without an
    empty [name]; the list returned is then the whole list.  In every
    other case, also when a single element fails the check, it
    returns [None]: there is no partial list. *)
Theorem load_accounts_all_or_nothing (w : world) :
  (forall accounts,
      load_accounts w = Some accounts
      <-> exists s,
            ANYROUTER_ACCOUNTS w = Some s
            /\ Json.loads s = Some (VList accounts)
            /\ Forall checked_record accounts)
  /\ (forall s items item,
        ANYROUTER_ACCOUNTS w = Some s ->
        Json.loads s = Some (VList items) ->
        In item items -> account_ok item = false ->
        load_accounts w = None).
Proof.
  assert (Hempty : Json.loads "" = None) by reflexivity.
  split.
  - intros accounts. unfold load_accounts. split.
    + destruct (ANYROUTER_ACCOUNTS w) as [s|]; [|discriminate].
      destruct (String.eqb s ""); [discriminate|].
      destruct (Json.loads s) as [[| | | | |l|]|] eqn:Hj; try discriminate.
      destruct (accounts_ok l) eqn:E; [|discriminate].
      intros H. inversion H; subst. exists s.
      split; [reflexivity|]. split; [exact Hj|]. apply accounts_ok_iff, E.
    + intros [s [Hs [Hl Hall]]]. rewrite Hs.
      destruct (String.eqb s "") eqn:E.
      * apply String.eqb_eq in E. subst s. rewrite Hempty in Hl. discriminate.
      * rewrite Hl. apply accounts_ok_iff in Hall. rewrite Hall. reflexivity.
  - intros s items item Hs Hl Hin Hbad. unfold load_accounts. rewrite Hs.
    destruct (String.eqb s ""); [reflexivity|]. rewrite Hl.
    destruct (accounts_ok items) eqn:E; [|reflexivity].
    apply accounts_ok_Forall in E. rewrite Forall_forall in E.
    rewrite (E item Hin) in Hbad. discriminate.
Qed.

(** ** Display names *)

Lemma display_name_set (account : value) (i : nat) :
  account_ok account = true ->
  exists nm, get_account_display_name account i = Ok nm /\ truthy nm = true.
Proof.
  destruct account as [| | | | | |d]; simpl; try discriminate.
  destruct (negb (dict_mem "cookies" d) || negb (dict_mem "api_user" d)); [discriminate|].
  unfold get_account_display_name. cbn [get].
  destruct (dict_get "name" d) as [n|]; intros H.
  - exists n. split; [reflexivity | exact H].
  - eexists. split; [reflexivity|]. reflexivity.
Qed.

(** Every result of a run of the loop over an accepted account list
    carries a display name that is not empty: the [name] of the
    account record when it has one, [Account N] otherwise, [N] being
    the place of the account in the list, counted from 1. *)
Theorem results_carry_display_names (w : world) (accounts : list value)
    (st : loop_state) (ev : list event) :
  load_accounts w = Some accounts ->
  account_loop w accounts 0 initial = (Ok st, ev) ->
  forall i r,
    nth_error (account_results st) i = Some r ->
    truthy (name r) = true
    /\ exists d,
         nth_error accounts i = Some (VDict d)
         /\ name r = match dict_get "name" d with
                     | Some n => n
                     | None => VStr ("Account " ++ PyStr.of_Z (Z.of_nat i + 1))
                     end.
Proof.
  intros Hl H i r Hr.
  destruct (account_loop_result w accounts 0 initial st ev H)
    as [rs [Hrs [Hlen [Hnth _]]]].
  cbn [initial account_results app] in Hrs. rewrite Hrs in Hr.
  assert (Hlt : i < List.length accounts).
  { rewrite <- Hlen. apply nth_error_Some. rewrite Hr. discriminate. }
  apply nth_error_Some in Hlt.
  destruct (nth_error accounts i) as [account|] eqn:Ea; [|contradiction Hlt; reflexivity].
  destruct (Hnth i account Ea) as [r' [Hr' [Hname _]]].
  rewrite Hr in Hr'. inversion Hr'; subst r'. cbn [Nat.add] in Hname.
  assert (Hok : account_ok account = true).
  { pose proof (accounts_ok_Forall accounts (load_accounts_ok w accounts Hl)) as Hall.
    rewrite Forall_forall in Hall. apply Hall. eapply nth_error_In. exact Ea. }
  destruct (display_name_set account i Hok) as [nm [Hnm Ht]].
  rewrite Hname in Hnm. inversion Hnm; subst nm. split; [exact Ht|].
  destruct account as [| | | | | |d]; try discriminate Hok.
  exists d. split; [reflexivity|].
  unfold get_account_display_name in Hname. cbn [get] in Hname.
  inversion Hname. reflexivity.
Qed.

Lemma results_carry_display_names_witness :
  exists st,
    fst (account_loop Scenarios.world_mixed
           [VDict [("cookies", VStr "session=abc"); ("api_user", VStr "1001")];
            VDict [("name", VStr "spare"); ("cookies", VDict [("session", VStr "xyz")]);
                   ("api_user", VStr "1002")]] 0 initial) = Ok st
    /\ (forall i r, nth_error (account_results st) i = Some r -> truthy (name r) = true).
Proof.
  destruct (account_loop Scenarios.world_mixed
              [VDict [("cookies", VStr "session=abc"); ("api_user", VStr "1001")];
               VDict [("name", VStr "spare"); ("cookies", VDict [("session", VStr "xyz")]);
                      ("api_user", VStr "1002")]] 0 initial) as [[st|e] ev] eqn:H;
    [|vm_compute in H; discriminate H].
  pose proof (results_carry_display_names Scenarios.world_mixed _ st ev eq_refl H) as Hn.
  exists st. split; [reflexivity|].
  intros i r Hr. exact (proj1 (Hn i r Hr)).
Defined.

End AcceptFacts.

(* ================================================================== *)
(** * Further facts about a run *)
(* ================================================================== *)

Module RunFacts.

Import Py World Checkin MonadFacts AccountFacts LoopFacts MainFacts HashFileFacts
  ProtocolFacts.

(** ** The profile record of a check-in *)

Lemma session_calls_profile (w : world) (i : nat) (api_user : value)
    (waf_cookies user_cookies : dict value) (s : bool) (info : user_info_t) :
  fst (session_calls w i api_user waf_cookies user_cookies) = Ok (s, Some info) ->
  fst (get_user_info w i (request_headers api_user)) = Ok info
  /\ exists resp, http_post (sessions w i) = Returns resp.
Proof.
  unfold session_calls.
  pose proof (ProfileFacts.get_user_info_calls w i (request_headers api_user)) as Hgc.
  destruct (get_user_info w i (request_headers api_user)) as [rg evg].
  simpl in Hgc. subst evg.
  destruct (cookies_update (sessions w i)) as [u|ccls cmsg|];
    destruct (client_close (sessions w i)) as [[]|kcls kmsg|];
    destruct rg as [info0|[gcls gmsg| |gcode]];
    destruct (http_post (sessions w i)) as [resp|pcls pmsg|];
    cbn -[read_checkin checkin_headers request_headers dict_merge];
    try discriminate.
  all: unfold read_checkin; destruct (status_code resp =? 200)%Z.
  all: try (destruct (json resp) as [result|jcls jmsg|]).
  all: cbn -[checkin_headers request_headers dict_merge body_says_success String.eqb
             PyStr.contains PyStr.lower].
  all: try (destruct (body_says_success result) as [[]|[bcls bmsg| |bcode]]).
  all: try (destruct (String.eqb jcls "JSONDecodeError")).
  all: try (destruct (PyStr.contains "success" (PyStr.lower (text resp)))).
  all: cbn -[checkin_headers request_headers dict_merge String.eqb].
  all: repeat match goal with
              | |- context [if ?c then _ else _] =>
                  destruct c; cbn -[checkin_headers request_headers dict_merge String.eqb]
              end.
  all: intros H; inversion H; subst; split; eauto.
Qed.

(** When [check_in_account] returns a profile record, the record is
    the one [get_user_info] returned for the request that carries the
    [api_user] of the account in its [new-api-user] header, and the
    check-in request was answered: no profile record is returned
    without a check-in. *)
Theorem profile_comes_with_check_in (w : world) (account : value) (i : nat) (s : bool)
    (info : user_info_t) :
  fst (check_in_account w account i) = Ok (s, Some info) ->
  exists api_user,
    get account "api_user" (VStr "") = Ok api_user
    /\ truthy api_user = true
    /\ dict_get "new-api-user" (request_headers api_user) = Some api_user
    /\ fst (get_user_info w i (request_headers api_user)) = Ok info
    /\ exists resp, http_post (sessions w i) = Returns resp.
Proof.
  unfold check_in_account. cbv zeta.
  destruct (get_account_display_name account i) as [nm|e];
    [rewrite bind_lift_ok | discriminate].
  destruct (get account "cookies" (VDict [])) as [cookies_data|e];
    [rewrite bind_lift_ok | discriminate].
  destruct (get account "api_user" (VStr "")) as [api_user|e];
    [rewrite bind_lift_ok | discriminate].
  destruct (truthy api_user) eqn:Et; cbn [negb]; [|discriminate].
  destruct (parse_cookies cookies_data) as [[|c user_cookies]|e];
    [ rewrite bind_lift_ok; discriminate
    | rewrite bind_lift_ok
    | discriminate ].
  destruct (get_waf_cookies_with_playwright w i) as [[[[|k waf_cookies]|]|e] evw];
    [ rewrite bind_ok; discriminate
    |
    | rewrite bind_ok; discriminate
    | rewrite bind_raise; discriminate ].
  rewrite bind_ok.
  destruct (client_new (sessions w i)) as [[]|ncls nmsg|];
    [rewrite bind_call_returns | discriminate | discriminate].
  cbn [fst]. intros H.
  destruct (session_calls_profile w i api_user _ _ s info H) as [Hg Hp].
  exists api_user. split; [reflexivity|]. split; [exact Et|].
  split; [reflexivity|]. split; [exact Hg | exact Hp].
Qed.

Lemma profile_comes_with_check_in_witness :
  exists api_user,
    get (VDict [("cookies", VStr "session=abc"); ("api_user", VStr "1001")])
      "api_user" (VStr "") = Ok api_user
    /\ fst (get_user_info Scenarios.world_no_balance 0 (request_headers api_user))
       = Ok (UserInfoError "Failed to get user info: HTTP 500").
Proof.
  destruct (profile_comes_with_check_in Scenarios.world_no_balance
              (VDict [("cookies", VStr "session=abc"); ("api_user", VStr "1001")]) 0
              true (UserInfoError "Failed to get user info: HTTP 500"))
    as [api_user [Ha [_ [_ [Hg _]]]]].
  - reflexivity.
  - exists api_user. split; [exact Ha | exact Hg].
Defined.

(** ** Blanks around the stored hash *)

(** A byte that is a blank character of its own. *)
Definition blank (c : ascii) : bool :=
  negb (PyStr.is_continuation c) && PyStr.isspace (single c).

Definition blank_string (s : string) : bool := forallb blank (list_ascii_of_string s).

Definition lone (c : ascii) : bool := negb (PyStr.is_continuation c).

Lemma chars_lone (s : string) :
  forallb lone (list_ascii_of_string s) = true ->
  PyStr.chars s = map single (list_ascii_of_string s).
Proof.
  induction s as [|c r IH]; [reflexivity|].
  cbn [list_ascii_of_string forallb map]. intros H.
  apply andb_true_iff in H. destruct H as [_ Hr].
  cbn [PyStr.chars]. rewrite (IH Hr).
  destruct r as [|c' r']; [reflexivity|].
  cbn [list_ascii_of_string map PyStr.starts_with_continuation].
  cbn [list_ascii_of_string forallb] in Hr.
  apply andb_true_iff in Hr. destruct Hr as [Hc' _].
  unfold lone in Hc'. apply negb_true_iff in Hc'. rewrite Hc'. reflexivity.
Qed.

Lemma list_ascii_app (a b : string) :
  list_ascii_of_string (a ++ b) = list_ascii_of_string a ++ list_ascii_of_string b.
Proof. induction a as [|c r IH]; [reflexivity|]. simpl. rewrite IH. reflexivity. Qed.

Lemma drop_while_blanks (p : string -> bool) (l1 l2 : list string) :
  forallb p l1 = true ->
  match l2 with x :: _ => p x = false | [] => True end ->
  PyStr.drop_while p (l1 ++ l2) = l2.
Proof.
  intros H1 H2. induction l1 as [|x r IH].
  - apply drop_while_head. exact H2.
  - cbn [forallb] in H1. apply andb_true_iff in H1. destruct H1 as [Hx Hr].
    cbn [app PyStr.drop_while]. rewrite Hx. apply IH, Hr.
Qed.

Lemma strip_between_blanks (pre s post : string) :
  blank_string pre = true -> blank_string post = true ->
  plain_string s = true -> s <> EmptyString ->
  PyStr.strip (pre ++ s ++ post) = s.
Proof.
  intros Hpre Hpost Hs Hne.
  assert (Hb : forall x, blank_string x = true ->
                         forallb lone (list_ascii_of_string x) = true
                         /\ forallb PyStr.isspace (map single (list_ascii_of_string x)) = true).
  { intros x Hx. unfold blank_string in Hx. rewrite forallb_forall in Hx.
    split; apply forallb_forall.
    - intros c Hc. specialize (Hx c Hc). unfold blank in Hx.
      apply andb_true_iff in Hx. exact (proj1 Hx).
    - intros ch Hch. apply in_map_iff in Hch. destruct Hch as [c [E Hc]]. subst ch.
      specialize (Hx c Hc). unfold blank in Hx.
      apply andb_true_iff in Hx. exact (proj2 Hx). }
  assert (Hp : forallb lone (list_ascii_of_string s) = true
               /\ Forall (fun ch => PyStr.isspace ch = false)
                    (map single (list_ascii_of_string s))).
  { unfold plain_string in Hs. rewrite forallb_forall in Hs. split.
    - apply forallb_forall. intros c Hc. specialize (Hs c Hc). unfold plain in Hs.
      apply andb_true_iff in Hs. exact (proj1 Hs).
    - apply Forall_forall. intros ch Hch. apply in_map_iff in Hch.
      destruct Hch as [c [E Hc]]. subst ch. specialize (Hs c Hc). unfold plain in Hs.
      apply andb_true_iff in Hs. apply negb_true_iff. exact (proj2 Hs). }
  destruct (Hb pre Hpre) as [Hl1 Hsp1]. destruct (Hb post Hpost) as [Hl3 Hsp3].
  destruct Hp as [Hl2 Hns].
  unfold PyStr.strip. rewrite chars_lone.
  2: { rewrite !list_ascii_app, !forallb_app, Hl1, Hl2, Hl3. reflexivity. }
  rewrite !list_ascii_app, !map_app.
  remember (map single (list_ascii_of_string s)) as m eqn:Em.
  assert (Hm : m <> []).
  { subst m. destruct s; [contradiction Hne; reflexivity | discriminate]. }
  rewrite drop_while_blanks.
  2: exact Hsp1.
  2: { destruct m as [|x r]; [contradiction Hm; reflexivity|]. exact (Forall_inv Hns). }
  rewrite rev_app_distr, drop_while_blanks.
  2: { rewrite forallb_forall in *. intros x Hx. apply in_rev in Hx. apply Hsp3, Hx. }
  2: { apply Forall_rev in Hns. destruct (rev m) eqn:Er.
       - apply (f_equal (@rev string)) in Er. rewrite rev_involutive in Er.
         contradiction Hm.
       - exact (Forall_inv Hns). }
  rewrite rev_involutive. subst m. rewrite join_singles.
  apply string_of_list_ascii_of_string.
Qed.

(** Blanks before and after the hash in the file (a trailing newline,
    for one) make no difference: [load_balance_hash] returns the hash
    itself, so that the comparison with the current hash is not
    disturbed by them. *)
Theorem blanks_around_stored_hash (b : option (dict balance)) (pre post : string) :
  blank_string pre = true -> blank_string post = true ->
  load_balance_hash (File (pre ++ generate_balance_hash b ++ post))
  = Some (generate_balance_hash b).
Proof.
  intros Hpre Hpost. cbn [load_balance_hash].
  destruct (generate_balance_hash_prefix b) as [s E]. rewrite E.
  rewrite strip_between_blanks; try assumption; [reflexivity| |discriminate].
  apply hex_string_plain. repeat apply hex8_hex. reflexivity.
Qed.

Lemma blanks_around_stored_hash_witness :
  load_balance_hash
    (File (" " ++ generate_balance_hash (Some Scenarios.balances_1) ++ PyStr.LF))
  = Some (generate_balance_hash (Some Scenarios.balances_1)).
Proof.
  apply (blanks_around_stored_hash (Some Scenarios.balances_1) " " PyStr.LF);
    reflexivity.
Defined.

(** ** The exit code and the stored hash *)

Lemma exit_of_sent (w : world) (accounts : list value) (last : option string)
    (st : loop_state) (lines : list balance_line) :
  push_message w = Returns tt ->
  exit_of st (fst (sent_by w accounts last st lines))
  = SystemExit (if (0 <? success_count st)%nat then 0 else 1)%Z.
Proof.
  intros Hp. unfold sent_by. rewrite Hp.
  destruct (final_need_notify last st && _); reflexivity.
Qed.

Lemma other_calls_of_after_loop (w : world) (accounts : list value)
    (last : option string) (st : loop_state) (file : file_state) (before : list event) :
  accounts_ok accounts = true ->
  Forall (fun e => is_notify e = false) before ->
  filter (fun e => negb (is_notify e)) (calls (after_loop w accounts last st file before))
  = before ++ match current_balance_hash st with
              | Some h => [EvWriteFile BALANCE_HASH_FILE h]
              | None => []
              end.
Proof.
  intros Hok Hb.
  destruct (after_loop_shape w accounts last st file before Hok) as [lines Hshape].
  rewrite Hshape. cbn [calls]. rewrite !filter_app.
  assert (E1 : filter (fun e => negb (is_notify e)) before = before).
  { clear -Hb. induction Hb as [|e l He Hl IH]; [reflexivity|].
    simpl. rewrite He, IH. reflexivity. }
  assert (E2 : filter (fun e => negb (is_notify e)) (snd (saved_by w st file))
               = match current_balance_hash st with
                 | Some h => [EvWriteFile BALANCE_HASH_FILE h]
                 | None => []
                 end).
  { unfold saved_by. destruct (current_balance_hash st); reflexivity. }
  assert (E3 : filter (fun e => negb (is_notify e))
                 (snd (sent_by w accounts last st lines)) = []).
  { unfold sent_by. destruct (final_need_notify last st && _); reflexivity. }
  rewrite E1, E2, E3, app_nil_r. reflexivity.
Qed.

(** What the hash file holds has no influence on the exit code of a
    run whose notification, if any, can be sent, nor on the calls the
    run makes apart from the notification: the same requests, and the
    same write of the hash file. *)
Theorem exit_code_ignores_hash_file (w : world) (file1 file2 : file_state) :
  push_message w = Returns tt ->
  fst (run_main w file1) = fst (run_main w file2)
  /\ filter (fun e => negb (is_notify e)) (calls (main w file1))
     = filter (fun e => negb (is_notify e)) (calls (main w file2)).
Proof.
  intros Hp. unfold run_main. cbn [fst].
  destruct (load_accounts w) as [accounts|] eqn:Hl.
  2: { rewrite !(main_without_accounts w _ (or_introl Hl)). split; reflexivity. }
  destruct accounts as [|a r] eqn:Ea.
  { rewrite !(main_without_accounts w _ (or_intror Hl)). split; reflexivity. }
  rewrite <- Ea in *.
  assert (Hne : accounts <> []) by (rewrite Ea; discriminate).
  pose proof (ConfigFacts.load_accounts_ok w accounts Hl) as Hok.
  destruct (account_loop w accounts 0 initial) as [[st|e] ev] eqn:H.
  - rewrite !(main_with_accounts w _ accounts st ev Hl Hne H).
    assert (Hev : Forall (fun e => is_notify e = false) ev).
    { apply Forall_forall. intros e He.
      destruct (loop_calls_no_notify w accounts 0 initial _ ev H e He) as [j Hj].
      destruct e; try reflexivity; contradiction. }
    rewrite !(other_calls_of_after_loop w accounts _ st _ ev Hok Hev).
    split; [|reflexivity].
    destruct (after_loop_shape w accounts (load_balance_hash file1) st file1 ev Hok)
      as [l1 H1].
    destruct (after_loop_shape w accounts (load_balance_hash file2) st file2 ev Hok)
      as [l2 H2].
    rewrite H1, H2. cbn [ended]. rewrite !exit_of_sent by exact Hp. reflexivity.
  - rewrite !(main_interrupted_loop w _ accounts e ev Hl H). split; reflexivity.
Qed.

Lemma exit_code_ignores_hash_file_witness :
  fst (run_main Scenarios.world_no_balance NoFile)
  = fst (run_main Scenarios.world_no_balance (File Scenarios.old_hash)).
Proof.
  apply (exit_code_ignores_hash_file Scenarios.world_no_balance NoFile
           (File Scenarios.old_hash)).
  reflexivity.
Defined.

End RunFacts.
